(** * CRM backend: the mutations and the report query of crm/schema.py

    The GraphQL resolvers of [crm/schema.py] are embedded as computations in a
    small monad that threads the relational store and carries Python
    exceptions.

    Conventions.
    - A primary key is an integer ([Z]); an instance that was never saved has
      primary key [None]. A GraphQL [ID] reaches a resolver as a string, and
      the ORM reads it with [int], raising [ValueError] when it cannot.
      [CreateOrder.mutate_ids] is the resolver on these strings,
      [CreateOrder.mutate] the resolver on ids that are keys already, and
      [create_order_ids_keys] shows that they agree on ids that are integers.
    - Decimal amounts (prices, totals, revenue) are integers counting the
      minor currency unit, so $25.00 is [2500].
    - Timestamps are integers; [now] is the time of the request.
    - [transaction.atomic()] is [transaction_atomic]: a write that fails
      inside the scope marks the transaction for rollback, also when the
      exception is caught inside the scope; from then on the queries of the
      scope raise, and the scope ends in a rollback. A scope whose body
      catches nothing commits when the body returns and rolls back when an
      exception leaves it, which is [atomic].
    - [Customer.objects.get] returns the first row of the key: the primary key
      identifies at most one.
    - The model classes of [crm/models.py] are not part of the sources read
      here. What the resolvers need of them is either a parameter (the field
      validators behind [clean()], and the two [Order] operations of
      [CreateOrder]) or a definition marked "Modelled from the spec". *)

From Stdlib Require Import ZArith List String Ascii Bool Lia DecimalString.
From Stdlib Require Import Permutation.
Import ListNotations.
Local Open Scope string_scope.
Local Open Scope Z_scope.
Local Open Scope list_scope.

(** ** Records of the data model (fields of the GraphQL types) *)

Module Customer.
Record t : Type := mk
  { id : option Z;
    name : string;
    email : string;
    phone : option string;
    created_at : option Z }.
End Customer.

Module Product.
Record t : Type := mk
  { id : option Z;
    name : string;
    price : Z;
    stock : Z }.

Definition with_stock (p : t) (n : Z) : t := mk (id p) (name p) (price p) n.
End Product.

Module Order.
Record t : Type := mk
  { id : option Z;
    customer : option Z;
    total_amount : Z;
    order_date : option Z }.

Definition with_order_date (o : t) (d : Z) : t :=
  mk (id o) (customer o) (total_amount o) (Some d).
End Order.

(** ** Input object types *)

Module CustomerInput.
Record t : Type := mk
  { name : string;
    email : string;
    phone : option string }.
End CustomerInput.

(** [stock] carries the schema's default of 0 when the caller gives none. *)
Module ProductInput.
Record t : Type := mk
  { name : string;
    price : Z;
    stock : Z }.
End ProductInput.

(** [OrderInput] as graphene hands it to the resolver: an [ID] arrives as a
    string, whether the request wrote it as a string or as an integer, and an
    element of [product_ids] may be null. *)
Module OrderInputIDs.
Record t : Type := mk
  { customer_id : string;
    product_ids : list (option string);
    order_date : option Z }.
End OrderInputIDs.

(** [OrderInput] with its ids read as primary keys: what the ORM makes of an
    input whose ids are all integers ([create_order_ids_keys] below). *)
Module OrderInput.
Record t : Type := mk
  { customer_id : Z;
    product_ids : list Z;
    order_date : option Z }.
End OrderInput.

(** ** The relational store: one list of rows per table, and the rows of the
    many-to-many table between orders and products as (order id, product id). *)

Record Store : Type := mkStore
  { customer_rows : list Customer.t;
    product_rows : list Product.t;
    order_rows : list Order.t;
    order_products_rows : list (Z * Z) }.

Definition empty_store : Store := mkStore [] [] [] [].

Definition set_customer_rows (s : Store) (rows : list Customer.t) : Store :=
  mkStore rows (product_rows s) (order_rows s) (order_products_rows s).

Definition set_product_rows (s : Store) (rows : list Product.t) : Store :=
  mkStore (customer_rows s) rows (order_rows s) (order_products_rows s).

Definition set_order_rows (s : Store) (rows : list Order.t) : Store :=
  mkStore (customer_rows s) (product_rows s) rows (order_products_rows s).

Definition set_order_products_rows (s : Store) (rows : list (Z * Z)) : Store :=
  mkStore (customer_rows s) (product_rows s) (order_rows s) rows.

(** ** Exceptions and the store monad *)

(** The exception classes that the resolvers tell apart, and [Exception] for
    every other one. [ValueError] is what the ORM raises for an id that is not
    a number, [TransactionManagementError] what it raises for a query in a
    transaction that is marked for rollback. *)
Inductive exn : Type :=
| IntegrityError (msg : string)
| ValidationError (msg : string)
| DoesNotExist (msg : string)
| ValueError (msg : string)
| TransactionManagementError (msg : string)
| Exception (msg : string).

(** [str(e)]: Django prints a [ValidationError] as the list of its messages. *)
Definition str (e : exn) : string :=
  match e with
  | IntegrityError m => m
  | ValidationError m => ("['" ++ m ++ "']")%string
  | DoesNotExist m => m
  | ValueError m => m
  | TransactionManagementError m => m
  | Exception m => m
  end.

Inductive outcome (A : Type) : Type :=
| Return (a : A)
| Raise (e : exn).
Arguments Return {A} a.
Arguments Raise {A} e.

(** A computation over a state of type [S]: the resolvers run over the store
    ([M]), the body of a transaction that catches exceptions runs over the
    connection ([T], below). *)
Definition St (S A : Type) : Type := S -> outcome A * S.

Definition M (A : Type) : Type := St Store A.

Definition ret {S A} (a : A) : St S A := fun s => (Return a, s).

Definition raise {S A} (e : exn) : St S A := fun s => (Raise e, s).

Definition bind {S A B} (m : St S A) (k : A -> St S B) : St S B :=
  fun s =>
    match m s with
    | (Return a, s') => k a s'
    | (Raise e, s') => (Raise e, s')
    end.

(** [try: m  except ... as e: h e] *)
Definition try_except {S A} (m : St S A) (h : exn -> St S A) : St S A :=
  fun s =>
    match m s with
    | (Return a, s') => (Return a, s')
    | (Raise e, s') => h e s'
    end.

Declare Scope crm_scope.
Delimit Scope crm_scope with crm.
Notation "x <- m ;; k" := (bind m (fun x => k))
  (at level 61, m at next level, right associativity) : crm_scope.
Notation "m ;;; k" := (bind m (fun _ => k))
  (at level 61, right associativity) : crm_scope.
Local Open Scope crm_scope.

(** ** Transactions

    Inside [with transaction.atomic():] the connection carries the flag
    [needs_rollback]. A [save()] whose write raises sets the flag before the
    exception travels on ([mark_for_rollback_on_error]); while the flag is set,
    a query raises [TransactionManagementError]; and the block commits only
    when it is left without an exception and with the flag unset. Otherwise
    the transaction is rolled back: the store is the one of the entry. *)

Record Connection : Type := mkConnection
  { db : Store;
    needs_rollback : bool }.

(** The code inside a transaction scope. *)
Definition T (A : Type) : Type := St Connection A.

Definition broken_transaction_msg : string :=
  "An error occurred in the current transaction. You can't execute queries until the end of the 'atomic' block.".

(** A write of the ORM ([save()], [products.set(...)]) inside the scope, given
    what it does to the store outside one. *)
Definition in_transaction {A} (write : M A) : T A :=
  fun c =>
    if needs_rollback c
    then (Raise (TransactionManagementError broken_transaction_msg), c)
    else
      match write (db c) with
      | (Return a, s') => (Return a, mkConnection s' false)
      | (Raise e, s') => (Raise e, mkConnection s' true)
      end.

(** [with transaction.atomic(): m], entered outside any transaction. *)
Definition transaction_atomic {A} (m : T A) : M A :=
  fun s =>
    match m (mkConnection s false) with
    | (Return a, c) => (Return a, if needs_rollback c then s else db c)
    | (Raise e, _) => (Raise e, s)
    end.

(** [with transaction.atomic(): m] for a body that catches no exception: the
    first exception leaves the scope, so the flag is never read, and the scope
    commits when [m] returns and rolls back when [m] raises
    ([transaction_atomic_writes] below). This is the scope of [CreateOrder] and
    of [UpdateLowStockProducts]; the body of [BulkCreateCustomers] catches
    exceptions and runs in [transaction_atomic]. *)
Definition atomic {A} (m : M A) : M A :=
  fun s =>
    match m s with
    | (Return a, s') => (Return a, s')
    | (Raise e, _) => (Raise e, s)
    end.

(** ** The object-relational layer *)

Definition pk_eqb (a : option Z) (i : Z) : bool :=
  match a with
  | Some j => j =? i
  | None => false
  end.

Definition max_pk (ids : list (option Z)) : Z :=
  fold_right (fun o m => match o with Some i => Z.max i m | None => m end) 0 ids.

(** The key an INSERT gives to a new row. *)
Definition next_pk (ids : list (option Z)) : Z := 1 + max_pk ids.

(** [save()] of an instance whose key is [i]: UPDATE the row of that key, or
    INSERT when there is none. *)
Definition upsert {R} (id_of : R -> option Z) (i : Z) (r : R) (rows : list R) : list R :=
  if existsb (fun x => pk_eqb (id_of x) i) rows
  then map (fun x => if pk_eqb (id_of x) i then r else x) rows
  else rows ++ [r].

(** [Customer.objects.get(id=i)] *)
Definition Customer_objects_get (i : Z) : M Customer.t :=
  fun s =>
    match find (fun c => pk_eqb (Customer.id c) i) (customer_rows s) with
    | Some c => (Return c, s)
    | None => (Raise (DoesNotExist "Customer matching query does not exist."), s)
    end.

Definition id_in (ids : list Z) (p : Product.t) : bool :=
  existsb (pk_eqb (Product.id p)) ids.

(** [Product.objects.filter(id__in=ids)], evaluated. *)
Definition Product_objects_filter_id_in (ids : list Z) : M (list Product.t) :=
  fun s => (Return (filter (id_in ids) (product_rows s)), s).

(** *** Lookups by the [ID] strings of a request

    The [id] field prepares the value of a lookup with [int(value)], and
    raises [ValueError] when that fails. *)

Section IDs.
(** Python's [int] on a string ([None] where it raises [ValueError]) and
    Python's [repr] of a string. *)
Variable py_int : string -> option Z.
Variable py_repr : string -> string.

Definition not_a_number (value : string) : exn :=
  ValueError ("Field 'id' expected a number but got " ++ py_repr value ++ ".")%string.

(** [get_prep_value] of the field on a string. *)
Definition id_get_prep_value (value : string) : outcome Z :=
  match py_int value with
  | Some i => Return i
  | None => Raise (not_a_number value)
  end.

(** [Customer.objects.get(id=value)] *)
Definition Customer_objects_get_id (value : string) : M Customer.t :=
  fun s =>
    match id_get_prep_value value with
    | Return i => Customer_objects_get i s
    | Raise e => (Raise e, s)
    end.

(** [get_prep_lookup] of [id__in]: the values are prepared one after the
    other, and a null stays a null. *)
Fixpoint id_in_get_prep_lookup (values : list (option string)) : outcome (list (option Z)) :=
  match values with
  | [] => Return []
  | None :: rest =>
      match id_in_get_prep_lookup rest with
      | Return keys => Return (None :: keys)
      | Raise e => Raise e
      end
  | Some value :: rest =>
      match id_get_prep_value value with
      | Return i =>
          match id_in_get_prep_lookup rest with
          | Return keys => Return (Some i :: keys)
          | Raise e => Raise e
          end
      | Raise e => Raise e
      end
  end.

(** The lookup discards the nulls when the query is compiled: a null is equal
    to no key. *)
Definition discard_None (keys : list (option Z)) : list Z :=
  flat_map (fun k => match k with Some i => [i] | None => [] end) keys.

(** [Product.objects.filter(id__in=values)], evaluated. *)
Definition Product_objects_filter_id_in_values (values : list (option string))
  : M (list Product.t) :=
  fun s =>
    match id_in_get_prep_lookup values with
    | Return keys => Product_objects_filter_id_in (discard_None keys) s
    | Raise e => (Raise e, s)
    end.
End IDs.

Definition stock_lt (n : Z) (p : Product.t) : bool := Product.stock p <? n.

(** [Product.objects.filter(stock__lt=n)], evaluated. *)
Definition Product_objects_filter_stock_lt (n : Z) : M (list Product.t) :=
  fun s => (Return (filter (stock_lt n) (product_rows s)), s).

Definition Customer_objects_count : M Z :=
  fun s => (Return (Z.of_nat (List.length (customer_rows s))), s).

Definition Order_objects_count : M Z :=
  fun s => (Return (Z.of_nat (List.length (order_rows s))), s).

Definition sum_Z (l : list Z) : Z := fold_right Z.add 0 l.

(** [Order.objects.aggregate(Sum('total_amount'))['total_amount__sum']]: SQL's
    SUM over no row is NULL. *)
Definition Order_objects_aggregate_Sum_total_amount : M (option Z) :=
  fun s =>
    match order_rows s with
    | [] => (Return None, s)
    | rows => (Return (Some (sum_Z (map Order.total_amount rows))), s)
    end.

(** The products associated with order [oid] through the many-to-many table. *)
Definition attached (s : Store) (oid : Z) : list Product.t :=
  filter
    (fun p => existsb (fun r => (fst r =? oid) && pk_eqb (Product.id p) (snd r))
                      (order_products_rows s))
    (product_rows s).

Definition sum_prices (ps : list Product.t) : Z := sum_Z (map Product.price ps).

(** [Customer.objects.all()], [Product.objects.all()], [Order.objects.all()],
    evaluated. *)
Definition Customer_objects_all : M (list Customer.t) :=
  fun s => (Return (customer_rows s), s).

Definition Product_objects_all : M (list Product.t) :=
  fun s => (Return (product_rows s), s).

Definition Order_objects_all : M (list Order.t) :=
  fun s => (Return (order_rows s), s).

(** [timedelta(days=n)], in the unit of the timestamps: microseconds, the
    resolution of [datetime]. *)
Definition timedelta_days (n : Z) : Z := n * 86400000000.

(** [order_date__gte=t]: a row without a date does not match. *)
Definition order_date_gte (t : Z) (o : Order.t) : bool :=
  match Order.order_date o with
  | Some d => t <=? d
  | None => false
  end.

(** [Order.objects.filter(order_date__gte=t)], evaluated. *)
Definition Order_objects_filter_order_date_gte (t : Z) : M (list Order.t) :=
  fun s => (Return (filter (order_date_gte t) (order_rows s)), s).

(** ** Model methods of crm/models.py *)

Definition unique_email_msg : string := "UNIQUE constraint failed: crm_customer.email".

Definition email_taken (c : Customer.t) (rows : list Customer.t) : bool :=
  existsb
    (fun r => (Customer.email r =? Customer.email c)%string
              && negb (match Customer.id c with
                       | Some i => pk_eqb (Customer.id r) i
                       | None => false
                       end))
    rows.

(** Modelled from the spec: [Customer.save] of crm/models.py, which is not among
    the sources. "email (unique)", "email uniqueness enforced at the store
    level", "created_at (set on creation)": saving raises [IntegrityError] when
    another row holds the email, and otherwise persists the instance. *)
Definition Customer_save (now : Z) (c : Customer.t) : M Customer.t :=
  fun s =>
    if email_taken c (customer_rows s)
    then (Raise (IntegrityError unique_email_msg), s)
    else
      match Customer.id c with
      | None =>
          let c' := Customer.mk (Some (next_pk (map Customer.id (customer_rows s))))
                                (Customer.name c) (Customer.email c)
                                (Customer.phone c) (Some now) in
          (Return c', set_customer_rows s (customer_rows s ++ [c']))
      | Some i =>
          (Return c, set_customer_rows s (upsert Customer.id i c (customer_rows s)))
      end.

(** Modelled from the spec: [Product.save] of crm/models.py, which is not among
    the sources. "persists each": the row of the instance's key is written. *)
Definition Product_save (p : Product.t) : M Product.t :=
  fun s =>
    match Product.id p with
    | None =>
        let p' := Product.mk (Some (next_pk (map Product.id (product_rows s))))
                             (Product.name p) (Product.price p) (Product.stock p) in
        (Return p', set_product_rows s (product_rows s ++ [p']))
    | Some i =>
        (Return p, set_product_rows s (upsert Product.id i p (product_rows s)))
    end.

(** Modelled from the spec: [Order.save] of crm/models.py, which is not among the
    sources. "total_amount (derived, recomputed from the sum of associated
    product prices whenever the product set changes and the record is saved)",
    "order_date (defaults to creation time, overridable at creation)". *)
Definition Order_save (now : Z) (o : Order.t) : M Order.t :=
  fun s =>
    let i := match Order.id o with
             | Some i => i
             | None => next_pk (map Order.id (order_rows s))
             end in
    let d := match Order.order_date o with
             | Some d => d
             | None => now
             end in
    let o' := Order.mk (Some i) (Order.customer o) (sum_prices (attached s i)) (Some d) in
    (Return o', set_order_rows s (upsert Order.id i o' (order_rows s))).

(** Modelled from the spec: [order.products.set(ps)], the related manager that
    crm/models.py declares for [Order.products] ("attaches products"). The
    rows of the order are replaced by one row per given product. *)
Definition Order_products_set (o : Order.t) (ps : list Product.t) : M unit :=
  fun s =>
    match Order.id o with
    | None =>
        (Raise (Exception "Order needs to have a value for field id before this many-to-many relationship can be used."), s)
    | Some i =>
        (Return tt,
         set_order_products_rows s
           (filter (fun r => negb (fst r =? i)) (order_products_rows s)
            ++ flat_map (fun p => match Product.id p with
                                  | Some j => [(i, j)]
                                  | None => []
                                  end) ps))
    end.

(** Modelled from the spec: [Customer.clean] of crm/models.py, which is not
    among the sources. "validates fields", "ValidationError (field-level)":
    the outcome depends on the fields of the instance only. The validator
    itself is a parameter: [validate c] is the message of the
    [ValidationError] raised for [c], or [None] when [c] is well-formed. It
    runs no query, so it is the same inside and outside a transaction. *)
Definition Customer_clean {S} (validate : Customer.t -> option string) (c : Customer.t)
  : St S unit :=
  match validate c with
  | Some msg => raise (ValidationError msg)
  | None => ret tt
  end.

(** Modelled from the spec: [Product.clean] of crm/models.py, which is not
    among the sources. "price and stock must pass field-level validation
    before persistence"; the validator is a parameter, as for customers. *)
Definition Product_clean (validate : Product.t -> option string) (p : Product.t) : M unit :=
  match validate p with
  | Some msg => raise (ValidationError msg)
  | None => ret tt
  end.

(** f"{n}" for a length. *)
Definition string_of_nat (n : nat) : string := NilEmpty.string_of_uint (Nat.to_uint n).

(** ** Mutations of crm/schema.py *)

Module CreateCustomer.
Record t : Type := mk
  { customer : Customer.t;
    message : string }.

Section Mutate.
Variable now : Z.
Variable validate : Customer.t -> option string.

Definition mutate (input : CustomerInput.t) : M t :=
  try_except
    (let customer := Customer.mk None (CustomerInput.name input)
                                 (CustomerInput.email input)
                                 (CustomerInput.phone input) None in
     Customer_clean validate customer ;;;
     customer <- Customer_save now customer ;;
     ret (mk customer "Customer created successfully"))
    (fun e =>
       match e with
       | IntegrityError _ => raise (Exception "Email already exists")
       | ValidationError _ => raise (Exception (str e))
       | _ => raise (Exception ("Error creating customer: " ++ str e)%string)
       end).
End Mutate.
End CreateCustomer.

Module BulkCreateCustomers.
Record t : Type := mk
  { customers : list Customer.t;
    errors : list string }.

Section Mutate.
Variable now : Z.
Variable validate : Customer.t -> option string.

(** The body of the [for] loop: one item, given the two accumulators. The
    loop is inside the transaction scope, and so is [customer.save()]. *)
Definition step (item : CustomerInput.t) (customers : list Customer.t)
           (errors : list string) : T (list Customer.t * list string) :=
  try_except
    (let customer := Customer.mk None (CustomerInput.name item)
                                 (CustomerInput.email item)
                                 (CustomerInput.phone item) None in
     Customer_clean validate customer ;;;
     customer <- in_transaction (Customer_save now customer) ;;
     ret (customers ++ [customer], errors))
    (fun e =>
       match e with
       | IntegrityError _ | ValidationError _ =>
           ret (customers,
                errors ++ [("Failed to create customer " ++ CustomerInput.name item
                            ++ ": " ++ str e)%string])
       | _ =>
           ret (customers,
                errors ++ [("Unexpected error for " ++ CustomerInput.name item
                            ++ ": " ++ str e)%string])
       end).

Fixpoint loop (input : list CustomerInput.t) (customers : list Customer.t)
         (errors : list string) : T (list Customer.t * list string) :=
  match input with
  | [] => ret (customers, errors)
  | item :: rest =>
      acc <- step item customers errors ;;
      loop rest (fst acc) (snd acc)
  end.

Definition mutate (input : list CustomerInput.t) : M t :=
  acc <- transaction_atomic (loop input [] []) ;;
  ret (mk (fst acc) (snd acc)).
End Mutate.
End BulkCreateCustomers.

Module CreateProduct.
Record t : Type := mk { product : Product.t }.

Section Mutate.
Variable validate : Product.t -> option string.

Definition mutate (input : ProductInput.t) : M t :=
  try_except
    (let product := Product.mk None (ProductInput.name input)
                               (ProductInput.price input)
                               (ProductInput.stock input) in
     Product_clean validate product ;;;
     product <- Product_save product ;;
     ret (mk product))
    (fun e =>
       match e with
       | ValidationError _ => raise (Exception (str e))
       | _ => raise (Exception ("Error creating product: " ++ str e)%string)
       end).
End Mutate.
End CreateProduct.

Module CreateOrder.
Record t : Type := mk { order : Order.t }.

Section Mutate.
(** [order.save()] and [order.products.set(...)] as crm/models.py defines
    them. *)
Variable save : Order.t -> M Order.t.
Variable products_set : Order.t -> list Product.t -> M unit.
(** Python's [int] and [repr] on a string. *)
Variable py_int : string -> option Z.
Variable py_repr : string -> string.

(** The resolver on the input object as it arrives, with its [ID] strings.
    Only [Customer.DoesNotExist] is caught around the first lookup, and the
    second lookup is outside any [try]: the [ValueError] of an id that is not
    a number leaves the resolver as it is. [len(input.product_ids)] counts
    the nulls of the list. *)
Definition mutate_ids (input : OrderInputIDs.t) : M t :=
  customer <- try_except
                (Customer_objects_get_id py_int py_repr (OrderInputIDs.customer_id input))
                (fun e =>
                   match e with
                   | DoesNotExist _ => raise (Exception "Invalid customer ID")
                   | _ => raise e
                   end) ;;
  match OrderInputIDs.product_ids input with
  | [] => raise (Exception "At least one product is required")
  | _ :: _ =>
      products <- Product_objects_filter_id_in_values
                    py_int py_repr (OrderInputIDs.product_ids input) ;;
      if negb (List.length products =? List.length (OrderInputIDs.product_ids input))%nat
      then raise (Exception "One or more product IDs are invalid")
      else
        try_except
          (atomic
             (let order := Order.mk None (Customer.id customer) 0 None in
              let order := match OrderInputIDs.order_date input with
                           | Some d => Order.with_order_date order d
                           | None => order
                           end in
              order <- save order ;;
              products_set order products ;;;
              order <- save order ;;
              ret (mk order)))
          (fun e => raise (Exception ("Error creating order: " ++ str e)%string))
  end.

(** The resolver on an input whose ids are keys: [mutate_ids] after the two
    lookups have read every id as an integer. *)
Definition mutate (input : OrderInput.t) : M t :=
  customer <- try_except
                (Customer_objects_get (OrderInput.customer_id input))
                (fun e =>
                   match e with
                   | DoesNotExist _ => raise (Exception "Invalid customer ID")
                   | _ => raise e
                   end) ;;
  match OrderInput.product_ids input with
  | [] => raise (Exception "At least one product is required")
  | _ :: _ =>
      products <- Product_objects_filter_id_in (OrderInput.product_ids input) ;;
      if negb (List.length products =? List.length (OrderInput.product_ids input))%nat
      then raise (Exception "One or more product IDs are invalid")
      else
        try_except
          (atomic
             (let order := Order.mk None (Customer.id customer) 0 None in
              let order := match OrderInput.order_date input with
                           | Some d => Order.with_order_date order d
                           | None => order
                           end in
              order <- save order ;;
              products_set order products ;;;
              order <- save order ;;
              ret (mk order)))
          (fun e => raise (Exception ("Error creating order: " ++ str e)%string))
  end.
End Mutate.
End CreateOrder.

Module UpdateLowStockProducts.
Record t : Type := mk
  { products : list Product.t;
    message : string }.

(** The [for] loop over the evaluated query set. *)
Fixpoint loop (low_stock_products : list Product.t) (updated_products : list Product.t)
  : M (list Product.t) :=
  match low_stock_products with
  | [] => ret updated_products
  | product :: rest =>
      let product := Product.with_stock product (Product.stock product + 10) in
      product <- Product_save product ;;
      loop rest (updated_products ++ [product])
  end.

(** The query set is lazy: it is evaluated when the loop starts. *)
Definition mutate : M t :=
  let low_stock_products := Product_objects_filter_stock_lt 10 in
  updated_products <- atomic (rows <- low_stock_products ;; loop rows []) ;;
  ret (mk updated_products
          ("Updated " ++ string_of_nat (List.length updated_products)
           ++ " low stock products")%string).
End UpdateLowStockProducts.

(** ** The report query *)

Module CRMReportType.
Record t : Type := mk
  { total_customers : Z;
    total_orders : Z;
    total_revenue : Z }.
End CRMReportType.

(** Python's [v or 0]: [None] and a zero amount are both falsy. *)
Definition or_0 (v : option Z) : Z :=
  match v with
  | None => 0
  | Some x => if x =? 0 then 0 else x
  end.

Module Query.
Definition resolve_hello : M string := ret "Hello, GraphQL!".

(** The three listings return every row; the filter set of the connection
    field (crm/filters.py) narrows the result afterwards. *)
Definition resolve_all_customers : M (list Customer.t) := Customer_objects_all.

Definition resolve_all_products : M (list Product.t) := Product_objects_all.

Definition resolve_all_orders : M (list Order.t) := Order_objects_all.

(** [now] is [timezone.now()]. *)
Definition resolve_recent_orders (now : Z) : M (list Order.t) :=
  let one_week_ago := now - timedelta_days 7 in
  Order_objects_filter_order_date_gte one_week_ago.

Definition resolve_crm_report : M CRMReportType.t :=
  total_customers <- Customer_objects_count ;;
  total_orders <- Order_objects_count ;;
  total <- Order_objects_aggregate_Sum_total_amount ;;
  let total_revenue := or_0 total in
  ret (CRMReportType.mk total_customers total_orders total_revenue).
End Query.

(** ** The scheduled jobs: crm/tasks.py and crm/cron_jobs/send_order_reminders.py

    A job is a function of what the GraphQL client answers ([execute]: the
    decoded response, or the exception the client raises), of the clock text
    it reads, and of the content of the file it appends to. Opening and
    writing the file are taken to succeed. *)

(** A decoded JSON value, as Python holds it. A [JFloat] carries the text that
    [str] gives it; a [JDict] binds each key once. *)
#[warnings="-register-all"]
Inductive json : Type :=
| JNull
| JBool (b : bool)
| JInt (n : Z)
| JFloat (text : string)
| JStr (s : string)
| JList (items : list json)
| JDict (fields : list (string * json)).

Definition type_name (v : json) : string :=
  match v with
  | JNull => "NoneType"
  | JBool _ => "bool"
  | JInt _ => "int"
  | JFloat _ => "float"
  | JStr _ => "str"
  | JList _ => "list"
  | JDict _ => "dict"
  end.

Fixpoint lookup (key : string) (fields : list (string * json)) : option json :=
  match fields with
  | [] => None
  | (k, v) :: rest => if (k =? key)%string then Some v else lookup key rest
  end.

Definition newline : string := String (ascii_of_nat 10) EmptyString.

Definition string_of_Z (n : Z) : string := NilEmpty.string_of_int (Z.to_int n).

(** Sequencing of computations that may raise. *)
Definition and_then {A B} (m : outcome A) (k : A -> outcome B) : outcome B :=
  match m with
  | Return a => k a
  | Raise e => Raise e
  end.

(** [v.get(key, default)]: only a dict has the method. *)
Definition py_get (v : json) (key : string) (default : json) : outcome json :=
  match v with
  | JDict fields =>
      Return match lookup key fields with
             | Some x => x
             | None => default
             end
  | _ => Raise (Exception ("'" ++ type_name v ++ "' object has no attribute 'get'")%string)
  end.

Section PythonValues.
(** [str] of a list or of a dict (the [repr] of its elements, recursively). *)
Variable repr_container : json -> string.
(** The text of the [TypeError] for a string indexed by a string, which
    differs between versions of the interpreter. *)
Variable str_index_msg : string.

(** [f"{v}"] *)
Definition py_str (v : json) : string :=
  match v with
  | JNull => "None"
  | JBool true => "True"
  | JBool false => "False"
  | JInt n => string_of_Z n
  | JFloat text => text
  | JStr s => s
  | JList _ | JDict _ => repr_container v
  end.

(** [v[key]] for a string [key] without quotes in it. *)
Definition py_getitem (v : json) (key : string) : outcome json :=
  match v with
  | JDict fields =>
      match lookup key fields with
      | Some x => Return x
      | None => Raise (Exception ("'" ++ key ++ "'")%string)
      end
  | JList _ => Raise (Exception "list indices must be integers or slices, not str")
  | JStr _ => Raise (Exception str_index_msg)
  | _ => Raise (Exception ("'" ++ type_name v ++ "' object is not subscriptable")%string)
  end.

Fixpoint characters (s : string) : list json :=
  match s with
  | EmptyString => []
  | String c rest => JStr (String c EmptyString) :: characters rest
  end.

(** What [for edge in v] iterates over. *)
Definition py_iter (v : json) : outcome (list json) :=
  match v with
  | JList items => Return items
  | JDict fields => Return (map (fun kv => JStr (fst kv)) fields)
  | JStr s => Return (characters s)
  | _ => Raise (Exception ("'" ++ type_name v ++ "' object is not iterable")%string)
  end.

(** *** crm/tasks.py *)

(** The body of the [try] up to the text of the line it writes. *)
Definition report_line (execute : outcome json) (now_text : string) : outcome string :=
  and_then execute (fun response =>
  and_then (py_get response "crmReport" (JDict [])) (fun report =>
  and_then (py_get report "totalCustomers" (JInt 0)) (fun total_customers =>
  and_then (py_get report "totalOrders" (JInt 0)) (fun total_orders =>
  and_then (py_get report "totalRevenue" (JInt 0)) (fun total_revenue =>
  Return (now_text ++ " - "
          ++ "Report: " ++ py_str total_customers ++ " customers, "
          ++ py_str total_orders ++ " orders, "
          ++ py_str total_revenue ++ " revenue" ++ newline)%string))))).

(** The content of /tmp/crm_report_log.txt after the task, from its content
    before. *)
Definition generate_crm_report (execute : outcome json) (now_text : string)
           (log : string) : string :=
  match report_line execute now_text with
  | Return line => (log ++ line)%string
  | Raise e => (log ++ now_text ++ " - Error: " ++ str e ++ newline)%string
  end.

(** *** crm/cron_jobs/send_order_reminders.py *)

(** One iteration of the loop up to the text of the line it writes. *)
Definition reminder_line (timestamp : string) (edge : json) : outcome string :=
  and_then (and_then (py_getitem edge "node") (fun node => py_getitem node "id"))
           (fun order_id =>
  and_then (and_then (and_then (py_getitem edge "node")
                               (fun node => py_getitem node "customer"))
                     (fun customer => py_getitem customer "email"))
           (fun customer_email =>
  Return ("[" ++ timestamp ++ "] Order ID: " ++ py_str order_id
          ++ ", Customer Email: " ++ py_str customer_email ++ newline)%string)).

(** The [for] loop: the file content after it, and whether it was left by an
    exception. *)
Fixpoint write_reminders (timestamp : string) (edges : list json) (log_file : string)
  : outcome unit * string :=
  match edges with
  | [] => (Return tt, log_file)
  | edge :: rest =>
      match reminder_line timestamp edge with
      | Return line => write_reminders timestamp rest (log_file ++ line)%string
      | Raise e => (Raise e, log_file)
      end
  end.

(** The contents of /tmp/order_reminders_log.txt and of the standard output
    after the job, from their contents before. *)
Definition send_order_reminders (execute : outcome json) (timestamp : string)
           (log_file stdout : string) : string * string :=
  match
    match execute with
    | Raise e => (Raise e, log_file)
    | Return result =>
        match and_then (and_then (py_getitem result "orders")
                                 (fun orders => py_getitem orders "edges"))
                       py_iter with
        | Raise e => (Raise e, log_file)
        | Return edges => write_reminders timestamp edges log_file
        end
    end
  with
  | (Return _, log_file') =>
      (log_file', (stdout ++ "Order reminders processed!" ++ newline)%string)
  | (Raise e, log_file') =>
      (log_file', (stdout ++ "Error processing reminders: " ++ str e ++ newline)%string)
  end.
End PythonValues.

(** * Vocabulary of the statements *)

(** The error taxonomy, by the message the resolver raises. *)
Definition InvalidCustomer : exn := Exception "Invalid customer ID".
Definition EmptyProductList : exn := Exception "At least one product is required".
Definition InvalidProduct : exn := Exception "One or more product IDs are invalid".
Definition DuplicateEmail : exn := Exception "Email already exists".

Definition customer_exists (s : Store) (i : Z) : Prop :=
  exists c, In c (customer_rows s) /\ Customer.id c = Some i.

Definition product_exists (s : Store) (i : Z) : Prop :=
  exists p, In p (product_rows s) /\ Product.id p = Some i.

Definition email_used (s : Store) (e : string) : Prop :=
  exists c, In c (customer_rows s) /\ Customer.email c = e.

(** The products that [ids] resolve to. *)
Definition resolved (s : Store) (ids : list Z) : list Product.t :=
  filter (id_in ids) (product_rows s).

Definition resolves (s : Store) (i : Z) : bool :=
  existsb (fun p => pk_eqb (Product.id p) i) (product_rows s).

(** The primary-key constraint of the product table: every row has a key and
    no two rows share one. *)
Definition product_keys_ok (s : Store) : Prop :=
  NoDup (map Product.id (product_rows s))
  /\ forall p, In p (product_rows s) -> Product.id p <> None.

(** The price of the product of key [i] (0 when there is none). *)
Definition price_of (s : Store) (i : Z) : Z :=
  match find (fun p => pk_eqb (Product.id p) i) (product_rows s) with
  | Some p => Product.price p
  | None => 0
  end.

(** The body of the transaction scope, for a customer and a list of
    products that passed the guards. *)
Definition transaction_body (save : Order.t -> M Order.t)
           (products_set : Order.t -> list Product.t -> M unit)
           (customer : Customer.t) (input : OrderInput.t)
           (products : list Product.t) : M CreateOrder.t :=
  let order := Order.mk None (Customer.id customer) 0 None in
  let order := match OrderInput.order_date input with
               | Some d => Order.with_order_date order d
               | None => order
               end in
  order <- save order ;;
  products_set order products ;;;
  order <- save order ;;
  ret (CreateOrder.mk order).

(** The rows [order.products.set(ps)] writes for order [i]. *)
Definition links (i : Z) (ps : list Product.t) : list (Z * Z) :=
  flat_map (fun p => match Product.id p with
                     | Some j => [(i, j)]
                     | None => []
                     end) ps.

Definition date_or (now : Z) (d : option Z) : Z :=
  match d with
  | Some d => d
  | None => now
  end.

(** The order that a successful [create_order] returns and persists. *)
Definition created_order (now : Z) (s : Store) (c : Customer.t) (input : OrderInput.t)
  : Order.t :=
  Order.mk (Some (next_pk (map Order.id (order_rows s))))
           (Customer.id c)
           (sum_prices (resolved s (OrderInput.product_ids input)))
           (Some match OrderInput.order_date input with
                 | Some d => d
                 | None => now
                 end).

(** The store after a successful [create_order]. *)
Definition store_with_order (now : Z) (s : Store) (c : Customer.t) (input : OrderInput.t)
  : Store :=
  mkStore (customer_rows s) (product_rows s)
          (order_rows s ++ [created_order now s c input])
          (filter (fun r => negb (fst r =? next_pk (map Order.id (order_rows s))))
                  (order_products_rows s)
           ++ links (next_pk (map Order.id (order_rows s)))
                    (resolved s (OrderInput.product_ids input))).

(** The keys that the ids of a request name: its non-null ids that are
    integers, in the order of the request. *)
Definition keys_of (py_int : string -> option Z) (ids : list (option string)) : list Z :=
  flat_map (fun v => match v with
                     | Some id => match py_int id with
                                  | Some k => [k]
                                  | None => []
                                  end
                     | None => []
                     end) ids.

(** Every id of the request that is not null is an integer. *)
Definition integer_ids (py_int : string -> option Z) (ids : list (option string)) : Prop :=
  forall id, In (Some id) ids -> py_int id <> None.

(** The input with keys that an input with ids stands for. *)
Definition keys_input (py_int : string -> option Z) (k : Z) (input : OrderInputIDs.t)
  : OrderInput.t :=
  OrderInput.mk k (keys_of py_int (OrderInputIDs.product_ids input))
                (OrderInputIDs.order_date input).

(** The writes of the two transaction scopes that catch nothing, statement by
    statement, as code inside a transaction. *)
Definition transaction_body_in_transaction (save : Order.t -> M Order.t)
           (products_set : Order.t -> list Product.t -> M unit)
           (customer : Customer.t) (input : OrderInput.t)
           (products : list Product.t) : T CreateOrder.t :=
  let order := Order.mk None (Customer.id customer) 0 None in
  let order := match OrderInput.order_date input with
               | Some d => Order.with_order_date order d
               | None => order
               end in
  order <- in_transaction (save order) ;;
  in_transaction (products_set order products) ;;;
  order <- in_transaction (save order) ;;
  ret (CreateOrder.mk order).

Fixpoint low_stock_loop_in_transaction (low_stock_products updated_products : list Product.t)
  : T (list Product.t) :=
  match low_stock_products with
  | [] => ret updated_products
  | product :: rest =>
      let product := Product.with_stock product (Product.stock product + 10) in
      product <- in_transaction (Product_save product) ;;
      low_stock_loop_in_transaction rest (updated_products ++ [product])
  end.

(** [t] does inside a transaction what [m] does outside one, as long as no
    write has failed. *)
Definition same_writes {A} (t : T A) (m : M A) : Prop :=
  forall s, t (mkConnection s false) = in_transaction m (mkConnection s false).

(** What the loop does to one low-stock product. *)
Definition restock (p : Product.t) : Product.t :=
  Product.with_stock p (Product.stock p + 10).

(** What the mutation does to one row of the table. *)
Definition top_up (p : Product.t) : Product.t :=
  if stock_lt 10 p then restock p else p.

(** The instance the resolvers build from an input. *)
Definition new_customer (input : CustomerInput.t) : Customer.t :=
  Customer.mk None (CustomerInput.name input) (CustomerInput.email input)
              (CustomerInput.phone input) None.

(** The row an INSERT of that instance writes. *)
Definition inserted_customer (now : Z) (s : Store) (input : CustomerInput.t) : Customer.t :=
  Customer.mk (Some (next_pk (map Customer.id (customer_rows s))))
              (CustomerInput.name input) (CustomerInput.email input)
              (CustomerInput.phone input) (Some now).

(** [customer.clean(); customer.save()], then the rest of the [try] body. *)
Definition attempt {A} (now : Z) (validate : Customer.t -> option string)
           (input : CustomerInput.t) (k : Customer.t -> M A) : M A :=
  Customer_clean validate (new_customer input) ;;;
  customer <- Customer_save now (new_customer input) ;;
  k customer.

(** The string the two [except] clauses append for an item. *)
Definition failure_message (item : CustomerInput.t) (e : exn) : string :=
  match e with
  | IntegrityError _ | ValidationError _ =>
      ("Failed to create customer " ++ CustomerInput.name item ++ ": " ++ str e)%string
  | _ =>
      ("Unexpected error for " ++ CustomerInput.name item ++ ": " ++ str e)%string
  end.

(** The store with one more customer. *)
Definition store_with_customer (now : Z) (s : Store) (item : CustomerInput.t) : Store :=
  set_customer_rows s (customer_rows s ++ [inserted_customer now s item]).

(** What one item of a batch adds to [customers] and to [errors], and the
    connection after it. *)
Definition item_result (now : Z) (validate : Customer.t -> option string)
           (item : CustomerInput.t) (c : Connection)
  : (list Customer.t * list string) * Connection :=
  match validate (new_customer item) with
  | Some msg => (([], [failure_message item (ValidationError msg)]), c)
  | None =>
      if needs_rollback c
      then (([], [failure_message item (TransactionManagementError broken_transaction_msg)]),
            c)
      else if email_taken (new_customer item) (customer_rows (db c))
      then (([], [failure_message item (IntegrityError unique_email_msg)]),
            mkConnection (db c) true)
      else (([inserted_customer now (db c) item], []),
            mkConnection (store_with_customer now (db c) item) false)
  end.

Fixpoint run_items (now : Z) (validate : Customer.t -> option string)
         (input : list CustomerInput.t) (c : Connection)
  : (list Customer.t * list string) * Connection :=
  match input with
  | [] => (([], []), c)
  | item :: rest =>
      let r := item_result now validate item c in
      let r' := run_items now validate rest (snd r) in
      ((fst (fst r) ++ fst (fst r'), snd (fst r) ++ snd (fst r')), snd r')
  end.

(** The store that the end of the transaction scope leaves. *)
Definition committed (s : Store) (c : Connection) : Store :=
  if needs_rollback c then s else db c.

(** The string that a batch records for an item whose [save()] finds the
    transaction broken. *)
Definition broken_transaction_error (item : CustomerInput.t) : string :=
  failure_message item (TransactionManagementError broken_transaction_msg).

(** One mutation of the schema, run at time [now], takes the store [s] to the
    store [s']. *)
Inductive mutation (cv : Customer.t -> option string) (pv : Product.t -> option string)
  : Store -> Store -> Prop :=
| mutation_create_customer (now : Z) (input : CustomerInput.t) (s : Store) :
    mutation cv pv s (snd (CreateCustomer.mutate now cv input s))
| mutation_bulk_create_customers (now : Z) (input : list CustomerInput.t) (s : Store) :
    mutation cv pv s (snd (BulkCreateCustomers.mutate now cv input s))
| mutation_create_product (input : ProductInput.t) (s : Store) :
    mutation cv pv s (snd (CreateProduct.mutate pv input s))
| mutation_create_order (now : Z) (input : OrderInput.t) (s : Store) :
    mutation cv pv s (snd (CreateOrder.mutate (Order_save now) Order_products_set input s))
| mutation_update_low_stock_products (s : Store) :
    mutation cv pv s (snd (UpdateLowStockProducts.mutate s)).

(** The stores that the mutations build from the empty database. *)
Inductive reachable (cv : Customer.t -> option string) (pv : Product.t -> option string)
  : Store -> Prop :=
| reachable_empty : reachable cv pv empty_store
| reachable_step (s s' : Store) :
    reachable cv pv s -> mutation cv pv s s' -> reachable cv pv s'.



(** The instance [CreateProduct] builds from an input. *)
Definition new_product (input : ProductInput.t) : Product.t :=
  Product.mk None (ProductInput.name input) (ProductInput.price input)
             (ProductInput.stock input).

(** The row an INSERT of that instance writes. *)
Definition inserted_product (s : Store) (input : ProductInput.t) : Product.t :=
  Product.mk (Some (next_pk (map Product.id (product_rows s))))
             (ProductInput.name input) (ProductInput.price input)
             (ProductInput.stock input).

(** The primary-key constraint of a table: every row has a key and no two
    rows share one. *)
Definition keys_ok {R} (id_of : R -> option Z) (rows : list R) : Prop :=
  NoDup (map id_of rows) /\ forall r, In r rows -> id_of r <> None.

Definition order_exists (s : Store) (i : Z) : Prop :=
  exists o, In o (order_rows s) /\ Order.id o = Some i.

(** The constraints of the schema, and the two facts about orders that the
    resolvers establish. *)
Record store_ok (s : Store) : Prop := mk_store_ok
  { customer_keys : keys_ok Customer.id (customer_rows s);
    customer_emails : NoDup (map Customer.email (customer_rows s));
    product_keys : keys_ok Product.id (product_rows s);
    order_keys : keys_ok Order.id (order_rows s);
    order_customers :
      forall o, In o (order_rows s) ->
                exists i, Order.customer o = Some i /\ customer_exists s i;
    attachments :
      forall oi pj, In (oi, pj) (order_products_rows s) ->
                    order_exists s oi /\ product_exists s pj;
    order_totals :
      forall o i, In o (order_rows s) -> Order.id o = Some i ->
                  Order.total_amount o = sum_prices (attached s i);
    order_products :
      forall o i, In o (order_rows s) -> Order.id o = Some i ->
                  attached s i <> [] }.

(** The concatenation of the records written to a file. *)
Definition join (records : list string) : string :=
  fold_right String.append EmptyString records.

(** The value that the report task reads under [key]: the one bound in the
    report, or 0. *)
Definition report_field (report : list (string * json)) (key : string) : json :=
  match lookup key report with
  | Some v => v
  | None => JInt 0
  end.

(** The lines of the reminder job for the edges before the first one that
    raises. *)
Fixpoint written (repr_container : json -> string) (str_index_msg : string)
         (timestamp : string) (edges : list json) : list string :=
  match edges with
  | [] => []
  | edge :: rest =>
      match reminder_line repr_container str_index_msg timestamp edge with
      | Return line => line :: written repr_container str_index_msg timestamp rest
      | Raise _ => []
      end
  end.

(** The answer to the query of the reminder job for a list of orders, each
    given by its id and the email of its customer. *)
Definition reminder_edge (order : json * json) : json :=
  JDict [("node", JDict [("id", fst order);
                         ("customer", JDict [("email", snd order)])])].

Definition reminders_response (orders : list (json * json)) : json :=
  JDict [("orders", JDict [("edges", JList (map reminder_edge orders))])].

(** The line of the reminder job for one order. *)
Definition reminder_record (repr_container : json -> string) (timestamp : string)
           (order : json * json) : string :=
  ("[" ++ timestamp ++ "] Order ID: " ++ py_str repr_container (fst order)
   ++ ", Customer Email: " ++ py_str repr_container (snd order) ++ newline)%string.

(** [result["orders"]["edges"]], as the [for] statement iterates it. *)
Definition edges_of (str_index_msg : string) (result : json) : outcome (list json) :=
  and_then (and_then (py_getitem str_index_msg result "orders")
                     (fun orders => py_getitem str_index_msg orders "edges"))
           py_iter.

(** ** Sample data for the closed instances *)

(** One customer; three products with stocks 3, 15, 9, the first two priced
    $10.00 and $15.00. *)
Definition shop : Store :=
  mkStore
    [Customer.mk (Some 1) "Ada" "ada@example.com" None (Some 0)]
    [Product.mk (Some 1) "Pen" 1000 3;
     Product.mk (Some 2) "Ink" 1500 15;
     Product.mk (Some 3) "Pad" 700 9]
    [] [].

(** An [Order.save] whose second call (the instance then has its key) fails. *)
Definition save_failing_on_update (now : Z) (o : Order.t) : M Order.t :=
  match Order.id o with
  | None => Order_save now o
  | Some _ => raise (IntegrityError "disk full")
  end.

Definition is_digit (a : ascii) : bool :=
  let n := nat_of_ascii a in ((48 <=? n) && (n <=? 57))%nat.

Fixpoint digits_value (acc : Z) (value : string) : option Z :=
  match value with
  | EmptyString => Some acc
  | String a rest =>
      if is_digit a
      then digits_value (10 * acc + Z.of_nat (nat_of_ascii a - 48)) rest
      else None
  end.

(** [int] on the ids of the instances: a non-empty string of decimal digits
    has its value, and a string with a letter in it raises. (Python's [int]
    also reads a sign, spaces around the digits and underscores between
    them; no instance has any.) *)
Definition int_of_digits (value : string) : option Z :=
  match value with
  | EmptyString => None
  | _ => digits_value 0 value
  end.

(** [repr] on the ids of the instances: letters and digits between quotes. *)
Definition quoted (value : string) : string := ("'" ++ value ++ "'")%string.

(** A store built from the empty database: one customer, one product, one
    order of that product. *)
Definition store_after_customer : Store :=
  snd (CreateCustomer.mutate 1 (fun _ => None)
                             (CustomerInput.mk "Ada" "ada@example.com" None) empty_store).

Definition store_after_product : Store :=
  snd (CreateProduct.mutate (fun _ => None) (ProductInput.mk "Pen" 1000 3)
                            store_after_customer).

Definition store_after_order : Store :=
  snd (CreateOrder.mutate (Order_save 2) Order_products_set
                          (OrderInput.mk 1 [1] None) store_after_product).

(** A response of the reminder query whose second edge has no customer. *)
Definition response_with_gap : json :=
  JDict [("orders",
          JDict [("edges",
                  JList [reminder_edge (JStr "7", JStr "ada@example.com");
                         JDict [("node", JDict [("id", JStr "8")])];
                         reminder_edge (JStr "9", JStr "bob@example.com")])])].

(** * Properties *)

(** ** Keys and lookups *)

Lemma pk_eqb_true (a : option Z) (i : Z) : pk_eqb a i = true <-> a = Some i.
Proof.
  destruct a as [j|]; simpl.
  - rewrite Z.eqb_eq. split; [intros ->; reflexivity | intros [= ->]; reflexivity].
  - split; discriminate.
Qed.

Lemma pk_eqb_false (a : option Z) (i : Z) : pk_eqb a i = false <-> a <> Some i.
Proof.
  rewrite <- pk_eqb_true. destruct (pk_eqb a i); split; congruence.
Qed.

Lemma customer_get_some (s : Store) (i : Z) :
  customer_exists s i ->
  exists c, find (fun c => pk_eqb (Customer.id c) i) (customer_rows s) = Some c
            /\ Customer.id c = Some i.
Proof.
  intros [c [Hin Hid]].
  destruct (find (fun c => pk_eqb (Customer.id c) i) (customer_rows s)) as [c'|] eqn:E.
  - exists c'. split; [reflexivity|].
    apply find_some in E. apply pk_eqb_true, E.
  - exfalso. apply (find_none _ _ E) in Hin. apply pk_eqb_false in Hin. contradiction.
Qed.

Lemma customer_get_none (s : Store) (i : Z) :
  ~ customer_exists s i ->
  find (fun c => pk_eqb (Customer.id c) i) (customer_rows s) = None.
Proof.
  intros H.
  destruct (find (fun c => pk_eqb (Customer.id c) i) (customer_rows s)) as [c|] eqn:E;
    [|reflexivity].
  exfalso. apply H. apply find_some in E. exists c. split; [apply E|].
  apply pk_eqb_true, E.
Qed.

Lemma id_in_true (ids : list Z) (p : Product.t) :
  id_in ids p = true <-> exists i, In i ids /\ Product.id p = Some i.
Proof.
  unfold id_in. rewrite existsb_exists.
  split; intros [i [Hi H]]; exists i; (split; [exact Hi|]); apply pk_eqb_true; exact H.
Qed.

(** ** Running the monad *)

Lemma bind_return {A B} (m : M A) (k : A -> M B) (s s' : Store) (a : A) :
  m s = (Return a, s') -> bind m k s = k a s'.
Proof. unfold bind. intros ->. reflexivity. Qed.

Lemma bind_raise {A B} (m : M A) (k : A -> M B) (s s' : Store) (e : exn) :
  m s = (Raise e, s') -> bind m k s = (Raise e, s').
Proof. unfold bind. intros ->. reflexivity. Qed.

Lemma try_except_return {A} (m : M A) (h : exn -> M A) (s s' : Store) (a : A) :
  m s = (Return a, s') -> try_except m h s = (Return a, s').
Proof. unfold try_except. intros ->. reflexivity. Qed.

Lemma try_except_raise {A} (m : M A) (h : exn -> M A) (s s' : Store) (e : exn) :
  m s = (Raise e, s') -> try_except m h s = h e s'.
Proof. unfold try_except. intros ->. reflexivity. Qed.

Lemma atomic_return {A} (m : M A) (s s' : Store) (a : A) :
  m s = (Return a, s') -> atomic m s = (Return a, s').
Proof. unfold atomic. intros ->. reflexivity. Qed.

(** Rollback: an exception that leaves the scope leaves the entry store. *)
Lemma atomic_raise {A} (m : M A) (s s' : Store) (e : exn) :
  m s = (Raise e, s') -> atomic m s = (Raise e, s).
Proof. unfold atomic. intros ->. reflexivity. Qed.

Lemma atomic_cases {A} (m : M A) (s : Store) :
  (exists a s', atomic m s = (Return a, s'))
  \/ (exists e, atomic m s = (Raise e, s)).
Proof.
  unfold atomic. destruct (m s) as [[a|e] s'].
  - left. exists a, s'. reflexivity.
  - right. exists e. reflexivity.
Qed.

(** ** The transaction scopes that catch nothing

    A body made of writes in sequence, with no [try] in it, commits when it
    returns and rolls back when it raises: for such a body the scope is
    [atomic]. *)

Lemma same_writes_write {A} (m : M A) : same_writes (in_transaction m) m.
Proof. intros s. reflexivity. Qed.

Lemma same_writes_ret {A} (a : A) : same_writes (ret a) (ret a).
Proof. intros s. reflexivity. Qed.

Lemma same_writes_bind {A B} (t : T A) (m : M A) (k : A -> T B) (k' : A -> M B) :
  same_writes t m ->
  (forall a, same_writes (k a) (k' a)) ->
  same_writes (bind t k) (bind m k').
Proof.
  intros Ht Hk s. unfold bind at 1. rewrite (Ht s).
  unfold in_transaction, bind. cbn [needs_rollback db].
  destruct (m s) as [[a|e] s']; [|reflexivity].
  rewrite (Hk a s'). reflexivity.
Qed.

Lemma transaction_atomic_writes {A} (t : T A) (m : M A) (s : Store) :
  same_writes t m -> transaction_atomic t s = atomic m s.
Proof.
  intros H. unfold transaction_atomic, atomic. rewrite (H s).
  unfold in_transaction. cbn [needs_rollback db].
  destruct (m s) as [[a|e] s']; reflexivity.
Qed.

(** The scope of [CreateOrder]: [save], [products.set], [save]. *)
Lemma create_order_scope (save : Order.t -> M Order.t)
      (products_set : Order.t -> list Product.t -> M unit)
      (customer : Customer.t) (input : OrderInput.t) (products : list Product.t)
      (s : Store) :
  transaction_atomic
    (transaction_body_in_transaction save products_set customer input products) s
  = atomic (transaction_body save products_set customer input products) s.
Proof.
  apply transaction_atomic_writes.
  unfold transaction_body_in_transaction, transaction_body.
  apply same_writes_bind; [apply same_writes_write|]. intros o.
  apply same_writes_bind; [apply same_writes_write|]. intros _.
  apply same_writes_bind; [apply same_writes_write|]. intros o'.
  apply same_writes_ret.
Qed.

Lemma low_stock_loop_same_writes (low_stock_products updated_products : list Product.t) :
  same_writes (low_stock_loop_in_transaction low_stock_products updated_products)
              (UpdateLowStockProducts.loop low_stock_products updated_products).
Proof.
  revert updated_products.
  induction low_stock_products as [|p rest IH]; intros updated_products.
  - apply same_writes_ret.
  - simpl. apply same_writes_bind; [apply same_writes_write|]. intros q. apply IH.
Qed.

(** The scope of [UpdateLowStockProducts]: the query, then one [save] per
    product. *)
Lemma update_low_stock_scope (s : Store) :
  transaction_atomic
    (rows <- in_transaction (Product_objects_filter_stock_lt 10) ;;
     low_stock_loop_in_transaction rows []) s
  = atomic (rows <- Product_objects_filter_stock_lt 10 ;;
            UpdateLowStockProducts.loop rows []) s.
Proof.
  apply transaction_atomic_writes.
  apply same_writes_bind; [apply same_writes_write|]. intros rows.
  apply low_stock_loop_same_writes.
Qed.

(** ** CreateOrder: the guards *)

Section CreateOrderGuards.
Variable save : Order.t -> M Order.t.
Variable products_set : Order.t -> list Product.t -> M unit.

Let mutate := CreateOrder.mutate save products_set.

Lemma get_customer_found (i : Z) (s : Store) (c : Customer.t) :
  find (fun c => pk_eqb (Customer.id c) i) (customer_rows s) = Some c ->
  try_except (Customer_objects_get i)
             (fun e => match e with
                       | DoesNotExist _ => raise (Exception "Invalid customer ID")
                       | _ => raise e
                       end) s
  = (Return c, s).
Proof.
  intros H. apply try_except_return. unfold Customer_objects_get. rewrite H. reflexivity.
Qed.

Lemma create_order_no_customer (input : OrderInput.t) (s : Store) :
  ~ customer_exists s (OrderInput.customer_id input) ->
  mutate input s = (Raise InvalidCustomer, s).
Proof.
  intros H. unfold mutate, CreateOrder.mutate.
  apply bind_raise. unfold try_except, Customer_objects_get.
  rewrite (customer_get_none _ _ H). reflexivity.
Qed.

Lemma create_order_no_product (input : OrderInput.t) (s : Store) :
  customer_exists s (OrderInput.customer_id input) ->
  OrderInput.product_ids input = [] ->
  mutate input s = (Raise EmptyProductList, s).
Proof.
  intros H E. destruct (customer_get_some _ _ H) as [c [Hc _]].
  unfold mutate, CreateOrder.mutate.
  rewrite (bind_return _ _ _ _ _ (get_customer_found _ _ _ Hc)).
  rewrite E. reflexivity.
Qed.

Lemma create_order_count_mismatch (input : OrderInput.t) (s : Store) :
  customer_exists s (OrderInput.customer_id input) ->
  OrderInput.product_ids input <> [] ->
  List.length (resolved s (OrderInput.product_ids input))
    <> List.length (OrderInput.product_ids input) ->
  mutate input s = (Raise InvalidProduct, s).
Proof.
  intros H Hne Hlen. destruct (customer_get_some _ _ H) as [c [Hc _]].
  unfold mutate, CreateOrder.mutate.
  rewrite (bind_return _ _ _ _ _ (get_customer_found _ _ _ Hc)).
  destruct (OrderInput.product_ids input) as [|i ids] eqn:E; [congruence|].
  apply Nat.eqb_neq in Hlen. unfold resolved in Hlen.
  unfold bind at 1, Product_objects_filter_id_in.
  rewrite Hlen. reflexivity.
Qed.

(** Past the guards the resolver is its transaction, with any exception
    rewrapped. *)
Lemma create_order_past_guards (input : OrderInput.t) (s : Store) (c : Customer.t) :
  find (fun c => pk_eqb (Customer.id c) (OrderInput.customer_id input))
       (customer_rows s) = Some c ->
  OrderInput.product_ids input <> [] ->
  List.length (resolved s (OrderInput.product_ids input))
    = List.length (OrderInput.product_ids input) ->
  mutate input s
  = try_except
      (atomic (transaction_body save products_set c input (resolved s (OrderInput.product_ids input))))
      (fun e => raise (Exception ("Error creating order: " ++ str e)%string)) s.
Proof.
  intros Hc Hne Hlen.
  unfold mutate, CreateOrder.mutate.
  rewrite (bind_return _ _ _ _ _ (get_customer_found _ _ _ Hc)).
  destruct (OrderInput.product_ids input) as [|i ids] eqn:E; [congruence|].
  apply Nat.eqb_eq in Hlen. unfold resolved in *.
  unfold bind at 1, Product_objects_filter_id_in.
  rewrite Hlen. reflexivity.
Qed.

Lemma create_order_count_match (input : OrderInput.t) (s : Store) :
  customer_exists s (OrderInput.customer_id input) ->
  OrderInput.product_ids input <> [] ->
  List.length (resolved s (OrderInput.product_ids input))
    = List.length (OrderInput.product_ids input) ->
  (exists r s', mutate input s = (Return r, s'))
  \/ (exists e, mutate input s
                = (Raise (Exception ("Error creating order: " ++ str e)%string), s)).
Proof.
  intros H Hne Hlen. destruct (customer_get_some _ _ H) as [c [Hc _]].
  rewrite (create_order_past_guards _ _ _ Hc Hne Hlen).
  match goal with
  | |- context [try_except (atomic ?m) ?h s] =>
      destruct (atomic_cases m s) as [[r [s' Hr]]|[e He]]
  end.
  - left. exists r, s'. apply try_except_return. exact Hr.
  - right. exists e. rewrite (try_except_raise _ _ _ _ _ He). reflexivity.
Qed.
End CreateOrderGuards.

(** ** Counting the products that a list of ids resolves to *)

Lemma NoDup_map_filter {A B} (f : A -> B) (t : A -> bool) (l : list A) :
  NoDup (map f l) -> NoDup (map f (filter t l)).
Proof.
  induction l as [|a l IH]; simpl; intros H; [constructor|].
  inversion H as [|x xs Hnotin Hnd]; subst.
  destruct (t a); simpl; [|apply IH; exact Hnd].
  constructor; [|apply IH; exact Hnd].
  intros Hin. apply Hnotin. apply in_map_iff in Hin. destruct Hin as [y [Hy Hin]].
  apply filter_In in Hin. apply in_map_iff. exists y. split; [exact Hy|apply Hin].
Qed.

Lemma filter_length_lt {A} (t : A -> bool) (l : list A) (x : A) :
  In x l -> t x = false -> (List.length (filter t l) < List.length l)%nat.
Proof.
  induction l as [|a l IH]; simpl; intros Hin Hx; [contradiction|].
  destruct Hin as [->|Hin].
  - rewrite Hx. pose proof (filter_length_le t l). lia.
  - specialize (IH Hin Hx). destruct (t a); simpl; lia.
Qed.

Lemma resolves_true (s : Store) (i : Z) : resolves s i = true <-> product_exists s i.
Proof.
  unfold resolves, product_exists. rewrite existsb_exists.
  split; intros [p [Hin H]]; exists p; (split; [exact Hin|]); apply pk_eqb_true; exact H.
Qed.

(** With unique keys, no more products are resolved than ids resolve. *)
Lemma resolved_length_le (s : Store) (ids : list Z) :
  NoDup (map Product.id (product_rows s)) ->
  (List.length (resolved s ids) <= List.length (filter (resolves s) ids))%nat.
Proof.
  intros Hnd. unfold resolved.
  rewrite <- (length_map Product.id), <- (length_map (@Some Z) (filter _ ids)).
  apply NoDup_incl_length; [apply NoDup_map_filter; exact Hnd|].
  intros k Hk. apply in_map_iff in Hk. destruct Hk as [p [Hp Hin]].
  apply filter_In in Hin. destruct Hin as [Hin Hid].
  apply id_in_true in Hid. destruct Hid as [i [Hi Hpi]].
  apply in_map_iff. exists i. split; [congruence|].
  apply filter_In. split; [exact Hi|].
  apply resolves_true. exists p. split; assumption.
Qed.

Lemma resolved_length_unresolved (s : Store) (ids : list Z) (i : Z) :
  NoDup (map Product.id (product_rows s)) ->
  In i ids -> ~ product_exists s i ->
  List.length (resolved s ids) <> List.length ids.
Proof.
  intros Hnd Hi Hno.
  pose proof (resolved_length_le s ids Hnd) as Hle.
  assert (Hlt : (List.length (filter (resolves s) ids) < List.length ids)%nat).
  { apply (filter_length_lt _ _ i Hi).
    destruct (resolves s i) eqn:E; [|reflexivity].
    exfalso. apply Hno, resolves_true, E. }
  lia.
Qed.

Lemma customer_exists_dec (s : Store) (i : Z) :
  customer_exists s i \/ ~ customer_exists s i.
Proof.
  destruct (find (fun c => pk_eqb (Customer.id c) i) (customer_rows s)) as [c|] eqn:E.
  - left. apply find_some in E. exists c. split; [apply E|apply pk_eqb_true, E].
  - right. intros [c [Hin Hid]]. apply (find_none _ _ E) in Hin.
    apply pk_eqb_false in Hin. contradiction.
Qed.

(** A failed [create_order] leaves the store as it found it, whatever the
    model methods do. *)
Lemma create_order_raise_store (save : Order.t -> M Order.t)
      (products_set : Order.t -> list Product.t -> M unit)
      (input : OrderInput.t) (s s' : Store) (e : exn) :
  CreateOrder.mutate save products_set input s = (Raise e, s') -> s' = s.
Proof.
  intros H.
  destruct (customer_exists_dec s (OrderInput.customer_id input)) as [Hc|Hc].
  2:{ rewrite (create_order_no_customer _ _ _ _ Hc) in H. congruence. }
  destruct (OrderInput.product_ids input) as [|i ids] eqn:E.
  { rewrite (create_order_no_product _ _ _ _ Hc E) in H. congruence. }
  assert (Hne : OrderInput.product_ids input <> []) by congruence.
  destruct (Nat.eq_dec (List.length (resolved s (OrderInput.product_ids input)))
                       (List.length (OrderInput.product_ids input))) as [Hl|Hl].
  - destruct (create_order_count_match save products_set _ _ Hc Hne Hl)
      as [[r [s1 Hr]]|[e1 He]]; rewrite H in *; congruence.
  - rewrite (create_order_count_mismatch _ _ _ _ Hc Hne Hl) in H. congruence.
Qed.

(** ** CreateOrder on the ids of the request *)

Lemma resolved_length_le_ids (s : Store) (ids : list Z) :
  NoDup (map Product.id (product_rows s)) ->
  (List.length (resolved s ids) <= List.length ids)%nat.
Proof.
  intros Hnd. pose proof (resolved_length_le s ids Hnd) as Hle.
  pose proof (filter_length_le (resolves s) ids). lia.
Qed.

Section CreateOrderIDs.
Variable py_int : string -> option Z.
Variable py_repr : string -> string.
Variable save : Order.t -> M Order.t.
Variable products_set : Order.t -> list Product.t -> M unit.

Let mutate_ids := CreateOrder.mutate_ids save products_set py_int py_repr.

Lemma keys_of_cons (v : option string) (ids : list (option string)) :
  keys_of py_int (v :: ids)
  = match v with
    | Some id => match py_int id with
                 | Some k => [k]
                 | None => []
                 end
    | None => []
    end ++ keys_of py_int ids.
Proof. reflexivity. Qed.

Lemma integer_ids_tail (v : option string) (ids : list (option string)) :
  integer_ids py_int (v :: ids) -> integer_ids py_int ids.
Proof. intros H id Hin. apply H. right. exact Hin. Qed.

Lemma integer_ids_dec (ids : list (option string)) :
  integer_ids py_int ids \/ exists id, In (Some id) ids /\ py_int id = None.
Proof.
  induction ids as [|v rest [IH|[id [Hin Hid]]]].
  - left. intros id [].
  - destruct v as [id|].
    + destruct (py_int id) as [k|] eqn:E.
      * left. intros id' [[= <-]|Hin]; [congruence|apply IH, Hin].
      * right. exists id. split; [left; reflexivity|exact E].
    + left. intros id' [Heq|Hin]; [discriminate Heq|apply IH, Hin].
  - right. exists id. split; [right; exact Hin|exact Hid].
Qed.

Lemma length_keys_of_le (ids : list (option string)) :
  (List.length (keys_of py_int ids) <= List.length ids)%nat.
Proof.
  induction ids as [|v rest IH]; [apply Nat.le_refl|].
  rewrite keys_of_cons, length_app. cbn [List.length].
  destruct v as [id|]; [destruct (py_int id)|]; simpl; lia.
Qed.

Lemma length_keys_of_null (ids : list (option string)) :
  In None ids -> (List.length (keys_of py_int ids) < List.length ids)%nat.
Proof.
  induction ids as [|v rest IH]; intros Hin; [destruct Hin|].
  rewrite keys_of_cons, length_app. cbn [List.length].
  destruct Hin as [->|Hin].
  - pose proof (length_keys_of_le rest). simpl. lia.
  - specialize (IH Hin). destruct v as [id|]; [destruct (py_int id)|]; simpl; lia.
Qed.

Lemma length_keys_of (ids : list (option string)) :
  integer_ids py_int ids -> ~ In None ids ->
  List.length (keys_of py_int ids) = List.length ids.
Proof.
  induction ids as [|v rest IH]; intros Hint Hnn; [reflexivity|].
  rewrite keys_of_cons, length_app. cbn [List.length].
  rewrite IH; [|exact (integer_ids_tail _ _ Hint)|intros H; apply Hnn; right; exact H].
  destruct v as [id|]; [|exfalso; apply Hnn; left; reflexivity].
  destruct (py_int id) eqn:E; [reflexivity|].
  exfalso. apply (Hint id); [left; reflexivity|exact E].
Qed.

Lemma in_keys_of (ids : list (option string)) (id : string) (k : Z) :
  In (Some id) ids -> py_int id = Some k -> In k (keys_of py_int ids).
Proof.
  intros Hin Hk. unfold keys_of. apply in_flat_map.
  exists (Some id). split; [exact Hin|]. rewrite Hk. left. reflexivity.
Qed.

(** *** The two lookups *)

Lemma prep_integer_ids (ids : list (option string)) :
  integer_ids py_int ids ->
  exists keys,
    id_in_get_prep_lookup py_int py_repr ids = Return keys
    /\ discard_None keys = keys_of py_int ids.
Proof.
  induction ids as [|v rest IH]; intros Hint.
  - exists []. split; reflexivity.
  - destruct (IH (integer_ids_tail _ _ Hint)) as [keys [Hk Hd]].
    destruct v as [id|].
    + destruct (py_int id) as [k|] eqn:E.
      * exists (Some k :: keys). simpl. unfold id_get_prep_value. rewrite E, Hk.
        split; [reflexivity|]. simpl in Hd. rewrite Hd. reflexivity.
      * exfalso. apply (Hint id); [left; reflexivity|exact E].
    + exists (None :: keys). simpl. rewrite Hk. split; [reflexivity|exact Hd].
Qed.

(** The first id that is not a number stops the preparation, before any row
    is read. *)
Lemma prep_not_a_number (ids : list (option string)) :
  (exists id, In (Some id) ids /\ py_int id = None) ->
  exists id,
    In (Some id) ids /\ py_int id = None
    /\ id_in_get_prep_lookup py_int py_repr ids = Raise (not_a_number py_repr id).
Proof.
  induction ids as [|v rest IH]; intros [id [Hin Hid]]; [destruct Hin|].
  destruct v as [value|].
  - simpl. unfold id_get_prep_value. destruct (py_int value) as [k|] eqn:E.
    + destruct Hin as [Heq|Hin]; [injection Heq as ->; congruence|].
      destruct (IH (ex_intro _ id (conj Hin Hid))) as [id' [Hin' [Hid' Hp]]].
      exists id'. rewrite Hp. split; [right; exact Hin'|]. split; [exact Hid'|reflexivity].
    + exists value. split; [left; reflexivity|]. split; [exact E|reflexivity].
  - destruct Hin as [Heq|Hin]; [discriminate Heq|].
    destruct (IH (ex_intro _ id (conj Hin Hid))) as [id' [Hin' [Hid' Hp]]].
    exists id'. simpl. rewrite Hp. split; [right; exact Hin'|]. split; [exact Hid'|reflexivity].
Qed.

Lemma filter_values_integer (ids : list (option string)) (s : Store) :
  integer_ids py_int ids ->
  Product_objects_filter_id_in_values py_int py_repr ids s
  = (Return (resolved s (keys_of py_int ids)), s).
Proof.
  intros Hint. destruct (prep_integer_ids ids Hint) as [keys [Hk Hd]].
  unfold Product_objects_filter_id_in_values, Product_objects_filter_id_in, resolved.
  rewrite Hk, Hd. reflexivity.
Qed.

Lemma get_customer_id_found (value : string) (k : Z) (s : Store) (c : Customer.t) :
  py_int value = Some k ->
  find (fun c => pk_eqb (Customer.id c) k) (customer_rows s) = Some c ->
  try_except (Customer_objects_get_id py_int py_repr value)
             (fun e => match e with
                       | DoesNotExist _ => raise (Exception "Invalid customer ID")
                       | _ => raise e
                       end) s
  = (Return c, s).
Proof.
  intros Hk H. apply try_except_return.
  unfold Customer_objects_get_id, id_get_prep_value, Customer_objects_get.
  rewrite Hk, H. reflexivity.
Qed.

(** *** The guards *)

Lemma create_order_ids_customer_not_a_number (input : OrderInputIDs.t) (s : Store) :
  py_int (OrderInputIDs.customer_id input) = None ->
  mutate_ids input s
  = (Raise (not_a_number py_repr (OrderInputIDs.customer_id input)), s).
Proof.
  intros H. unfold mutate_ids, CreateOrder.mutate_ids.
  apply bind_raise. unfold try_except, Customer_objects_get_id, id_get_prep_value.
  rewrite H. reflexivity.
Qed.

Lemma create_order_ids_no_customer (input : OrderInputIDs.t) (s : Store) (k : Z) :
  py_int (OrderInputIDs.customer_id input) = Some k ->
  ~ customer_exists s k ->
  mutate_ids input s = (Raise InvalidCustomer, s).
Proof.
  intros Hk H. unfold mutate_ids, CreateOrder.mutate_ids.
  apply bind_raise.
  unfold try_except, Customer_objects_get_id, id_get_prep_value, Customer_objects_get.
  rewrite Hk, (customer_get_none _ _ H). reflexivity.
Qed.

Lemma create_order_ids_no_product (input : OrderInputIDs.t) (s : Store) (k : Z) :
  py_int (OrderInputIDs.customer_id input) = Some k ->
  customer_exists s k ->
  OrderInputIDs.product_ids input = [] ->
  mutate_ids input s = (Raise EmptyProductList, s).
Proof.
  intros Hk H E. destruct (customer_get_some _ _ H) as [c [Hc _]].
  unfold mutate_ids, CreateOrder.mutate_ids.
  rewrite (bind_return _ _ _ _ _ (get_customer_id_found _ _ _ _ Hk Hc)).
  rewrite E. reflexivity.
Qed.

Lemma create_order_ids_product_not_a_number (input : OrderInputIDs.t) (s : Store) (k : Z) :
  py_int (OrderInputIDs.customer_id input) = Some k ->
  customer_exists s k ->
  (exists id, In (Some id) (OrderInputIDs.product_ids input) /\ py_int id = None) ->
  exists id,
    In (Some id) (OrderInputIDs.product_ids input) /\ py_int id = None
    /\ mutate_ids input s = (Raise (not_a_number py_repr id), s).
Proof.
  intros Hk H Hbad. destruct (customer_get_some _ _ H) as [c [Hc _]].
  destruct (prep_not_a_number _ Hbad) as [id [Hin [Hid Hp]]].
  exists id. split; [exact Hin|]. split; [exact Hid|].
  unfold mutate_ids, CreateOrder.mutate_ids.
  rewrite (bind_return _ _ _ _ _ (get_customer_id_found _ _ _ _ Hk Hc)).
  destruct (OrderInputIDs.product_ids input) as [|v ids] eqn:E; [destruct Hin|].
  apply bind_raise. unfold Product_objects_filter_id_in_values. rewrite Hp. reflexivity.
Qed.

Lemma create_order_ids_count_mismatch (input : OrderInputIDs.t) (s : Store) (k : Z) :
  py_int (OrderInputIDs.customer_id input) = Some k ->
  customer_exists s k ->
  OrderInputIDs.product_ids input <> [] ->
  integer_ids py_int (OrderInputIDs.product_ids input) ->
  List.length (resolved s (keys_of py_int (OrderInputIDs.product_ids input)))
    <> List.length (OrderInputIDs.product_ids input) ->
  mutate_ids input s = (Raise InvalidProduct, s).
Proof.
  intros Hk H Hne Hint Hlen. destruct (customer_get_some _ _ H) as [c [Hc _]].
  unfold mutate_ids, CreateOrder.mutate_ids.
  rewrite (bind_return _ _ _ _ _ (get_customer_id_found _ _ _ _ Hk Hc)).
  destruct (OrderInputIDs.product_ids input) as [|v ids] eqn:E; [congruence|].
  rewrite (bind_return _ _ _ _ _ (filter_values_integer _ s Hint)).
  apply Nat.eqb_neq in Hlen. rewrite Hlen. reflexivity.
Qed.

(** Past the guards the resolver is the transaction of the input with keys. *)
Lemma create_order_ids_past_guards (input : OrderInputIDs.t) (s : Store) (k : Z)
      (c : Customer.t) :
  py_int (OrderInputIDs.customer_id input) = Some k ->
  find (fun c => pk_eqb (Customer.id c) k) (customer_rows s) = Some c ->
  OrderInputIDs.product_ids input <> [] ->
  integer_ids py_int (OrderInputIDs.product_ids input) ->
  List.length (resolved s (keys_of py_int (OrderInputIDs.product_ids input)))
    = List.length (OrderInputIDs.product_ids input) ->
  mutate_ids input s
  = try_except
      (atomic (transaction_body save products_set c (keys_input py_int k input)
                 (resolved s (keys_of py_int (OrderInputIDs.product_ids input)))))
      (fun e => raise (Exception ("Error creating order: " ++ str e)%string)) s.
Proof.
  intros Hk Hc Hne Hint Hlen.
  unfold mutate_ids, CreateOrder.mutate_ids.
  rewrite (bind_return _ _ _ _ _ (get_customer_id_found _ _ _ _ Hk Hc)).
  destruct (OrderInputIDs.product_ids input) as [|v ids] eqn:E; [congruence|].
  rewrite (bind_return _ _ _ _ _ (filter_values_integer _ s Hint)).
  apply Nat.eqb_eq in Hlen. rewrite Hlen. reflexivity.
Qed.

(** On ids that are all integers the resolver is the resolver on their
    keys. *)
Lemma create_order_ids_keys (input : OrderInputIDs.t) (s : Store) (k : Z) :
  py_int (OrderInputIDs.customer_id input) = Some k ->
  integer_ids py_int (OrderInputIDs.product_ids input) ->
  ~ In None (OrderInputIDs.product_ids input) ->
  mutate_ids input s
  = CreateOrder.mutate save products_set (keys_input py_int k input) s.
Proof.
  intros Hk Hint Hnn.
  pose proof (length_keys_of _ Hint Hnn) as Hlen.
  destruct (customer_exists_dec s k) as [Hc|Hc].
  2:{ rewrite (create_order_ids_no_customer _ _ _ Hk Hc).
      symmetry. apply create_order_no_customer. exact Hc. }
  destruct (OrderInputIDs.product_ids input) as [|v ids] eqn:E.
  { rewrite (create_order_ids_no_product _ _ _ Hk Hc E).
    symmetry. apply create_order_no_product; [exact Hc|].
    unfold keys_input. rewrite E. reflexivity. }
  rewrite <- E in *.
  assert (Hne : OrderInputIDs.product_ids input <> []) by (rewrite E; discriminate).
  assert (Hne' : OrderInput.product_ids (keys_input py_int k input) <> []).
  { unfold keys_input. cbn [OrderInput.product_ids]. intros H0. rewrite H0, E in Hlen.
    discriminate Hlen. }
  destruct (Nat.eq_dec
              (List.length (resolved s (keys_of py_int (OrderInputIDs.product_ids input))))
              (List.length (OrderInputIDs.product_ids input))) as [Hl|Hl].
  - destruct (customer_get_some _ _ Hc) as [c [Hfind _]].
    rewrite (create_order_ids_past_guards _ _ _ _ Hk Hfind Hne Hint Hl).
    symmetry. apply create_order_past_guards; [exact Hfind|exact Hne'|].
    unfold keys_input. cbn [OrderInput.product_ids]. rewrite Hlen. exact Hl.
  - rewrite (create_order_ids_count_mismatch _ _ _ Hk Hc Hne Hint Hl).
    symmetry. apply create_order_count_mismatch; [exact Hc|exact Hne'|].
    unfold keys_input. cbn [OrderInput.product_ids]. rewrite Hlen. exact Hl.
Qed.

(** A failed [create_order] leaves the store, also when an id is not a
    number. *)
Lemma create_order_ids_raise_store (input : OrderInputIDs.t) (s s' : Store) (e : exn) :
  mutate_ids input s = (Raise e, s') -> s' = s.
Proof.
  intros H.
  destruct (py_int (OrderInputIDs.customer_id input)) as [k|] eqn:Hk.
  2:{ rewrite (create_order_ids_customer_not_a_number _ _ Hk) in H. congruence. }
  destruct (customer_exists_dec s k) as [Hc|Hc].
  2:{ rewrite (create_order_ids_no_customer _ _ _ Hk Hc) in H. congruence. }
  destruct (OrderInputIDs.product_ids input) as [|v ids] eqn:E.
  { rewrite (create_order_ids_no_product _ _ _ Hk Hc E) in H. congruence. }
  assert (Hne : OrderInputIDs.product_ids input <> []) by (rewrite E; discriminate).
  clear E.
  destruct (integer_ids_dec (OrderInputIDs.product_ids input)) as [Hint|Hbad].
  2:{ destruct (create_order_ids_product_not_a_number _ s _ Hk Hc Hbad)
        as [id [_ [_ Hr]]]. rewrite Hr in H. congruence. }
  destruct (Nat.eq_dec
              (List.length (resolved s (keys_of py_int (OrderInputIDs.product_ids input))))
              (List.length (OrderInputIDs.product_ids input))) as [Hl|Hl].
  - destruct (customer_get_some _ _ Hc) as [c [Hfind _]].
    rewrite (create_order_ids_past_guards _ _ _ _ Hk Hfind Hne Hint Hl) in H.
    match type of H with
    | try_except (atomic ?m) ?h s = _ =>
        destruct (atomic_cases m s) as [[r [s1 Hr]]|[e1 He]]
    end.
    + rewrite (try_except_return _ _ _ _ _ Hr) in H. discriminate H.
    + rewrite (try_except_raise _ _ _ _ _ He) in H. unfold raise in H. congruence.
  - rewrite (create_order_ids_count_mismatch _ _ _ Hk Hc Hne Hint Hl) in H. congruence.
Qed.

(** With unique product keys, a null in the list or an id that names no
    product leaves fewer products than ids. *)
Lemma resolved_fewer_than_ids (ids : list (option string)) (s : Store) :
  product_keys_ok s ->
  In None ids
  \/ (exists id k, In (Some id) ids /\ py_int id = Some k /\ ~ product_exists s k) ->
  List.length (resolved s (keys_of py_int ids)) <> List.length ids.
Proof.
  intros [Hnd _] [Hnull|[id [k [Hin [Hk Hno]]]]].
  - pose proof (resolved_length_le_ids s (keys_of py_int ids) Hnd).
    pose proof (length_keys_of_null ids Hnull). lia.
  - pose proof (resolved_length_le s (keys_of py_int ids) Hnd) as Hle.
    assert (Hlt : (List.length (filter (resolves s) (keys_of py_int ids))
                   < List.length (keys_of py_int ids))%nat).
    { apply (filter_length_lt _ _ k (in_keys_of ids id k Hin Hk)).
      destruct (resolves s k) eqn:E; [|reflexivity].
      exfalso. apply Hno, resolves_true, E. }
    pose proof (length_keys_of_le ids). lia.
Qed.

(** In a store with unique product keys, a call on ids either leaves the
    store or is the call on the keys of the ids: the mutations on keys build
    every store that the mutations on ids build. *)
Lemma create_order_ids_store (input : OrderInputIDs.t) (s : Store) :
  product_keys_ok s ->
  snd (mutate_ids input s) = s
  \/ exists k,
       py_int (OrderInputIDs.customer_id input) = Some k
       /\ mutate_ids input s
          = CreateOrder.mutate save products_set (keys_input py_int k input) s.
Proof.
  intros Hok.
  destruct (py_int (OrderInputIDs.customer_id input)) as [k|] eqn:Hk.
  2:{ left. rewrite (create_order_ids_customer_not_a_number _ _ Hk). reflexivity. }
  destruct (customer_exists_dec s k) as [Hc|Hc].
  2:{ left. rewrite (create_order_ids_no_customer _ _ _ Hk Hc). reflexivity. }
  destruct (integer_ids_dec (OrderInputIDs.product_ids input)) as [Hint|Hbad].
  2:{ left. destruct (create_order_ids_product_not_a_number _ s _ Hk Hc Hbad)
        as [id [_ [_ Hr]]]. rewrite Hr. reflexivity. }
  destruct (Nat.eq_dec
              (List.length (resolved s (keys_of py_int (OrderInputIDs.product_ids input))))
              (List.length (OrderInputIDs.product_ids input))) as [Hl|Hl].
  - right. exists k. split; [reflexivity|].
    apply (create_order_ids_keys _ _ _ Hk Hint).
    intros Hnull. apply (resolved_fewer_than_ids _ s Hok (or_introl Hnull)). exact Hl.
  - left. destruct (OrderInputIDs.product_ids input) as [|v ids] eqn:E.
    + rewrite (create_order_ids_no_product _ _ _ Hk Hc E). reflexivity.
    + rewrite <- E in Hl, Hint.
      rewrite (create_order_ids_count_mismatch _ _ _ Hk Hc); [reflexivity| |exact Hint|exact Hl].
      rewrite E. discriminate.
Qed.

End CreateOrderIDs.

(** ** Facts about the sample store *)

Lemma shop_customer_1 : customer_exists shop 1.
Proof. eexists. split; [left; reflexivity|reflexivity]. Defined.

Lemma shop_product_keys_ok : product_keys_ok shop.
Proof.
  split.
  - simpl. repeat constructor; simpl; intuition discriminate.
  - simpl. intros p [<-|[<-|[<-|[]]]]; discriminate.
Defined.


(** ** CreateOrder: claims *)




(** C6 as stated fails: with an unknown customer the empty list is never
    looked at, and the error is InvalidCustomer. *)
Lemma create_order_empty_list_unknown_customer :
  OrderInput.product_ids (OrderInput.mk 7 [] None) = []
  /\ CreateOrder.mutate (Order_save 0) Order_products_set
                        (OrderInput.mk 7 [] None) shop
     = (Raise InvalidCustomer, shop)
  /\ fst (CreateOrder.mutate (Order_save 0) Order_products_set
                             (OrderInput.mk 7 [] None) shop)
     <> Raise EmptyProductList.
Proof.
  split; [reflexivity|]. split; [reflexivity|]. discriminate.
Qed.

(** C6 (amended). For every call of create_order whose customer_id resolves to
    an existing customer and whose product_ids is the empty list, the
    operation fails with EmptyProductList; the store is untouched. *)
Theorem create_order_empty_product_list
        (save : Order.t -> M Order.t)
        (products_set : Order.t -> list Product.t -> M unit)
        (input : OrderInput.t) (s : Store) :
  customer_exists s (OrderInput.customer_id input) ->
  OrderInput.product_ids input = [] ->
  CreateOrder.mutate save products_set input s = (Raise EmptyProductList, s).
Proof.
  apply create_order_no_product.
Qed.

Lemma create_order_empty_product_list_witness :
  customer_exists shop 1
  /\ CreateOrder.mutate (Order_save 0) Order_products_set
                        (OrderInput.mk 1 [] None) shop
     = (Raise EmptyProductList, shop).
Proof.
  split; [exact shop_customer_1|].
  apply create_order_empty_product_list; [exact shop_customer_1|reflexivity].
Defined.




(** C9. Whenever create_order fails (for any input, any store state and any
    behaviour of the model methods), the store is left unchanged: no order
    row is persisted and no product attachment is visible. Past the guards,
    the two-phase save (persist, attach, re-save) is one transaction scope. *)
Theorem create_order_failure_leaves_store
        (save : Order.t -> M Order.t)
        (products_set : Order.t -> list Product.t -> M unit)
        (input : OrderInput.t) (s : Store) :
  (forall e s',
      CreateOrder.mutate save products_set input s = (Raise e, s') ->
      s' = s
      /\ order_rows s' = order_rows s
      /\ order_products_rows s' = order_products_rows s)
  /\ (forall c,
         find (fun c => pk_eqb (Customer.id c) (OrderInput.customer_id input))
              (customer_rows s) = Some c ->
         OrderInput.product_ids input <> [] ->
         List.length (resolved s (OrderInput.product_ids input))
           = List.length (OrderInput.product_ids input) ->
         CreateOrder.mutate save products_set input s
         = try_except
             (atomic (transaction_body save products_set c input
                        (resolved s (OrderInput.product_ids input))))
             (fun e => raise (Exception ("Error creating order: " ++ str e)%string)) s).
Proof.
  split.
  - intros e s' H. apply create_order_raise_store in H. subst s'. auto.
  - intros c. apply create_order_past_guards.
Qed.

(** In [shop], the first save of the transaction writes an order row; the
    failure of the second save discards it. *)
Lemma create_order_failure_leaves_store_witness :
  (exists o s1,
      bind (save_failing_on_update 0 (Order.mk None (Some 1) 0 None))
           (fun o => bind (Order_products_set o (resolved shop [1; 2])) (fun _ => ret o))
           shop
      = (Return o, s1)
      /\ order_rows s1 = [o] /\ order_products_rows s1 = [(1, 1); (1, 2)])
  /\ CreateOrder.mutate (save_failing_on_update 0) Order_products_set
                        (OrderInput.mk 1 [1; 2] None) shop
     = (Raise (Exception "Error creating order: disk full"), shop)
  /\ order_rows
       (snd (CreateOrder.mutate (save_failing_on_update 0) Order_products_set
                                (OrderInput.mk 1 [1; 2] None) shop))
     = [].
Proof.
  split; [eexists; eexists; split; [reflexivity|split; reflexivity]|].
  split; [reflexivity|].
  apply (proj1 (create_order_failure_leaves_store
                  (save_failing_on_update 0) Order_products_set
                  (OrderInput.mk 1 [1; 2] None) shop)
               (Exception "Error creating order: disk full")).
  reflexivity.
Defined.

(** ** The report *)

Lemma or_0_Some (x : Z) : or_0 (Some x) = x.
Proof.
  unfold or_0. destruct (x =? 0) eqn:E; [|reflexivity].
  apply Z.eqb_eq in E. symmetry. exact E.
Qed.

Lemma aggregate_or_0 (s : Store) :
  or_0 (match order_rows s with
        | [] => None
        | rows => Some (sum_Z (map Order.total_amount rows))
        end)
  = sum_Z (map Order.total_amount (order_rows s)).
Proof.
  destruct (order_rows s) as [|o rows]; [reflexivity|apply or_0_Some].
Qed.

(** C7. crm_report() returns total_customers = count of customers,
    total_orders = count of orders and total_revenue = sum of the orders'
    total_amount; with zero orders the aggregate is NULL and the revenue
    reported is 0; on an empty database the report is {0, 0, 0}. The query
    leaves the store as it is. *)
Theorem crm_report_totals :
  (forall s,
      Query.resolve_crm_report s
      = (Return (CRMReportType.mk
                   (Z.of_nat (List.length (customer_rows s)))
                   (Z.of_nat (List.length (order_rows s)))
                   (sum_Z (map Order.total_amount (order_rows s)))),
         s))
  /\ (forall cs ps ops,
         fst (Order_objects_aggregate_Sum_total_amount (mkStore cs ps [] ops)) = Return None
         /\ Query.resolve_crm_report (mkStore cs ps [] ops)
            = (Return (CRMReportType.mk (Z.of_nat (List.length cs)) 0 0),
               mkStore cs ps [] ops))
  /\ Query.resolve_crm_report empty_store
     = (Return (CRMReportType.mk 0 0 0), empty_store).
Proof.
  assert (H : forall s,
             Query.resolve_crm_report s
             = (Return (CRMReportType.mk
                          (Z.of_nat (List.length (customer_rows s)))
                          (Z.of_nat (List.length (order_rows s)))
                          (sum_Z (map Order.total_amount (order_rows s)))),
                s)).
  { intros s.
    unfold Query.resolve_crm_report, bind, Customer_objects_count, Order_objects_count,
      Order_objects_aggregate_Sum_total_amount, ret.
    rewrite <- (aggregate_or_0 s).
    destruct (order_rows s); reflexivity. }
  split; [exact H|]. split; [|reflexivity].
  intros cs ps ops. split; [reflexivity|]. rewrite H. reflexivity.
Qed.

(** ** UpdateLowStockProducts *)

Lemma top_up_id (p : Product.t) : Product.id (top_up p) = Product.id p.
Proof. unfold top_up. destruct (stock_lt 10 p); reflexivity. Qed.

Lemma map_top_up_ids (l : list Product.t) :
  map Product.id (map top_up l) = map Product.id l.
Proof.
  rewrite map_map. apply map_ext. exact top_up_id.
Qed.

Lemma map_replace_absent {R} (id_of : R -> option Z) (i : Z) (r : R) (l : list R) :
  ~ In (Some i) (map id_of l) ->
  map (fun x => if pk_eqb (id_of x) i then r else x) l = l.
Proof.
  induction l as [|a l IH]; simpl; intros H; [reflexivity|].
  destruct (pk_eqb (id_of a) i) eqn:E.
  - apply pk_eqb_true in E. exfalso. apply H. left. exact E.
  - f_equal. apply IH. intros Hin. apply H. right. exact Hin.
Qed.

(** Saving over a table with unique keys rewrites the one row of the key. *)
Lemma upsert_replace {R} (id_of : R -> option Z) (i : Z) (r x : R) (a b : list R) :
  NoDup (map id_of (a ++ x :: b)) ->
  id_of x = Some i ->
  upsert id_of i r (a ++ x :: b) = a ++ r :: b.
Proof.
  intros Hnd Hx. unfold upsert.
  assert (Hex : existsb (fun y => pk_eqb (id_of y) i) (a ++ x :: b) = true).
  { apply existsb_exists. exists x. split; [apply in_elt|apply pk_eqb_true; exact Hx]. }
  rewrite Hex. rewrite map_app. simpl.
  rewrite map_app in Hnd. simpl in Hnd. rewrite Hx in Hnd.
  apply NoDup_remove_2 in Hnd.
  rewrite (proj2 (pk_eqb_true (id_of x) i) Hx).
  rewrite !map_replace_absent; [reflexivity| |];
    intros Hin; apply Hnd, in_or_app; [right|left]; exact Hin.
Qed.

Lemma set_product_rows_same (s : Store) : set_product_rows s (product_rows s) = s.
Proof. destruct s; reflexivity. Qed.

Lemma low_stock_loop (l pre acc : list Product.t) (s : Store) :
  product_rows s = map top_up pre ++ l ->
  NoDup (map Product.id (pre ++ l)) ->
  (forall p, In p l -> Product.id p <> None) ->
  UpdateLowStockProducts.loop (filter (stock_lt 10) l) acc s
  = (Return (acc ++ map restock (filter (stock_lt 10) l)),
     set_product_rows s (map top_up (pre ++ l))).
Proof.
  revert pre acc s.
  induction l as [|p l IH]; intros pre acc s Hrows Hnd Hkeys.
  - simpl. rewrite !app_nil_r in *. rewrite <- Hrows, set_product_rows_same. reflexivity.
  - assert (Hstep : pre ++ p :: l = (pre ++ [p]) ++ l)
      by (rewrite <- app_assoc; reflexivity).
    simpl filter. destruct (stock_lt 10 p) eqn:Hlow.
    + destruct (Product.id p) as [i|] eqn:Hid;
        [|exfalso; apply (Hkeys p); [left; reflexivity|exact Hid]].
      simpl UpdateLowStockProducts.loop.
      assert (Hsave : Product_save (Product.with_stock p (Product.stock p + 10)) s
                      = (Return (restock p),
                         set_product_rows s (map top_up (pre ++ [p]) ++ l))).
      { unfold Product_save. simpl Product.id. rewrite Hid, Hrows. unfold restock.
        rewrite (upsert_replace Product.id i _ p).
        - rewrite map_app. simpl.
          replace (top_up p) with (restock p) by (unfold top_up; rewrite Hlow; reflexivity).
          rewrite <- app_assoc. reflexivity.
        - rewrite map_app, map_top_up_ids, <- map_app. exact Hnd.
        - exact Hid. }
      rewrite (bind_return _ _ _ _ _ Hsave).
      rewrite (IH (pre ++ [p]) (acc ++ [restock p])
                  (set_product_rows s (map top_up (pre ++ [p]) ++ l))).
      * simpl. rewrite <- app_assoc, <- Hstep. reflexivity.
      * reflexivity.
      * rewrite <- Hstep. exact Hnd.
      * intros q Hq. apply Hkeys. right. exact Hq.
    + rewrite (IH (pre ++ [p]) acc s).
      * rewrite <- Hstep. reflexivity.
      * rewrite Hrows, map_app. simpl.
        replace (top_up p) with p by (unfold top_up; rewrite Hlow; reflexivity).
        rewrite <- app_assoc. reflexivity.
      * rewrite <- Hstep. exact Hnd.
      * intros q Hq. apply Hkeys. right. exact Hq.
Qed.

(** The mutation as a function of the product table. *)
Lemma update_low_stock_run (s : Store) :
  product_keys_ok s ->
  UpdateLowStockProducts.mutate s
  = (Return (UpdateLowStockProducts.mk
               (map restock (filter (stock_lt 10) (product_rows s)))
               ("Updated "
                ++ string_of_nat
                     (List.length (map restock (filter (stock_lt 10) (product_rows s))))
                ++ " low stock products")%string),
     set_product_rows s (map top_up (product_rows s))).
Proof.
  intros [Hnd Hkeys]. unfold UpdateLowStockProducts.mutate.
  erewrite bind_return; [reflexivity|].
  apply atomic_return.
  erewrite bind_return; [|reflexivity].
  rewrite (low_stock_loop (product_rows s) [] [] s); auto.
Qed.

Lemma filter_none {A} (t : A -> bool) (l : list A) :
  (forall x, In x l -> t x = false) -> filter t l = [].
Proof.
  induction l as [|a l IH]; simpl; intros H; [reflexivity|].
  rewrite (H a (or_introl eq_refl)). apply IH. intros x Hx. apply H. right. exact Hx.
Qed.

Lemma top_up_low (p : Product.t) :
  Product.stock p < 10 ->
  top_up p = Product.mk (Product.id p) (Product.name p) (Product.price p)
                        (Product.stock p + 10).
Proof.
  intros H. unfold top_up, stock_lt. apply Z.ltb_lt in H. rewrite H. reflexivity.
Qed.

Lemma top_up_enough (p : Product.t) : 10 <= Product.stock p -> top_up p = p.
Proof.
  intros H. unfold top_up, stock_lt.
  destruct (Product.stock p <? 10) eqn:E; [|reflexivity].
  apply Z.ltb_lt in E. lia.
Qed.

Lemma top_up_not_low (p : Product.t) :
  0 <= Product.stock p -> stock_lt 10 (top_up p) = false.
Proof.
  intros H. unfold top_up, stock_lt.
  destruct (Product.stock p <? 10) eqn:E; simpl.
  - apply Z.ltb_ge. lia.
  - exact E.
Qed.

(** With no low-stock product the mutation writes nothing. *)
Lemma update_low_stock_nothing (s : Store) :
  filter (stock_lt 10) (product_rows s) = [] ->
  UpdateLowStockProducts.mutate s
  = (Return (UpdateLowStockProducts.mk [] "Updated 0 low stock products"), s).
Proof.
  intros H.
  unfold UpdateLowStockProducts.mutate, bind, atomic, Product_objects_filter_stock_lt.
  rewrite H. reflexivity.
Qed.

(** C2. update_low_stock_products() updates exactly the products whose stock is
    strictly below 10, adding exactly 10 to the stock of each, leaves every
    product with stock >= 10 (and every other table) unchanged, and returns
    the updated products with a message whose count is their number; on
    stocks [3, 15, 9] it yields 13 and 19, leaves 15 and reports count 2. *)
Theorem update_low_stock_products_effect :
  (forall s,
      product_keys_ok s ->
      exists r,
        UpdateLowStockProducts.mutate s
        = (Return r, set_product_rows s (map top_up (product_rows s)))
        /\ UpdateLowStockProducts.products r
           = map restock (filter (stock_lt 10) (product_rows s))
        /\ UpdateLowStockProducts.message r
           = ("Updated "
              ++ string_of_nat (List.length (UpdateLowStockProducts.products r))
              ++ " low stock products")%string)
  /\ (forall p,
         (Product.stock p < 10 ->
          top_up p = Product.mk (Product.id p) (Product.name p) (Product.price p)
                                (Product.stock p + 10))
         /\ (10 <= Product.stock p -> top_up p = p))
  /\ (map Product.stock (product_rows shop) = [3; 15; 9]
      /\ map Product.stock (product_rows (snd (UpdateLowStockProducts.mutate shop)))
         = [13; 15; 19]
      /\ fst (UpdateLowStockProducts.mutate shop)
         = Return (UpdateLowStockProducts.mk
                     [Product.mk (Some 1) "Pen" 1000 13; Product.mk (Some 3) "Pad" 700 19]
                     "Updated 2 low stock products")).
Proof.
  split; [|split].
  - intros s Hok. eexists. split; [apply update_low_stock_run; exact Hok|].
    split; reflexivity.
  - intros p. split; [apply top_up_low|apply top_up_enough].
  - repeat split.
Qed.

Lemma update_low_stock_products_effect_witness :
  product_keys_ok shop
  /\ exists r,
      UpdateLowStockProducts.mutate shop
      = (Return r, set_product_rows shop (map top_up (product_rows shop)))
      /\ UpdateLowStockProducts.products r
         = map restock (filter (stock_lt 10) (product_rows shop))
      /\ UpdateLowStockProducts.message r
         = ("Updated "
            ++ string_of_nat (List.length (UpdateLowStockProducts.products r))
            ++ " low stock products")%string.
Proof.
  split; [exact shop_product_keys_ok|].
  exact (proj1 update_low_stock_products_effect shop shop_product_keys_ok).
Defined.

(** C10. If every product's stock is non-negative, running
    update_low_stock_products() twice in immediate succession has the effect
    on the store of running it once: after the first run no product has stock
    strictly below 10, and the second run updates zero products, reports
    count 0 and leaves the store of the first run. *)
Theorem update_low_stock_products_twice (s : Store) :
  product_keys_ok s ->
  (forall p, In p (product_rows s) -> 0 <= Product.stock p) ->
  exists r1 s1,
    UpdateLowStockProducts.mutate s = (Return r1, s1)
    /\ (forall p, In p (product_rows s1) -> 10 <= Product.stock p)
    /\ UpdateLowStockProducts.mutate s1
       = (Return (UpdateLowStockProducts.mk [] "Updated 0 low stock products"), s1).
Proof.
  intros Hok Hpos.
  eexists. eexists. split; [apply update_low_stock_run; exact Hok|].
  assert (Hlow : forall p, In p (map top_up (product_rows s)) -> stock_lt 10 p = false).
  { intros p Hp. apply in_map_iff in Hp. destruct Hp as [q [<- Hq]].
    apply top_up_not_low, Hpos, Hq. }
  split.
  - intros p Hp. simpl in Hp. apply Hlow in Hp. unfold stock_lt in Hp.
    apply Z.ltb_ge in Hp. exact Hp.
  - apply update_low_stock_nothing. simpl. apply filter_none. exact Hlow.
Qed.

Lemma update_low_stock_products_twice_witness :
  (forall p, In p (product_rows shop) -> 0 <= Product.stock p)
  /\ exists r1 s1,
      UpdateLowStockProducts.mutate shop = (Return r1, s1)
      /\ (forall p, In p (product_rows s1) -> 10 <= Product.stock p)
      /\ UpdateLowStockProducts.mutate s1
         = (Return (UpdateLowStockProducts.mk [] "Updated 0 low stock products"), s1).
Proof.
  assert (H : forall p, In p (product_rows shop) -> 0 <= Product.stock p).
  { simpl. intros p [<-|[<-|[<-|[]]]]; simpl; lia. }
  split; [exact H|].
  exact (update_low_stock_products_twice shop shop_product_keys_ok H).
Defined.

(** ** Customers: one creation attempt *)

Lemma email_taken_new (input : CustomerInput.t) (s : Store) :
  email_taken (new_customer input) (customer_rows s) = true
  <-> email_used s (CustomerInput.email input).
Proof.
  unfold email_taken, email_used. rewrite existsb_exists. simpl.
  split; intros [c [Hin H]]; exists c; (split; [exact Hin|]).
  - rewrite andb_true_r in H. apply String.eqb_eq, H.
  - rewrite andb_true_r. apply String.eqb_eq, H.
Qed.

Lemma email_taken_new_false (input : CustomerInput.t) (s : Store) :
  email_taken (new_customer input) (customer_rows s) = false
  <-> ~ email_used s (CustomerInput.email input).
Proof.
  rewrite <- email_taken_new.
  destruct (email_taken (new_customer input) (customer_rows s)); split; congruence.
Qed.

Lemma email_used_dec (s : Store) (e : string) : email_used s e \/ ~ email_used s e.
Proof.
  pose proof (email_taken_new (CustomerInput.mk "" e None) s) as H1.
  pose proof (email_taken_new_false (CustomerInput.mk "" e None) s) as H2.
  simpl in H1, H2.
  destruct (email_taken (new_customer (CustomerInput.mk "" e None)) (customer_rows s)).
  - left. apply H1. reflexivity.
  - right. apply H2. reflexivity.
Qed.

Section CustomerAttempt.
Variable now : Z.
Variable validate : Customer.t -> option string.

Lemma attempt_invalid {A} (input : CustomerInput.t) (k : Customer.t -> M A)
      (s : Store) (msg : string) :
  validate (new_customer input) = Some msg ->
  attempt now validate input k s = (Raise (ValidationError msg), s).
Proof.
  intros H. unfold attempt, bind, Customer_clean. rewrite H. reflexivity.
Qed.

Lemma attempt_duplicate {A} (input : CustomerInput.t) (k : Customer.t -> M A) (s : Store) :
  validate (new_customer input) = None ->
  email_used s (CustomerInput.email input) ->
  attempt now validate input k s = (Raise (IntegrityError unique_email_msg), s).
Proof.
  intros H Hused. apply email_taken_new in Hused.
  unfold attempt, bind, Customer_clean, Customer_save. rewrite H.
  unfold ret. rewrite Hused. reflexivity.
Qed.

Lemma attempt_fresh {A} (input : CustomerInput.t) (k : Customer.t -> M A) (s : Store) :
  validate (new_customer input) = None ->
  ~ email_used s (CustomerInput.email input) ->
  attempt now validate input k s
  = k (inserted_customer now s input)
      (set_customer_rows s (customer_rows s ++ [inserted_customer now s input])).
Proof.
  intros H Hfree. apply email_taken_new_false in Hfree.
  unfold attempt, bind, Customer_clean, Customer_save. rewrite H.
  unfold ret. rewrite Hfree. reflexivity.
Qed.

(** *** CreateCustomer *)

Lemma create_customer_invalid (input : CustomerInput.t) (s : Store) (msg : string) :
  validate (new_customer input) = Some msg ->
  CreateCustomer.mutate now validate input s
  = (Raise (Exception (str (ValidationError msg))), s).
Proof.
  intros H.
  exact (try_except_raise
           (attempt now validate input (fun c => ret (CreateCustomer.mk c "Customer created successfully")))
           _ s s _ (attempt_invalid input _ s msg H)).
Qed.

Lemma create_customer_duplicate (input : CustomerInput.t) (s : Store) :
  validate (new_customer input) = None ->
  email_used s (CustomerInput.email input) ->
  CreateCustomer.mutate now validate input s = (Raise DuplicateEmail, s).
Proof.
  intros H Hused.
  exact (try_except_raise
           (attempt now validate input (fun c => ret (CreateCustomer.mk c "Customer created successfully")))
           _ s s _ (attempt_duplicate input _ s H Hused)).
Qed.

Lemma create_customer_fresh (input : CustomerInput.t) (s : Store) :
  validate (new_customer input) = None ->
  ~ email_used s (CustomerInput.email input) ->
  CreateCustomer.mutate now validate input s
  = (Return (CreateCustomer.mk (inserted_customer now s input)
                               "Customer created successfully"),
     set_customer_rows s (customer_rows s ++ [inserted_customer now s input])).
Proof.
  intros H Hfree.
  exact (try_except_return
           (attempt now validate input (fun c => ret (CreateCustomer.mk c "Customer created successfully")))
           _ s _ _ (attempt_fresh input _ s H Hfree)).
Qed.

End CustomerAttempt.

(** ** BulkCreateCustomers: the loop as a function of the input *)

Section Bulk.
Variable now : Z.
Variable validate : Customer.t -> option string.

Lemma step_item_result (item : CustomerInput.t) (cs : list Customer.t)
      (es : list string) (c : Connection) :
  BulkCreateCustomers.step now validate item cs es c
  = (Return (cs ++ fst (fst (item_result now validate item c)),
             es ++ snd (fst (item_result now validate item c))),
     snd (item_result now validate item c)).
Proof.
  unfold BulkCreateCustomers.step, item_result, try_except, bind, Customer_clean,
    in_transaction, Customer_save, store_with_customer, inserted_customer, new_customer.
  destruct (validate _) as [msg|]; [cbn [fst snd]; rewrite !app_nil_r; reflexivity|].
  unfold ret. destruct (needs_rollback c); [cbn [fst snd]; rewrite !app_nil_r; reflexivity|].
  destruct (email_taken _ _); cbn [fst snd Customer.id]; rewrite !app_nil_r; reflexivity.
Qed.

Lemma loop_run_items (input : list CustomerInput.t) (cs : list Customer.t)
      (es : list string) (c : Connection) :
  BulkCreateCustomers.loop now validate input cs es c
  = (Return (cs ++ fst (fst (run_items now validate input c)),
             es ++ snd (fst (run_items now validate input c))),
     snd (run_items now validate input c)).
Proof.
  revert cs es c. induction input as [|item rest IH]; intros cs es c.
  - simpl. rewrite !app_nil_r. reflexivity.
  - simpl BulkCreateCustomers.loop. unfold bind at 1.
    rewrite (step_item_result item cs es c).
    simpl fst. simpl snd. rewrite IH. simpl. rewrite !app_assoc. reflexivity.
Qed.

(** The resolver as a function of the batch: the lists of the run, and the
    store of the run unless a write failed in it. *)
Lemma bulk_run_items (input : list CustomerInput.t) (s : Store) :
  BulkCreateCustomers.mutate now validate input s
  = (Return (BulkCreateCustomers.mk
               (fst (fst (run_items now validate input (mkConnection s false))))
               (snd (fst (run_items now validate input (mkConnection s false))))),
     committed s (snd (run_items now validate input (mkConnection s false)))).
Proof.
  unfold BulkCreateCustomers.mutate, bind, transaction_atomic.
  rewrite (loop_run_items input [] [] (mkConnection s false)).
  reflexivity.
Qed.

Lemma item_result_count (item : CustomerInput.t) (c : Connection) :
  (List.length (fst (fst (item_result now validate item c)))
   + List.length (snd (fst (item_result now validate item c))) = 1)%nat.
Proof.
  unfold item_result.
  destruct (validate (new_customer item)); [reflexivity|].
  destruct (needs_rollback c); [reflexivity|].
  destruct (email_taken (new_customer item) (customer_rows (db c))); reflexivity.
Qed.

Lemma run_items_count (input : list CustomerInput.t) (c : Connection) :
  (List.length (fst (fst (run_items now validate input c)))
   + List.length (snd (fst (run_items now validate input c))) = List.length input)%nat.
Proof.
  revert c. induction input as [|item rest IH]; intros c; [reflexivity|].
  simpl. rewrite !length_app.
  pose proof (item_result_count item c).
  pose proof (IH (snd (item_result now validate item c))). lia.
Qed.

Lemma item_result_invalid (item : CustomerInput.t) (c : Connection) (msg : string) :
  validate (new_customer item) = Some msg ->
  item_result now validate item c
  = (([], [failure_message item (ValidationError msg)]), c).
Proof.
  intros Hv. unfold item_result. rewrite Hv. reflexivity.
Qed.

Lemma item_result_broken (item : CustomerInput.t) (s : Store) :
  validate (new_customer item) = None ->
  item_result now validate item (mkConnection s true)
  = (([], [broken_transaction_error item]), mkConnection s true).
Proof.
  intros Hv. unfold item_result. rewrite Hv. reflexivity.
Qed.

Lemma item_result_duplicate (item : CustomerInput.t) (s : Store) :
  validate (new_customer item) = None ->
  email_used s (CustomerInput.email item) ->
  item_result now validate item (mkConnection s false)
  = (([], [failure_message item (IntegrityError unique_email_msg)]), mkConnection s true).
Proof.
  intros Hv H. unfold item_result. rewrite Hv.
  apply email_taken_new in H. cbn [needs_rollback db]. rewrite H. reflexivity.
Qed.

Lemma item_result_success (item : CustomerInput.t) (s : Store) :
  validate (new_customer item) = None ->
  ~ email_used s (CustomerInput.email item) ->
  item_result now validate item (mkConnection s false)
  = (([inserted_customer now s item], []),
     mkConnection (store_with_customer now s item) false).
Proof.
  intros Hv H. unfold item_result. rewrite Hv.
  apply email_taken_new_false in H. cbn [needs_rollback db]. rewrite H. reflexivity.
Qed.

Lemma email_used_after_insert (item : CustomerInput.t) (s : Store) (e : string) :
  email_used s e \/ e = CustomerInput.email item ->
  email_used (store_with_customer now s item) e.
Proof.
  intros [[c [Hin Hc]] | ->].
  - exists c. split; [|exact Hc]. simpl. apply in_or_app. left. exact Hin.
  - exists (inserted_customer now s item). split; [|reflexivity].
    simpl. apply in_or_app. right. left. reflexivity.
Qed.

(** What holds of the store at the entry and is kept by the insertion of a
    customer holds of the store inside the scope after every item, and of the
    store that the resolver leaves. *)
Lemma run_items_invariant (P : Store -> Prop) :
  (forall s item,
      validate (new_customer item) = None ->
      ~ email_used s (CustomerInput.email item) ->
      P s -> P (store_with_customer now s item)) ->
  forall input c, P (db c) -> P (db (snd (run_items now validate input c))).
Proof.
  intros Hins input. induction input as [|item rest IH]; intros c Hc; [exact Hc|].
  simpl. apply IH. unfold item_result.
  destruct (validate (new_customer item)) eqn:Hv; [exact Hc|].
  destruct (needs_rollback c); [exact Hc|].
  destruct (email_taken (new_customer item) (customer_rows (db c))) eqn:Ht; [exact Hc|].
  cbn [snd db]. apply Hins; [exact Hv|apply email_taken_new_false; exact Ht|exact Hc].
Qed.

Lemma bulk_invariant (P : Store -> Prop) :
  (forall s item,
      validate (new_customer item) = None ->
      ~ email_used s (CustomerInput.email item) ->
      P s -> P (store_with_customer now s item)) ->
  forall input s, P s -> P (snd (BulkCreateCustomers.mutate now validate input s)).
Proof.
  intros Hins input s Hs. rewrite bulk_run_items. cbn [snd]. unfold committed.
  destruct (needs_rollback _); [exact Hs|].
  apply (run_items_invariant P Hins input (mkConnection s false)). exact Hs.
Qed.

(** The flag is never unset inside the scope, and the store does not change
    while it is set. *)
Lemma item_result_stays_broken (item : CustomerInput.t) (s : Store) :
  snd (item_result now validate item (mkConnection s true)) = mkConnection s true.
Proof.
  unfold item_result. destruct (validate (new_customer item)); reflexivity.
Qed.

Lemma run_items_stays_broken (input : list CustomerInput.t) (s : Store) :
  snd (run_items now validate input (mkConnection s true)) = mkConnection s true.
Proof.
  induction input as [|item rest IH]; [reflexivity|].
  simpl. rewrite item_result_stays_broken. exact IH.
Qed.

(** Once a write has failed, no later item of the batch is created: each one
    is recorded as an error. *)
Lemma run_items_broken_creates_nothing (input : list CustomerInput.t) (s : Store) :
  fst (fst (run_items now validate input (mkConnection s true))) = []
  /\ List.length (snd (fst (run_items now validate input (mkConnection s true))))
     = List.length input.
Proof.
  induction input as [|item rest [IH1 IH2]]; [split; reflexivity|].
  simpl. rewrite item_result_stays_broken, IH1, length_app, IH2.
  unfold item_result. destruct (validate (new_customer item)); split; reflexivity.
Qed.

End Bulk.

(** ** Customers: a used email *)

Lemma shop_email_ada : email_used shop "ada@example.com".
Proof. eexists. split; [left; reflexivity|reflexivity]. Defined.

Lemma shop_email_bob_free : ~ email_used shop "bob@example.com".
Proof. intros [c [[<-|[]] H]]. discriminate H. Defined.


(** ** BulkCreateCustomers: the batch after a failure *)

Section BulkFailures.
Variable now : Z.
Variable validate : Customer.t -> option string.

(** An item that validation rejects is recorded and the items after it are
    processed as if it were not in the batch. *)
Lemma bulk_rejected_item (item : CustomerInput.t) (rest : list CustomerInput.t)
      (s : Store) (msg : string) :
  validate (new_customer item) = Some msg ->
  exists cs es s',
    BulkCreateCustomers.mutate now validate rest s
    = (Return (BulkCreateCustomers.mk cs es), s')
    /\ BulkCreateCustomers.mutate now validate (item :: rest) s
       = (Return (BulkCreateCustomers.mk
                    cs (failure_message item (ValidationError msg) :: es)),
          s').
Proof.
  intros Hv. rewrite !bulk_run_items. simpl run_items.
  rewrite (item_result_invalid now validate item _ msg Hv). cbn [fst snd app].
  eexists. eexists. eexists. split; reflexivity.
Qed.

(** An item whose email is used makes the write fail: it is recorded, no
    item after it is created, and the batch leaves the store of its entry. *)
Lemma bulk_duplicate_first (item : CustomerInput.t) (rest : list CustomerInput.t)
      (s : Store) :
  validate (new_customer item) = None ->
  email_used s (CustomerInput.email item) ->
  exists es,
    BulkCreateCustomers.mutate now validate (item :: rest) s
    = (Return (BulkCreateCustomers.mk
                 [] (failure_message item (IntegrityError unique_email_msg) :: es)),
       s)
    /\ List.length es = List.length rest.
Proof.
  intros Hv Hused. rewrite bulk_run_items. simpl run_items.
  rewrite (item_result_duplicate now validate item s Hv Hused). cbn [fst snd app].
  rewrite run_items_stays_broken.
  destruct (run_items_broken_creates_nothing now validate rest s) as [Hcs Hes].
  rewrite Hcs. eexists. split; [reflexivity|exact Hes].
Qed.

Lemma bulk_duplicate_then_valid (a b : CustomerInput.t) (s : Store) :
  validate (new_customer a) = None ->
  validate (new_customer b) = None ->
  email_used s (CustomerInput.email a) ->
  BulkCreateCustomers.mutate now validate [a; b] s
  = (Return (BulkCreateCustomers.mk
               []
               [failure_message a (IntegrityError unique_email_msg);
                broken_transaction_error b]),
     s).
Proof.
  intros Ha Hb Hused. rewrite bulk_run_items. simpl run_items.
  rewrite (item_result_duplicate now validate a s Ha Hused). cbn [fst snd app].
  rewrite (item_result_broken now validate b s Hb). reflexivity.
Qed.

(** A valid item, then a duplicate of a stored email or of the valid item's
    own: the customer that the batch returns is rolled back with the batch. *)
Lemma bulk_valid_then_duplicate (a b : CustomerInput.t) (s : Store) :
  validate (new_customer a) = None ->
  validate (new_customer b) = None ->
  email_used s (CustomerInput.email a)
  \/ CustomerInput.email a = CustomerInput.email b ->
  ~ email_used s (CustomerInput.email b) ->
  BulkCreateCustomers.mutate now validate [b; a] s
  = (Return (BulkCreateCustomers.mk
               [inserted_customer now s b]
               [failure_message a (IntegrityError unique_email_msg)]),
     s).
Proof.
  intros Ha Hb Hdup Hfree. rewrite bulk_run_items. simpl run_items.
  rewrite (item_result_success now validate b s Hb Hfree). cbn [fst snd app].
  rewrite (item_result_duplicate now validate a _ Ha
             (email_used_after_insert now b s _ Hdup)).
  reflexivity.
Qed.

Lemma bulk_single_valid (b : CustomerInput.t) (s : Store) :
  validate (new_customer b) = None ->
  ~ email_used s (CustomerInput.email b) ->
  BulkCreateCustomers.mutate now validate [b] s
  = (Return (BulkCreateCustomers.mk [inserted_customer now s b] []),
     store_with_customer now s b).
Proof.
  intros Hb Hfree. rewrite bulk_run_items. simpl run_items.
  rewrite (item_result_success now validate b s Hb Hfree). reflexivity.
Qed.
End BulkFailures.

(** C3 fails on the code. The resolver catches the [IntegrityError] of a
    duplicate email inside the transaction scope, where the failed write has
    marked the transaction for rollback. For an item [a] whose email is used
    and an item [b] that is created when it is sent alone, the batch [a; b]
    creates no customer and returns two error strings, the second one for
    [b]; the batch [b; a] returns one customer and one error string, and the
    customer it returns is not in the store, which is the one of the entry. *)
Theorem bulk_create_customers_after_duplicate
        (now : Z) (validate : Customer.t -> option string)
        (a b : CustomerInput.t) (s : Store) :
  validate (new_customer a) = None ->
  validate (new_customer b) = None ->
  email_used s (CustomerInput.email a) ->
  ~ email_used s (CustomerInput.email b) ->
  BulkCreateCustomers.mutate now validate [b] s
  = (Return (BulkCreateCustomers.mk [inserted_customer now s b] []),
     store_with_customer now s b)
  /\ BulkCreateCustomers.mutate now validate [a; b] s
     = (Return (BulkCreateCustomers.mk
                  []
                  [("Failed to create customer " ++ CustomerInput.name a
                    ++ ": " ++ unique_email_msg)%string;
                   ("Unexpected error for " ++ CustomerInput.name b
                    ++ ": " ++ broken_transaction_msg)%string]),
        s)
  /\ BulkCreateCustomers.mutate now validate [b; a] s
     = (Return (BulkCreateCustomers.mk
                  [inserted_customer now s b]
                  [("Failed to create customer " ++ CustomerInput.name a
                    ++ ": " ++ unique_email_msg)%string]),
        s).
Proof.
  intros Ha Hb Hused Hfree. split; [|split].
  - apply bulk_single_valid; assumption.
  - apply bulk_duplicate_then_valid; assumption.
  - apply bulk_valid_then_duplicate; [assumption|assumption|left; assumption|assumption].
Qed.

(** In [shop], where ada@example.com is used: the duplicate first, then the
    valid item; and the valid item first. *)
Lemma bulk_create_customers_after_duplicate_witness :
  BulkCreateCustomers.mutate 0 (fun _ => None)
    [CustomerInput.mk "Eve" "ada@example.com" None;
     CustomerInput.mk "Bob" "bob@example.com" None] shop
  = (Return (BulkCreateCustomers.mk
               []
               ["Failed to create customer Eve: UNIQUE constraint failed: crm_customer.email";
                "Unexpected error for Bob: An error occurred in the current transaction. You can't execute queries until the end of the 'atomic' block."]),
     shop)
  /\ BulkCreateCustomers.mutate 0 (fun _ => None)
       [CustomerInput.mk "Bob" "bob@example.com" None;
        CustomerInput.mk "Eve" "ada@example.com" None] shop
     = (Return (BulkCreateCustomers.mk
                  [Customer.mk (Some 2) "Bob" "bob@example.com" None (Some 0)]
                  ["Failed to create customer Eve: UNIQUE constraint failed: crm_customer.email"]),
        shop)
  /\ customer_rows shop = [Customer.mk (Some 1) "Ada" "ada@example.com" None (Some 0)].
Proof.
  pose proof (bulk_create_customers_after_duplicate
                0 (fun _ => None)
                (CustomerInput.mk "Eve" "ada@example.com" None)
                (CustomerInput.mk "Bob" "bob@example.com" None)
                shop eq_refl eq_refl shop_email_ada shop_email_bob_free)
    as [_ [H1 H2]].
  split; [exact H1|]. split; [exact H2|reflexivity].
Defined.

(** ** CreateOrder with the model methods of the spec *)

Lemma max_pk_ge (ids : list (option Z)) (j : Z) : In (Some j) ids -> j <= max_pk ids.
Proof.
  induction ids as [|o ids IH]; simpl; intros H; [contradiction|].
  destruct H as [->|H].
  - lia.
  - specialize (IH H). destruct o; lia.
Qed.

Lemma next_pk_fresh (ids : list (option Z)) : ~ In (Some (next_pk ids)) ids.
Proof.
  intros H. apply max_pk_ge in H. unfold next_pk in H. lia.
Qed.

Lemma existsb_absent {R} (id_of : R -> option Z) (i : Z) (rows : list R) :
  ~ In (Some i) (map id_of rows) ->
  existsb (fun x => pk_eqb (id_of x) i) rows = false.
Proof.
  induction rows as [|a rows IH]; simpl; intros H; [reflexivity|].
  rewrite IH by (intros Hin; apply H; right; exact Hin).
  rewrite orb_false_r. apply pk_eqb_false. intros E. apply H. left. exact E.
Qed.

(** INSERT: no row has the key. *)
Lemma upsert_absent {R} (id_of : R -> option Z) (i : Z) (r : R) (rows : list R) :
  ~ In (Some i) (map id_of rows) -> upsert id_of i r rows = rows ++ [r].
Proof.
  intros H. unfold upsert. rewrite (existsb_absent _ _ _ H). reflexivity.
Qed.

(** UPDATE of the row inserted last. *)
Lemma upsert_last {R} (id_of : R -> option Z) (i : Z) (r x : R) (rows : list R) :
  ~ In (Some i) (map id_of rows) -> id_of x = Some i ->
  upsert id_of i r (rows ++ [x]) = rows ++ [r].
Proof.
  intros H Hx. unfold upsert.
  rewrite existsb_app, map_app, (map_replace_absent _ _ _ _ H). simpl.
  rewrite (proj2 (pk_eqb_true _ _) Hx), orb_true_r. reflexivity.
Qed.

Lemma existsb_links (i : Z) (ps : list Product.t) (k : option Z) :
  existsb (fun r => (fst r =? i) && pk_eqb k (snd r)) (links i ps)
  = existsb (fun q => match Product.id q with
                      | Some j => pk_eqb k j
                      | None => false
                      end) ps.
Proof.
  induction ps as [|q ps IH]; simpl; [reflexivity|].
  destruct (Product.id q) as [j|]; simpl; [|exact IH].
  rewrite Z.eqb_refl, IH. reflexivity.
Qed.

Lemma existsb_unlinked (i : Z) (rows : list (Z * Z)) (k : option Z) :
  existsb (fun r => (fst r =? i) && pk_eqb k (snd r))
          (filter (fun r => negb (fst r =? i)) rows) = false.
Proof.
  induction rows as [|r rows IH]; simpl; [reflexivity|].
  destruct (fst r =? i) eqn:E; simpl; [exact IH|].
  rewrite E, IH. reflexivity.
Qed.

(** After [set], the products attached to the order are the products given,
    when these were selected from the table by their ids. *)
Lemma attached_after_set (s : Store) (i : Z) (ids : list Z) (orows : list Order.t) :
  attached
    (mkStore (customer_rows s) (product_rows s) orows
             (filter (fun r => negb (fst r =? i)) (order_products_rows s)
              ++ links i (resolved s ids)))
    i
  = resolved s ids.
Proof.
  unfold attached, resolved. simpl. apply filter_ext_in. intros p Hp.
  rewrite existsb_app, existsb_unlinked, existsb_links. simpl.
  destruct (id_in ids p) eqn:E.
  - apply existsb_exists. exists p. split; [apply filter_In; split; assumption|].
    apply id_in_true in E. destruct E as [j [_ Hj]]. rewrite Hj. simpl. apply Z.eqb_refl.
  - destruct (existsb _ (filter (id_in ids) (product_rows s))) eqn:X; [|reflexivity].
    apply existsb_exists in X. destruct X as [q [Hq Hm]].
    apply filter_In in Hq. destruct Hq as [_ Hq].
    destruct (Product.id q) as [j|] eqn:Hj; [|discriminate Hm].
    apply pk_eqb_true in Hm.
    apply id_in_true in Hq. destruct Hq as [j' [Hin Hj']].
    assert (j' = j) by congruence. subst j'.
    assert (id_in ids p = true) by (apply id_in_true; exists j; split; assumption).
    congruence.
Qed.

Lemma order_save_insert (now : Z) (o : Order.t) (s : Store) :
  Order.id o = None ->
  Order_save now o s
  = (Return (Order.mk (Some (next_pk (map Order.id (order_rows s)))) (Order.customer o)
                      (sum_prices (attached s (next_pk (map Order.id (order_rows s)))))
                      (Some (date_or now (Order.order_date o)))),
     set_order_rows s
       (order_rows s
        ++ [Order.mk (Some (next_pk (map Order.id (order_rows s)))) (Order.customer o)
                     (sum_prices (attached s (next_pk (map Order.id (order_rows s)))))
                     (Some (date_or now (Order.order_date o)))])).
Proof.
  intros H. unfold Order_save. rewrite H.
  rewrite (upsert_absent Order.id _ _ (order_rows s) (next_pk_fresh _)).
  reflexivity.
Qed.

Lemma order_save_update_last (now : Z) (o x : Order.t) (i : Z) (rows : list Order.t)
      (s : Store) :
  Order.id o = Some i -> Order.id x = Some i ->
  ~ In (Some i) (map Order.id rows) ->
  order_rows s = rows ++ [x] ->
  Order_save now o s
  = (Return (Order.mk (Some i) (Order.customer o) (sum_prices (attached s i))
                      (Some (date_or now (Order.order_date o)))),
     set_order_rows s
       (rows ++ [Order.mk (Some i) (Order.customer o) (sum_prices (attached s i))
                          (Some (date_or now (Order.order_date o)))])).
Proof.
  intros Ho Hx Hfresh Hrows. unfold Order_save. rewrite Ho, Hrows.
  rewrite (upsert_last Order.id i _ x rows Hfresh Hx).
  reflexivity.
Qed.

Lemma products_set_saved (o : Order.t) (i : Z) (ps : list Product.t) (s : Store) :
  Order.id o = Some i ->
  Order_products_set o ps s
  = (Return tt,
     set_order_products_rows s
       (filter (fun r => negb (fst r =? i)) (order_products_rows s) ++ links i ps)).
Proof.
  intros H. unfold Order_products_set. rewrite H. reflexivity.
Qed.

Lemma transaction_body_run (now : Z) (s : Store) (c : Customer.t) (input : OrderInput.t) :
  transaction_body (Order_save now) Order_products_set c input
                   (resolved s (OrderInput.product_ids input)) s
  = (Return (CreateOrder.mk (created_order now s c input)),
     store_with_order now s c input).
Proof.
  pose proof (next_pk_fresh (map Order.id (order_rows s))) as Hfresh.
  unfold transaction_body.
  set (o0 := match OrderInput.order_date input with
             | Some d => Order.with_order_date (Order.mk None (Customer.id c) 0 None) d
             | None => Order.mk None (Customer.id c) 0 None
             end).
  assert (Hid : Order.id o0 = None)
    by (unfold o0; destruct (OrderInput.order_date input); reflexivity).
  assert (Hcust : Order.customer o0 = Customer.id c)
    by (unfold o0; destruct (OrderInput.order_date input); reflexivity).
  assert (Hdate : date_or now (Order.order_date o0)
                  = match OrderInput.order_date input with
                    | Some d => d
                    | None => now
                    end)
    by (unfold o0; destruct (OrderInput.order_date input); reflexivity).
  rewrite (bind_return _ _ _ _ _ (order_save_insert now o0 s Hid)).
  set (i := next_pk (map Order.id (order_rows s))) in *.
  set (o1 := Order.mk (Some i) (Order.customer o0) (sum_prices (attached s i))
                      (Some (date_or now (Order.order_date o0)))).
  set (s1 := set_order_rows s (order_rows s ++ [o1])).
  rewrite (bind_return _ _ _ _ _
             (products_set_saved o1 i (resolved s (OrderInput.product_ids input)) s1
                                 eq_refl)).
  set (s2 := set_order_products_rows s1 _).
  rewrite (bind_return _ _ _ _ _
             (order_save_update_last now o1 o1 i (order_rows s) s2
                                     eq_refl eq_refl Hfresh eq_refl)).
  unfold ret, s2, s1, o1, set_order_rows, set_order_products_rows. simpl.
  rewrite (attached_after_set s i (OrderInput.product_ids input)).
  unfold created_order, store_with_order. fold i. rewrite Hcust, Hdate. reflexivity.
Qed.

Lemma NoDup_map_Some {A} (l : list A) : NoDup l -> NoDup (map (@Some A) l).
Proof.
  induction 1 as [|x l Hx Hnd IH]; simpl; constructor; [|exact IH].
  intros Hin. apply in_map_iff in Hin. destruct Hin as [y [[= ->] Hy]]. contradiction.
Qed.

(** Distinct ids that all resolve select as many products as there are ids. *)
Lemma resolved_length_all (s : Store) (ids : list Z) :
  NoDup (map Product.id (product_rows s)) ->
  NoDup ids ->
  (forall i, In i ids -> product_exists s i) ->
  List.length (resolved s ids) = List.length ids.
Proof.
  intros Hkeys Hnd Hall. apply Nat.le_antisymm.
  - pose proof (resolved_length_le s ids Hkeys).
    pose proof (filter_length_le (resolves s) ids). lia.
  - rewrite <- (length_map (@Some Z) ids), <- (length_map Product.id (resolved s ids)).
    apply NoDup_incl_length; [apply NoDup_map_Some; exact Hnd|].
    intros k Hk. apply in_map_iff in Hk. destruct Hk as [i [<- Hi]].
    destruct (Hall i Hi) as [p [Hp Hid]].
    apply in_map_iff. exists p. split; [exact Hid|].
    apply filter_In. split; [exact Hp|].
    apply id_in_true. exists i. split; assumption.
Qed.

Lemma sum_prices_key (rows : list Product.t) (i : Z) :
  NoDup (map Product.id rows) ->
  sum_prices (filter (fun p => pk_eqb (Product.id p) i) rows)
  = match find (fun p => pk_eqb (Product.id p) i) rows with
    | Some p => Product.price p
    | None => 0
    end.
Proof.
  induction rows as [|p rows IH]; simpl; intros Hnd; [reflexivity|].
  inversion Hnd as [|k ks Hnotin Hnd']; subst.
  destruct (pk_eqb (Product.id p) i) eqn:E.
  - apply pk_eqb_true in E. rewrite E in Hnotin.
    rewrite (filter_none (fun q => pk_eqb (Product.id q) i) rows).
    + unfold sum_prices. simpl. lia.
    + intros q Hq. apply pk_eqb_false. intros Hqi. apply Hnotin.
      apply in_map_iff. exists q. split; assumption.
  - apply IH. exact Hnd'.
Qed.

Lemma sum_prices_split (A B : Product.t -> bool) (rows : list Product.t) :
  (forall p, In p rows -> A p = true -> B p = false) ->
  sum_prices (filter (fun p => A p || B p) rows)
  = sum_prices (filter A rows) + sum_prices (filter B rows).
Proof.
  unfold sum_prices.
  induction rows as [|p rows IH]; simpl; intros H; [reflexivity|].
  assert (IH' := IH (fun q Hq => H q (or_intror Hq))).
  destruct (A p) eqn:EA; simpl.
  - rewrite (H p (or_introl eq_refl) EA). simpl. lia.
  - destruct (B p); simpl; lia.
Qed.

(** With unique keys and distinct ids, the prices of the resolved products add
    up to the prices of the ids. *)
Lemma sum_prices_resolved (s : Store) (ids : list Z) :
  NoDup (map Product.id (product_rows s)) ->
  NoDup ids ->
  sum_prices (resolved s ids) = sum_Z (map (price_of s) ids).
Proof.
  intros Hkeys. unfold resolved.
  induction ids as [|i ids IH]; intros Hnd.
  - simpl. rewrite filter_none; [reflexivity|]. intros; reflexivity.
  - inversion Hnd as [|k ks Hnotin Hnd']; subst.
    rewrite (filter_ext (id_in (i :: ids))
               (fun p => pk_eqb (Product.id p) i || id_in ids p))
      by reflexivity.
    rewrite sum_prices_split.
    + rewrite (sum_prices_key _ i Hkeys), (IH Hnd'). reflexivity.
    + intros p _ Hp. apply pk_eqb_true in Hp.
      destruct (id_in ids p) eqn:E; [|reflexivity].
      apply id_in_true in E. destruct E as [j [Hj Hpj]].
      assert (j = i) by congruence. subst j. contradiction.
Qed.

(** [create_order] past its guards, with the model methods of the spec. *)
Lemma create_order_success (now : Z) (input : OrderInput.t) (s : Store) (c : Customer.t) :
  find (fun c => pk_eqb (Customer.id c) (OrderInput.customer_id input))
       (customer_rows s) = Some c ->
  OrderInput.product_ids input <> [] ->
  List.length (resolved s (OrderInput.product_ids input))
    = List.length (OrderInput.product_ids input) ->
  CreateOrder.mutate (Order_save now) Order_products_set input s
  = (Return (CreateOrder.mk (created_order now s c input)),
     store_with_order now s c input).
Proof.
  intros Hc Hne Hlen.
  rewrite (create_order_past_guards _ _ _ _ _ Hc Hne Hlen).
  apply try_except_return, atomic_return, transaction_body_run.
Qed.

(** The same on the ids of a request that are integers: the order of their
    keys is created. *)
Lemma create_order_ids_success (py_int : string -> option Z) (py_repr : string -> string)
      (now : Z) (input : OrderInputIDs.t) (s : Store) (k : Z) (c : Customer.t) :
  py_int (OrderInputIDs.customer_id input) = Some k ->
  find (fun c => pk_eqb (Customer.id c) k) (customer_rows s) = Some c ->
  OrderInputIDs.product_ids input <> [] ->
  integer_ids py_int (OrderInputIDs.product_ids input) ->
  List.length (resolved s (keys_of py_int (OrderInputIDs.product_ids input)))
    = List.length (OrderInputIDs.product_ids input) ->
  CreateOrder.mutate_ids (Order_save now) Order_products_set py_int py_repr input s
  = (Return (CreateOrder.mk (created_order now s c (keys_input py_int k input))),
     store_with_order now s c (keys_input py_int k input)).
Proof.
  intros Hk Hc Hne Hint Hlen.
  rewrite (create_order_ids_past_guards py_int py_repr _ _ _ _ _ _ Hk Hc Hne Hint Hlen).
  apply try_except_return, atomic_return.
  exact (transaction_body_run now s c (keys_input py_int k input)).
Qed.

(** In [shop], the ids "1" and "2" order the products priced $10.00 and
    $15.00. *)
Lemma create_order_ids_two_products :
  exists s',
    CreateOrder.mutate_ids (Order_save 0) Order_products_set int_of_digits quoted
                           (OrderInputIDs.mk "1" [Some "1"; Some "2"] None) shop
    = (Return (CreateOrder.mk (Order.mk (Some 1) (Some 1) 2500 (Some 0))), s')
    /\ order_products_rows s' = [(1, 1); (1, 2)].
Proof.
  eexists. split; reflexivity.
Qed.

(** ** CreateOrder: the total *)

(** C1 as stated fails: a list that names an existing product twice resolves
    to one product, and the count guard rejects it. *)
Lemma create_order_repeated_product :
  customer_exists shop 1
  /\ (forall i, In i [1; 1] -> product_exists shop i)
  /\ CreateOrder.mutate (Order_save 0) Order_products_set
                        (OrderInput.mk 1 [1; 1] None) shop
     = (Raise InvalidProduct, shop).
Proof.
  split; [exact shop_customer_1|]. split; [|reflexivity].
  intros i [<-|[<-|[]]]; eexists; (split; [left; reflexivity|reflexivity]).
Qed.

(** C1 (amended). For every existing customer C and every non-empty list of
    pairwise distinct ids of existing products, create_order(C.id,
    product_ids, order_date?) succeeds, and the persisted order's total_amount
    equals the sum of the prices of the attached products, which are the
    products of the list; in particular with products priced $10 and $15 the
    total_amount is $25.00. *)
Theorem create_order_total_amount (now : Z) (input : OrderInput.t) (s : Store) :
  customer_exists s (OrderInput.customer_id input) ->
  product_keys_ok s ->
  OrderInput.product_ids input <> [] ->
  NoDup (OrderInput.product_ids input) ->
  (forall i, In i (OrderInput.product_ids input) -> product_exists s i) ->
  exists o oid s',
    CreateOrder.mutate (Order_save now) Order_products_set input s
    = (Return (CreateOrder.mk o), s')
    /\ In o (order_rows s')
    /\ Order.id o = Some oid
    /\ Order.customer o = Some (OrderInput.customer_id input)
    /\ attached s' oid = resolved s (OrderInput.product_ids input)
    /\ Order.total_amount o = sum_prices (attached s' oid)
    /\ Order.total_amount o = sum_Z (map (price_of s) (OrderInput.product_ids input))
    /\ (forall i1 i2,
           OrderInput.product_ids input = [i1; i2] ->
           price_of s i1 = 1000 -> price_of s i2 = 1500 ->
           Order.total_amount o = 2500).
Proof.
  intros Hcust [Hkeys _] Hne Hnd Hall.
  destruct (customer_get_some _ _ Hcust) as [c [Hc Hcid]].
  pose proof (resolved_length_all s _ Hkeys Hnd Hall) as Hlen.
  pose proof (sum_prices_resolved s _ Hkeys Hnd) as Hsum.
  exists (created_order now s c input), (next_pk (map Order.id (order_rows s))),
    (store_with_order now s c input).
  split; [exact (create_order_success now input s c Hc Hne Hlen)|].
  split; [simpl; apply in_or_app; right; left; reflexivity|].
  split; [reflexivity|]. split; [exact Hcid|].
  assert (Hatt : attached (store_with_order now s c input)
                          (next_pk (map Order.id (order_rows s)))
                 = resolved s (OrderInput.product_ids input))
    by apply attached_after_set.
  split; [exact Hatt|]. split; [rewrite Hatt; reflexivity|].
  split; [exact Hsum|].
  intros i1 i2 Hids H1 H2. simpl. rewrite Hsum, Hids. simpl. lia.
Qed.

Lemma create_order_total_amount_witness :
  (customer_exists shop 1 /\ product_keys_ok shop /\ NoDup [1; 2])
  /\ fst (CreateOrder.mutate (Order_save 0) Order_products_set
                             (OrderInput.mk 1 [1; 2] None) shop)
     = Return (CreateOrder.mk (Order.mk (Some 1) (Some 1) 2500 (Some 0)))
  /\ exists o oid s',
      CreateOrder.mutate (Order_save 0) Order_products_set
                         (OrderInput.mk 1 [1; 2] None) shop
      = (Return (CreateOrder.mk o), s')
      /\ In o (order_rows s')
      /\ Order.id o = Some oid
      /\ Order.customer o = Some 1
      /\ attached s' oid = resolved shop [1; 2]
      /\ Order.total_amount o = sum_prices (attached s' oid)
      /\ Order.total_amount o = sum_Z (map (price_of shop) [1; 2])
      /\ (forall i1 i2,
             [1; 2] = [i1; i2] ->
             price_of shop i1 = 1000 -> price_of shop i2 = 1500 ->
             Order.total_amount o = 2500).
Proof.
  assert (Hnd : NoDup [1; 2]).
  { repeat constructor; simpl; intuition discriminate. }
  split; [split; [exact shop_customer_1|split; [exact shop_product_keys_ok|exact Hnd]]|].
  split; [reflexivity|].
  apply (create_order_total_amount 0 (OrderInput.mk 1 [1; 2] None) shop
           shop_customer_1 shop_product_keys_ok).
  - discriminate.
  - exact Hnd.
  - intros i [<-|[<-|[]]].
    + exists (Product.mk (Some 1) "Pen" 1000 3). split; [left; reflexivity|reflexivity].
    + exists (Product.mk (Some 2) "Ink" 1500 15).
      split; [right; left; reflexivity|reflexivity].
Defined.

(** ** The primary-key constraint is an invariant of the mutations *)

Lemma product_keys_ok_same_rows (s s' : Store) :
  product_rows s' = product_rows s -> product_keys_ok s -> product_keys_ok s'.
Proof.
  unfold product_keys_ok. intros ->. exact (fun H => H).
Qed.

Lemma bulk_product_rows (now : Z) (validate : Customer.t -> option string)
      (input : list CustomerInput.t) (s : Store) :
  product_rows (snd (BulkCreateCustomers.mutate now validate input s)) = product_rows s.
Proof.
  apply (bulk_invariant now validate (fun s' => product_rows s' = product_rows s));
    [|reflexivity].
  intros s0 item _ _ H. exact H.
Qed.

Lemma create_customer_product_rows (now : Z) (validate : Customer.t -> option string)
      (input : CustomerInput.t) (s : Store) :
  product_rows (snd (CreateCustomer.mutate now validate input s)) = product_rows s.
Proof.
  destruct (validate (new_customer input)) as [msg|] eqn:Hv.
  - rewrite (create_customer_invalid now validate input s msg Hv). reflexivity.
  - destruct (email_used_dec s (CustomerInput.email input)) as [Hu|Hu].
    + rewrite (create_customer_duplicate now validate input s Hv Hu). reflexivity.
    + rewrite (create_customer_fresh now validate input s Hv Hu). reflexivity.
Qed.

Lemma create_order_product_rows (now : Z) (input : OrderInput.t) (s : Store) :
  product_rows (snd (CreateOrder.mutate (Order_save now) Order_products_set input s))
  = product_rows s.
Proof.
  destruct (CreateOrder.mutate (Order_save now) Order_products_set input s)
    as [[r|e] s'] eqn:E.
  2:{ apply create_order_raise_store in E. subst s'. reflexivity. }
  destruct (find (fun c => pk_eqb (Customer.id c) (OrderInput.customer_id input))
                 (customer_rows s)) as [c|] eqn:Hc.
  - assert (Hex : customer_exists s (OrderInput.customer_id input)).
    { apply find_some in Hc. exists c. split; [apply Hc|apply pk_eqb_true, Hc]. }
    destruct (OrderInput.product_ids input) as [|i ids] eqn:Hids.
    { rewrite (create_order_no_product _ _ _ _ Hex Hids) in E. discriminate E. }
    assert (Hne : OrderInput.product_ids input <> []) by congruence.
    destruct (Nat.eq_dec (List.length (resolved s (OrderInput.product_ids input)))
                         (List.length (OrderInput.product_ids input))) as [Hl|Hl].
    + rewrite (create_order_success now input s c Hc Hne Hl) in E.
      injection E as _ <-. reflexivity.
    + rewrite (create_order_count_mismatch _ _ _ _ Hex Hne Hl) in E. discriminate E.
  - assert (Hno : ~ customer_exists s (OrderInput.customer_id input)).
    { intros [c [Hin Hid]]. apply (find_none _ _ Hc) in Hin.
      apply pk_eqb_false in Hin. contradiction. }
    rewrite (create_order_no_customer _ _ _ _ Hno) in E. discriminate E.
Qed.

Lemma create_product_keys_ok (validate : Product.t -> option string)
      (input : ProductInput.t) (s : Store) :
  product_keys_ok s ->
  product_keys_ok (snd (CreateProduct.mutate validate input s)).
Proof.
  intros [Hnd Hkeys].
  unfold CreateProduct.mutate, try_except, bind, Product_clean, Product_save.
  destruct (validate _) as [msg|]; [split; assumption|].
  simpl. split.
  - simpl. rewrite map_app. simpl. apply NoDup_app; [exact Hnd|repeat constructor; intros []|].
    intros k Hk [<-|[]]. exact (next_pk_fresh _ Hk).
  - simpl. intros p Hp. apply in_app_or in Hp. destruct Hp as [Hp|[<-|[]]].
    + apply Hkeys, Hp.
    + discriminate.
Qed.

Lemma update_low_stock_keys_ok (s : Store) :
  product_keys_ok s -> product_keys_ok (snd (UpdateLowStockProducts.mutate s)).
Proof.
  intros Hok. rewrite (update_low_stock_run s Hok). destruct Hok as [Hnd Hkeys].
  split; simpl.
  - rewrite map_top_up_ids. exact Hnd.
  - intros p Hp. apply in_map_iff in Hp. destruct Hp as [q [<- Hq]].
    rewrite top_up_id. apply Hkeys, Hq.
Qed.

Lemma mutation_product_keys_ok (cv : Customer.t -> option string)
      (pv : Product.t -> option string) (s s' : Store) :
  mutation cv pv s s' -> product_keys_ok s -> product_keys_ok s'.
Proof.
  intros Hm Hok. destruct Hm.
  - apply (product_keys_ok_same_rows s); [apply create_customer_product_rows|exact Hok].
  - apply (product_keys_ok_same_rows s); [apply bulk_product_rows|exact Hok].
  - apply create_product_keys_ok, Hok.
  - apply (product_keys_ok_same_rows s); [apply create_order_product_rows|exact Hok].
  - apply update_low_stock_keys_ok, Hok.
Qed.

(** Every store that the mutations build from the empty database satisfies the
    primary-key constraint of the product table that the theorems on
    products assume. *)
Lemma reachable_product_keys_ok (cv : Customer.t -> option string)
      (pv : Product.t -> option string) (s : Store) :
  reachable cv pv s -> product_keys_ok s.
Proof.
  induction 1 as [|s s' _ IH Hm].
  - split; [constructor|intros p []].
  - exact (mutation_product_keys_ok cv pv s s' Hm IH).
Qed.

(** Two runs differ from one when a stock is negative: the product is topped
    up on both. *)
Lemma update_low_stock_negative_stock_twice :
  map Product.stock
      (product_rows
         (snd (UpdateLowStockProducts.mutate
                 (mkStore [] [Product.mk (Some 1) "Pen" 1000 (-15)] [] []))))
  = [-5]
  /\ map Product.stock
         (product_rows
            (snd (UpdateLowStockProducts.mutate
                    (snd (UpdateLowStockProducts.mutate
                            (mkStore [] [Product.mk (Some 1) "Pen" 1000 (-15)] [] []))))))
     = [5].
Proof. split; reflexivity. Qed.

(** * Further properties of the resolvers *)

(** ** CreateProduct *)

Lemma create_product_invalid (validate : Product.t -> option string)
      (input : ProductInput.t) (s : Store) (msg : string) :
  validate (new_product input) = Some msg ->
  CreateProduct.mutate validate input s
  = (Raise (Exception (str (ValidationError msg))), s).
Proof.
  intros H. unfold CreateProduct.mutate, try_except, bind, Product_clean.
  unfold new_product in H. rewrite H. reflexivity.
Qed.

Lemma create_product_valid (validate : Product.t -> option string)
      (input : ProductInput.t) (s : Store) :
  validate (new_product input) = None ->
  CreateProduct.mutate validate input s
  = (Return (CreateProduct.mk (inserted_product s input)),
     set_product_rows s (product_rows s ++ [inserted_product s input])).
Proof.
  intros H. unfold CreateProduct.mutate, try_except, bind, Product_clean, Product_save.
  unfold new_product in H. rewrite H. reflexivity.
Qed.

(** X1. create_product reports a rejected input as the validation message and
    leaves the store; an accepted input always succeeds: the product is
    appended under a key that no row of the table had, with the fields of the
    input, and no existing row and no other table changes. *)
Theorem create_product_outcome (validate : Product.t -> option string)
        (input : ProductInput.t) (s : Store) :
  (forall msg,
      validate (new_product input) = Some msg ->
      CreateProduct.mutate validate input s
      = (Raise (Exception (str (ValidationError msg))), s))
  /\ (validate (new_product input) = None ->
      exists k,
        ~ In (Some k) (map Product.id (product_rows s))
        /\ CreateProduct.mutate validate input s
           = (Return (CreateProduct.mk
                        (Product.mk (Some k) (ProductInput.name input)
                                    (ProductInput.price input)
                                    (ProductInput.stock input))),
              mkStore (customer_rows s)
                      (product_rows s
                       ++ [Product.mk (Some k) (ProductInput.name input)
                                      (ProductInput.price input)
                                      (ProductInput.stock input)])
                      (order_rows s) (order_products_rows s))).
Proof.
  split.
  - intros msg. apply create_product_invalid.
  - intros H. exists (next_pk (map Product.id (product_rows s))).
    split; [apply next_pk_fresh|]. apply (create_product_valid validate input s H).
Qed.

Lemma create_product_outcome_witness :
  exists k,
    ~ In (Some k) (map Product.id (product_rows shop))
    /\ CreateProduct.mutate (fun _ => None) (ProductInput.mk "Cap" 250 0) shop
       = (Return (CreateProduct.mk (Product.mk (Some k) "Cap" 250 0)),
          mkStore (customer_rows shop)
                  (product_rows shop ++ [Product.mk (Some k) "Cap" 250 0])
                  (order_rows shop) (order_products_rows shop)).
Proof.
  apply (proj2 (create_product_outcome (fun _ => None) (ProductInput.mk "Cap" 250 0) shop)).
  reflexivity.
Defined.

Lemma find_app_absent {R} (id_of : R -> option Z) (i : Z) (rows : list R) (x : R) :
  ~ In (Some i) (map id_of rows) -> id_of x = Some i ->
  find (fun r => pk_eqb (id_of r) i) (rows ++ [x]) = Some x.
Proof.
  intros Habs Hx. induction rows as [|a rows IH]; simpl.
  - rewrite (proj2 (pk_eqb_true _ _) Hx). reflexivity.
  - assert (Ha : pk_eqb (id_of a) i = false).
    { apply pk_eqb_false. intros E. apply Habs. left. exact E. }
    rewrite Ha. apply IH. intros Hin. apply Habs. right. exact Hin.
Qed.

Lemma resolved_new_product (s : Store) (input : ProductInput.t) :
  resolved (set_product_rows s (product_rows s ++ [inserted_product s input]))
           [next_pk (map Product.id (product_rows s))]
  = [inserted_product s input].
Proof.
  unfold resolved. simpl product_rows. rewrite filter_app.
  rewrite (filter_none _ (product_rows s)).
  - simpl. unfold id_in. simpl. rewrite Z.eqb_refl. reflexivity.
  - intros p Hp. destruct (id_in _ p) eqn:E; [|reflexivity].
    apply id_in_true in E. destruct E as [j [[<-|[]] Hj]].
    exfalso. apply (next_pk_fresh (map Product.id (product_rows s))).
    rewrite <- Hj. apply in_map. exact Hp.
Qed.

(** X2. A product that create_product has just created is found by its key:
    filter(id__in=[key]) returns exactly it, and create_order for an existing
    customer and that single key succeeds with the product's price as
    total_amount. *)
Theorem create_product_then_order (validate : Product.t -> option string)
        (now : Z) (input : ProductInput.t) (cid : Z) (d : option Z) (s : Store) :
  validate (new_product input) = None ->
  customer_exists s cid ->
  exists k s1,
    CreateProduct.mutate validate input s
    = (Return (CreateProduct.mk (Product.mk (Some k) (ProductInput.name input)
                                            (ProductInput.price input)
                                            (ProductInput.stock input))),
       s1)
    /\ Product_objects_filter_id_in [k] s1
       = (Return [Product.mk (Some k) (ProductInput.name input)
                             (ProductInput.price input) (ProductInput.stock input)],
          s1)
    /\ exists o s2,
        CreateOrder.mutate (Order_save now) Order_products_set
                           (OrderInput.mk cid [k] d) s1
        = (Return (CreateOrder.mk o), s2)
        /\ Order.total_amount o = ProductInput.price input
        /\ In o (order_rows s2).
Proof.
  intros Hv Hc.
  exists (next_pk (map Product.id (product_rows s))),
    (set_product_rows s (product_rows s ++ [inserted_product s input])).
  split; [exact (create_product_valid validate input s Hv)|].
  pose proof (resolved_new_product s input) as Hres.
  split; [unfold Product_objects_filter_id_in; unfold resolved in Hres; rewrite Hres;
          reflexivity|].
  destruct (customer_get_some _ _ Hc) as [c [Hfind _]].
  eexists. eexists. split.
  - apply (create_order_success now _ _ c).
    + exact Hfind.
    + discriminate.
    + simpl OrderInput.product_ids. rewrite Hres. reflexivity.
  - split.
    + unfold created_order. simpl OrderInput.product_ids. rewrite Hres.
      unfold sum_prices, sum_Z. simpl. lia.
    + simpl. apply in_or_app. right. left. reflexivity.
Qed.

Lemma create_product_then_order_witness :
  customer_exists shop 1
  /\ exists k s1,
      CreateProduct.mutate (fun _ => None) (ProductInput.mk "Cap" 250 0) shop
      = (Return (CreateProduct.mk (Product.mk (Some k) "Cap" 250 0)), s1)
      /\ Product_objects_filter_id_in [k] s1
         = (Return [Product.mk (Some k) "Cap" 250 0], s1)
      /\ exists o s2,
          CreateOrder.mutate (Order_save 5) Order_products_set
                             (OrderInput.mk 1 [k] None) s1
          = (Return (CreateOrder.mk o), s2)
          /\ Order.total_amount o = 250
          /\ In o (order_rows s2).
Proof.
  split; [exact shop_customer_1|].
  exact (create_product_then_order (fun _ => None) 5 (ProductInput.mk "Cap" 250 0)
                                   1 None shop eq_refl shop_customer_1).
Defined.

(** ** CreateCustomer, then the customer in use *)

(** With a known customer, [create_order] never answers InvalidCustomer. *)
Lemma create_order_known_customer (save : Order.t -> M Order.t)
      (products_set : Order.t -> list Product.t -> M unit)
      (input : OrderInput.t) (s : Store) :
  customer_exists s (OrderInput.customer_id input) ->
  fst (CreateOrder.mutate save products_set input s) <> Raise InvalidCustomer.
Proof.
  intros Hc.
  destruct (OrderInput.product_ids input) as [|i ids] eqn:E.
  { rewrite (create_order_no_product _ _ _ _ Hc E). discriminate. }
  assert (Hne : OrderInput.product_ids input <> []) by congruence.
  destruct (Nat.eq_dec (List.length (resolved s (OrderInput.product_ids input)))
                       (List.length (OrderInput.product_ids input))) as [Hl|Hl].
  - destruct (create_order_count_match save products_set _ _ Hc Hne Hl)
      as [[r [s1 Hr]]|[e He]]; [rewrite Hr|rewrite He]; discriminate.
  - rewrite (create_order_count_mismatch _ _ _ _ Hc Hne Hl). discriminate.
Qed.

(** X3. A customer that create_customer has just created is the one that
    Customer.objects.get(id=key) returns and the last one that the customer
    listing shows, and create_order under that key never fails with
    InvalidCustomer, whatever the products asked for. *)
Theorem create_customer_then_get (now : Z) (validate : Customer.t -> option string)
        (input : CustomerInput.t) (s : Store) :
  validate (new_customer input) = None ->
  ~ email_used s (CustomerInput.email input) ->
  exists k c s1,
    CreateCustomer.mutate now validate input s
    = (Return (CreateCustomer.mk c "Customer created successfully"), s1)
    /\ Customer.id c = Some k
    /\ Customer_objects_get k s1 = (Return c, s1)
    /\ Query.resolve_all_customers s1 = (Return (customer_rows s ++ [c]), s1)
    /\ forall save products_set ids d,
        fst (CreateOrder.mutate save products_set (OrderInput.mk k ids d) s1)
        <> Raise InvalidCustomer.
Proof.
  intros Hv Hfree.
  pose proof (next_pk_fresh (map Customer.id (customer_rows s))) as Hfresh.
  assert (Hfind : find (fun r => pk_eqb (Customer.id r)
                                        (next_pk (map Customer.id (customer_rows s))))
                       (customer_rows s ++ [inserted_customer now s input])
                  = Some (inserted_customer now s input))
    by (apply find_app_absent; [exact Hfresh|reflexivity]).
  exists (next_pk (map Customer.id (customer_rows s))), (inserted_customer now s input),
    (set_customer_rows s (customer_rows s ++ [inserted_customer now s input])).
  split; [exact (create_customer_fresh now validate input s Hv Hfree)|].
  split; [reflexivity|].
  split; [unfold Customer_objects_get; simpl customer_rows; rewrite Hfind; reflexivity|].
  split; [reflexivity|].
  intros save products_set ids d. apply create_order_known_customer.
  exists (inserted_customer now s input). split; [|reflexivity].
  simpl. apply in_or_app. right. left. reflexivity.
Qed.

Lemma create_customer_then_get_witness :
  ~ email_used shop "bob@example.com"
  /\ exists k c s1,
      CreateCustomer.mutate 0 (fun _ => None)
                            (CustomerInput.mk "Bob" "bob@example.com" None) shop
      = (Return (CreateCustomer.mk c "Customer created successfully"), s1)
      /\ Customer.id c = Some k
      /\ Customer_objects_get k s1 = (Return c, s1)
      /\ Query.resolve_all_customers s1 = (Return (customer_rows shop ++ [c]), s1)
      /\ forall save products_set ids d,
          fst (CreateOrder.mutate save products_set (OrderInput.mk k ids d) s1)
          <> Raise InvalidCustomer.
Proof.
  split; [exact shop_email_bob_free|].
  exact (create_customer_then_get 0 (fun _ => None)
           (CustomerInput.mk "Bob" "bob@example.com" None) shop eq_refl
           shop_email_bob_free).
Defined.

(** ** The listing of recent orders *)

Lemma order_date_gte_true (t : Z) (o : Order.t) :
  order_date_gte t o = true <-> exists d, Order.order_date o = Some d /\ t <= d.
Proof.
  unfold order_date_gte. destruct (Order.order_date o) as [d|].
  - rewrite Z.leb_le. split.
    + intros H. exists d. split; [reflexivity|exact H].
    + intros [d' [[= <-] H]]. exact H.
  - split; [discriminate|]. intros [d [H _]]. discriminate H.
Qed.

Lemma recent_orders_run (now : Z) (s : Store) :
  Query.resolve_recent_orders now s
  = (Return (filter (order_date_gte (now - 604800000000)) (order_rows s)), s).
Proof. reflexivity. Qed.

(** X4. recent_orders() returns, without touching the store, exactly the
    stored orders whose order_date is no earlier than seven days
    (604800000000 microseconds) before now: an order dated exactly seven days
    ago is listed, an order without a date never is, and an order listed at
    some time is listed at every earlier time. *)
Theorem recent_orders_window (now : Z) (s : Store) :
  exists l,
    Query.resolve_recent_orders now s = (Return l, s)
    /\ (forall o,
           In o l
           <-> In o (order_rows s)
               /\ exists d, Order.order_date o = Some d /\ now - 604800000000 <= d)
    /\ (forall before l',
           before <= now ->
           Query.resolve_recent_orders before s = (Return l', s) ->
           incl l l').
Proof.
  exists (filter (order_date_gte (now - 604800000000)) (order_rows s)).
  split; [apply recent_orders_run|]. split.
  - intros o. rewrite filter_In, order_date_gte_true. reflexivity.
  - intros before l' Hle Hrun. rewrite recent_orders_run in Hrun.
    injection Hrun as <-. intros o Ho.
    apply filter_In in Ho. destruct Ho as [Hin Hd].
    apply filter_In. split; [exact Hin|].
    apply order_date_gte_true in Hd. destruct Hd as [d [Hd Hle']].
    apply order_date_gte_true. exists d. split; [exact Hd|lia].
Qed.

(** X5. An order that create_order has just created carries the order_date of
    the input, or the time of the request when the input gives none, and
    recent_orders() lists it at time t exactly when t is at most seven days
    after that date. *)
Theorem created_order_is_recent (now : Z) (input : OrderInput.t) (s : Store) :
  customer_exists s (OrderInput.customer_id input) ->
  OrderInput.product_ids input <> [] ->
  List.length (resolved s (OrderInput.product_ids input))
    = List.length (OrderInput.product_ids input) ->
  exists o s',
    CreateOrder.mutate (Order_save now) Order_products_set input s
    = (Return (CreateOrder.mk o), s')
    /\ Order.order_date o = Some (date_or now (OrderInput.order_date input))
    /\ forall t l,
        Query.resolve_recent_orders t s' = (Return l, s') ->
        (In o l <-> t <= date_or now (OrderInput.order_date input) + 604800000000).
Proof.
  intros Hc Hne Hlen. destruct (customer_get_some _ _ Hc) as [c [Hfind _]].
  exists (created_order now s c input), (store_with_order now s c input).
  split; [exact (create_order_success now input s c Hfind Hne Hlen)|].
  split; [reflexivity|].
  intros t l Hrun. rewrite recent_orders_run in Hrun. injection Hrun as <-.
  rewrite filter_In, order_date_gte_true. split.
  - intros [_ [d [Hd Hle]]]. simpl in Hd. injection Hd as <-.
    unfold date_or. lia.
  - intros Hle. split.
    + simpl. apply in_or_app. right. left. reflexivity.
    + exists (date_or now (OrderInput.order_date input)).
      split; [reflexivity|lia].
Qed.

Lemma created_order_is_recent_witness :
  customer_exists shop 1
  /\ exists o s',
      CreateOrder.mutate (Order_save 5) Order_products_set
                         (OrderInput.mk 1 [1; 2] None) shop
      = (Return (CreateOrder.mk o), s')
      /\ Order.order_date o = Some 5
      /\ forall t l,
          Query.resolve_recent_orders t s' = (Return l, s') ->
          (In o l <-> t <= 5 + 604800000000).
Proof.
  split; [exact shop_customer_1|].
  apply (created_order_is_recent 5 (OrderInput.mk 1 [1; 2] None) shop shop_customer_1).
  - discriminate.
  - reflexivity.
Defined.

(** ** UpdateLowStockProducts: what a run adds and what it keeps *)

Lemma sum_stock_top_up (l : list Product.t) :
  sum_Z (map Product.stock (map top_up l))
  = sum_Z (map Product.stock l)
    + 10 * Z.of_nat (List.length (filter (stock_lt 10) l)).
Proof.
  induction l as [|p l IH]; [reflexivity|].
  simpl map. simpl filter. unfold sum_Z in *. simpl fold_right. rewrite IH.
  unfold top_up. destruct (stock_lt 10 p).
  - cbn [List.length]. rewrite Nat2Z.inj_succ. unfold restock.
    cbn [Product.stock Product.with_stock]. lia.
  - lia.
Qed.

Lemma Forall2_map_r {A B} (R : A -> B -> Prop) (f : A -> B) (l : list A) :
  (forall x, R x (f x)) -> Forall2 R l (map f l).
Proof.
  intros H. induction l as [|a l IH]; simpl; constructor; [apply H|exact IH].
Qed.

Lemma top_up_keeps (p : Product.t) :
  Product.id (top_up p) = Product.id p
  /\ Product.name (top_up p) = Product.name p
  /\ Product.price (top_up p) = Product.price p
  /\ Product.stock p <= Product.stock (top_up p).
Proof.
  unfold top_up. destruct (stock_lt 10 p); simpl; repeat split; try reflexivity; lia.
Qed.

(** X6. A run of update_low_stock_products() adds to the total stock exactly
    ten units per product it returns; row by row it keeps the key, the name
    and the price of every product and never lowers a stock; it adds and
    removes no product and touches no other table. *)
Theorem update_low_stock_products_accounting (s : Store) :
  product_keys_ok s ->
  exists r s',
    UpdateLowStockProducts.mutate s = (Return r, s')
    /\ sum_Z (map Product.stock (product_rows s'))
       = sum_Z (map Product.stock (product_rows s))
         + 10 * Z.of_nat (List.length (UpdateLowStockProducts.products r))
    /\ Forall2 (fun p p' =>
                  Product.id p' = Product.id p
                  /\ Product.name p' = Product.name p
                  /\ Product.price p' = Product.price p
                  /\ Product.stock p <= Product.stock p')
               (product_rows s) (product_rows s')
    /\ customer_rows s' = customer_rows s
    /\ order_rows s' = order_rows s
    /\ order_products_rows s' = order_products_rows s.
Proof.
  intros Hok. eexists. eexists.
  split; [exact (update_low_stock_run s Hok)|].
  simpl. split; [|split; [|repeat split]].
  - rewrite length_map. apply sum_stock_top_up.
  - apply Forall2_map_r. exact top_up_keeps.
Qed.

Lemma update_low_stock_products_accounting_witness :
  product_keys_ok shop
  /\ exists r s',
      UpdateLowStockProducts.mutate shop = (Return r, s')
      /\ sum_Z (map Product.stock (product_rows s'))
         = sum_Z (map Product.stock (product_rows shop))
           + 10 * Z.of_nat (List.length (UpdateLowStockProducts.products r))
      /\ Forall2 (fun p p' =>
                    Product.id p' = Product.id p
                    /\ Product.name p' = Product.name p
                    /\ Product.price p' = Product.price p
                    /\ Product.stock p <= Product.stock p')
                 (product_rows shop) (product_rows s')
      /\ customer_rows s' = customer_rows shop
      /\ order_rows s' = order_rows shop
      /\ order_products_rows s' = order_products_rows shop.
Proof.
  split; [exact shop_product_keys_ok|].
  exact (update_low_stock_products_accounting shop shop_product_keys_ok).
Defined.

(** ** BulkCreateCustomers: the batches that create every item *)

Lemma email_used_insert (now : Z) (item : CustomerInput.t) (s : Store) (e : string) :
  email_used (set_customer_rows s (customer_rows s ++ [inserted_customer now s item])) e
  <-> email_used s e \/ e = CustomerInput.email item.
Proof.
  split; [|apply email_used_after_insert].
  intros [c [Hin Hc]]. simpl in Hin. apply in_app_or in Hin.
  destruct Hin as [Hin|[<-|[]]].
  - left. exists c. split; assumption.
  - right. symmetry. exact Hc.
Qed.

Section BulkAllCreated.
Variable now : Z.
Variable validate : Customer.t -> option string.

Lemma item_result_no_error (item : CustomerInput.t) (s : Store) :
  snd (fst (item_result now validate item (mkConnection s false))) = []
  <-> validate (new_customer item) = None
      /\ ~ email_used s (CustomerInput.email item).
Proof.
  split.
  - intros H. unfold item_result in H. cbn [needs_rollback db] in H.
    destruct (validate (new_customer item)) as [msg|] eqn:Hv; [discriminate H|].
    destruct (email_taken (new_customer item) (customer_rows s)) eqn:Ht;
      [discriminate H|].
    split; [reflexivity|apply email_taken_new_false; exact Ht].
  - intros [Hv Hfree]. rewrite (item_result_success now validate item s Hv Hfree).
    reflexivity.
Qed.

Lemma run_items_no_error (input : list CustomerInput.t) (s : Store) :
  snd (fst (run_items now validate input (mkConnection s false))) = []
  <-> (forall item, In item input -> validate (new_customer item) = None)
      /\ NoDup (map CustomerInput.email input)
      /\ (forall item, In item input -> ~ email_used s (CustomerInput.email item)).
Proof.
  revert s. induction input as [|a rest IH]; intros s.
  - simpl. split; [|reflexivity]. intros _.
    split; [intros item []|]. split; [constructor|intros item []].
  - simpl run_items. cbn [fst snd].
    split.
    + intros H. apply app_eq_nil in H. destruct H as [Ha Hrest].
      apply item_result_no_error in Ha. destruct Ha as [Hv Hfree].
      rewrite (item_result_success now validate a s Hv Hfree) in Hrest.
      cbn [snd] in Hrest. apply IH in Hrest. destruct Hrest as [Hvs [Hnd Hfrees]].
      split; [intros item [<-|Hin]; [exact Hv|apply Hvs, Hin]|].
      split.
      * simpl. constructor; [|exact Hnd].
        intros Hin. apply in_map_iff in Hin. destruct Hin as [b [Hb Hin]].
        apply (Hfrees b Hin). apply email_used_insert. right. exact Hb.
      * intros item [<-|Hin]; [exact Hfree|].
        intros Hu. apply (Hfrees item Hin). apply email_used_insert. left. exact Hu.
    + intros [Hvs [Hnd Hfrees]]. simpl in Hnd.
      inversion Hnd as [|e es Hnotin Hnd']; subst.
      assert (Hv : validate (new_customer a) = None) by (apply Hvs; left; reflexivity).
      assert (Hfree : ~ email_used s (CustomerInput.email a))
        by (apply Hfrees; left; reflexivity).
      rewrite (item_result_success now validate a s Hv Hfree). cbn [fst snd].
      simpl. apply IH. split; [intros item Hin; apply Hvs; right; exact Hin|].
      split; [exact Hnd'|].
      intros item Hin Hu. apply email_used_insert in Hu. destruct Hu as [Hu|Hu].
      * apply (Hfrees item (or_intror Hin) Hu).
      * apply Hnotin. rewrite <- Hu. apply in_map. exact Hin.
Qed.

(** A batch without an error string is committed. *)
Lemma run_items_created (input : list CustomerInput.t) (s : Store) :
  snd (fst (run_items now validate input (mkConnection s false))) = [] ->
  map Customer.name (fst (fst (run_items now validate input (mkConnection s false))))
  = map CustomerInput.name input
  /\ map Customer.email (fst (fst (run_items now validate input (mkConnection s false))))
     = map CustomerInput.email input
  /\ map Customer.phone (fst (fst (run_items now validate input (mkConnection s false))))
     = map CustomerInput.phone input
  /\ customer_rows (committed s (snd (run_items now validate input (mkConnection s false))))
     = customer_rows s ++ fst (fst (run_items now validate input (mkConnection s false))).
Proof.
  assert (H : forall s,
             snd (fst (run_items now validate input (mkConnection s false))) = [] ->
             map Customer.name (fst (fst (run_items now validate input (mkConnection s false))))
             = map CustomerInput.name input
             /\ map Customer.email (fst (fst (run_items now validate input (mkConnection s false))))
                = map CustomerInput.email input
             /\ map Customer.phone (fst (fst (run_items now validate input (mkConnection s false))))
                = map CustomerInput.phone input
             /\ needs_rollback (snd (run_items now validate input (mkConnection s false))) = false
             /\ customer_rows (db (snd (run_items now validate input (mkConnection s false))))
                = customer_rows s ++ fst (fst (run_items now validate input (mkConnection s false)))).
  { clear s. induction input as [|a rest IH]; intros s.
    - simpl. intros _. rewrite app_nil_r. repeat split.
    - simpl run_items. cbn [fst snd]. intros H.
      apply app_eq_nil in H. destruct H as [Ha Hrest].
      apply item_result_no_error in Ha. destruct Ha as [Hv Hfree].
      rewrite (item_result_success now validate a s Hv Hfree) in *.
      cbn [fst snd] in *. destruct (IH _ Hrest) as [Hn [He [Hp [Hflag Hrows]]]].
      simpl. rewrite Hn, He, Hp, Hrows, Hflag. simpl. rewrite <- app_assoc.
      repeat split. }
  intros Hno. destruct (H s Hno) as [Hn [He [Hp [Hflag Hrows]]]].
  unfold committed. rewrite Hflag. auto.
Qed.
End BulkAllCreated.

(** X7. bulk_create_customers returns no error string exactly when every
    item passes validation and the emails of the batch are pairwise distinct
    and unused in the store; it then returns one customer per item, in input
    order and with the item's name, email and phone, and the customer table is
    the old one followed by these customers. *)
Theorem bulk_create_customers_all_created
        (now : Z) (validate : Customer.t -> option string)
        (input : list CustomerInput.t) (s : Store) :
  exists r s',
    BulkCreateCustomers.mutate now validate input s = (Return r, s')
    /\ (BulkCreateCustomers.errors r = []
        <-> (forall item, In item input -> validate (new_customer item) = None)
            /\ NoDup (map CustomerInput.email input)
            /\ (forall item, In item input ->
                             ~ email_used s (CustomerInput.email item)))
    /\ (BulkCreateCustomers.errors r = [] ->
        map Customer.name (BulkCreateCustomers.customers r)
        = map CustomerInput.name input
        /\ map Customer.email (BulkCreateCustomers.customers r)
           = map CustomerInput.email input
        /\ map Customer.phone (BulkCreateCustomers.customers r)
           = map CustomerInput.phone input
        /\ customer_rows s' = customer_rows s ++ BulkCreateCustomers.customers r).
Proof.
  eexists. eexists. split; [apply bulk_run_items|]. simpl. split.
  - apply run_items_no_error.
  - apply run_items_created.
Qed.

(** ** The report after a mutation *)

Lemma crm_report_run (s : Store) :
  Query.resolve_crm_report s
  = (Return (CRMReportType.mk
               (Z.of_nat (List.length (customer_rows s)))
               (Z.of_nat (List.length (order_rows s)))
               (sum_Z (map Order.total_amount (order_rows s)))),
     s).
Proof.
  unfold Query.resolve_crm_report, bind, Customer_objects_count, Order_objects_count,
    Order_objects_aggregate_Sum_total_amount, ret.
  rewrite <- (aggregate_or_0 s).
  destruct (order_rows s); reflexivity.
Qed.

Lemma sum_Z_app (l l' : list Z) : sum_Z (l ++ l') = sum_Z l + sum_Z l'.
Proof.
  unfold sum_Z. induction l as [|x l IH]; simpl; [reflexivity|]. rewrite IH. lia.
Qed.

Lemma create_customer_return_inv (now : Z) (validate : Customer.t -> option string)
      (input : CustomerInput.t) (s s' : Store) (r : CreateCustomer.t) :
  CreateCustomer.mutate now validate input s = (Return r, s') ->
  s' = set_customer_rows s (customer_rows s ++ [CreateCustomer.customer r]).
Proof.
  intros H. destruct (validate (new_customer input)) as [msg|] eqn:Hv.
  - rewrite (create_customer_invalid now validate input s msg Hv) in H. discriminate H.
  - destruct (email_used_dec s (CustomerInput.email input)) as [Hu|Hu].
    + rewrite (create_customer_duplicate now validate input s Hv Hu) in H. discriminate H.
    + rewrite (create_customer_fresh now validate input s Hv Hu) in H.
      injection H as <- <-. reflexivity.
Qed.

Lemma create_customer_raise_inv (now : Z) (validate : Customer.t -> option string)
      (input : CustomerInput.t) (s s' : Store) (e : exn) :
  CreateCustomer.mutate now validate input s = (Raise e, s') -> s' = s.
Proof.
  intros H. destruct (validate (new_customer input)) as [msg|] eqn:Hv.
  - rewrite (create_customer_invalid now validate input s msg Hv) in H. congruence.
  - destruct (email_used_dec s (CustomerInput.email input)) as [Hu|Hu].
    + rewrite (create_customer_duplicate now validate input s Hv Hu) in H. congruence.
    + rewrite (create_customer_fresh now validate input s Hv Hu) in H. discriminate H.
Qed.

Lemma create_order_return_inv (now : Z) (input : OrderInput.t) (s s' : Store)
      (r : CreateOrder.t) :
  CreateOrder.mutate (Order_save now) Order_products_set input s = (Return r, s') ->
  exists c,
    In c (customer_rows s)
    /\ Customer.id c = Some (OrderInput.customer_id input)
    /\ OrderInput.product_ids input <> []
    /\ List.length (resolved s (OrderInput.product_ids input))
       = List.length (OrderInput.product_ids input)
    /\ r = CreateOrder.mk (created_order now s c input)
    /\ s' = store_with_order now s c input.
Proof.
  intros E.
  destruct (find (fun c => pk_eqb (Customer.id c) (OrderInput.customer_id input))
                 (customer_rows s)) as [c|] eqn:Hc.
  - assert (Hin : In c (customer_rows s) /\ Customer.id c = Some (OrderInput.customer_id input)).
    { apply find_some in Hc. split; [apply Hc|apply pk_eqb_true, Hc]. }
    assert (Hex : customer_exists s (OrderInput.customer_id input))
      by (exists c; exact Hin).
    destruct (OrderInput.product_ids input) as [|i ids] eqn:Hids.
    { rewrite (create_order_no_product _ _ _ _ Hex Hids) in E. discriminate E. }
    rewrite <- Hids in *.
    assert (Hne : OrderInput.product_ids input <> []) by congruence.
    destruct (Nat.eq_dec (List.length (resolved s (OrderInput.product_ids input)))
                         (List.length (OrderInput.product_ids input))) as [Hl|Hl].
    + rewrite (create_order_success now input s c Hc Hne Hl) in E.
      injection E as <- <-. exists c. destruct Hin as [Hin Hid]. repeat split; assumption.
    + rewrite (create_order_count_mismatch _ _ _ _ Hex Hne Hl) in E. discriminate E.
  - assert (Hno : ~ customer_exists s (OrderInput.customer_id input)).
    { intros [c [Hin Hid]]. apply (find_none _ _ Hc) in Hin.
      apply pk_eqb_false in Hin. contradiction. }
    rewrite (create_order_no_customer _ _ _ _ Hno) in E. discriminate E.
Qed.

(** X8. Every successful creation shows in the report at once: after a
    successful create_customer crm_report() counts one customer more and
    nothing else changes; after a successful create_order it counts one order
    more and its revenue has grown by the order's total_amount. *)
Theorem crm_report_counts_creations (now : Z) (s s' : Store) (rep : CRMReportType.t) :
  Query.resolve_crm_report s = (Return rep, s) ->
  (forall validate input r,
      CreateCustomer.mutate now validate input s = (Return r, s') ->
      Query.resolve_crm_report s'
      = (Return (CRMReportType.mk (CRMReportType.total_customers rep + 1)
                                  (CRMReportType.total_orders rep)
                                  (CRMReportType.total_revenue rep)),
         s'))
  /\ (forall input o,
         CreateOrder.mutate (Order_save now) Order_products_set input s
         = (Return (CreateOrder.mk o), s') ->
         Query.resolve_crm_report s'
         = (Return (CRMReportType.mk (CRMReportType.total_customers rep)
                                     (CRMReportType.total_orders rep + 1)
                                     (CRMReportType.total_revenue rep
                                      + Order.total_amount o)),
            s')).
Proof.
  intros Hrep. rewrite crm_report_run in Hrep. injection Hrep as <-. split.
  - intros validate input r H. apply create_customer_return_inv in H. subst s'.
    rewrite crm_report_run. simpl. rewrite length_app. simpl.
    rewrite Nat2Z.inj_add. reflexivity.
  - intros input o H. apply create_order_return_inv in H.
    destruct H as [c [_ [_ [_ [_ [Hr ->]]]]]]. injection Hr as ->.
    rewrite crm_report_run. simpl. rewrite length_app, map_app, sum_Z_app. simpl.
    rewrite Nat2Z.inj_add. unfold sum_Z at 2. simpl. rewrite Z.add_0_r. reflexivity.
Qed.

Lemma crm_report_counts_creations_witness :
  Query.resolve_crm_report shop = (Return (CRMReportType.mk 1 0 0), shop)
  /\ Query.resolve_crm_report
       (snd (CreateOrder.mutate (Order_save 5) Order_products_set
                                (OrderInput.mk 1 [1; 2] None) shop))
     = (Return (CRMReportType.mk 1 (0 + 1) (0 + 2500)),
        snd (CreateOrder.mutate (Order_save 5) Order_products_set
                                (OrderInput.mk 1 [1; 2] None) shop)).
Proof.
  split; [reflexivity|].
  apply (proj2 (crm_report_counts_creations
                  5 shop
                  (snd (CreateOrder.mutate (Order_save 5) Order_products_set
                                           (OrderInput.mk 1 [1; 2] None) shop))
                  (CRMReportType.mk 1 0 0) eq_refl)
               (OrderInput.mk 1 [1; 2] None)
               (Order.mk (Some 1) (Some 1) 2500 (Some 5))).
  reflexivity.
Defined.

Lemma product_save_other_tables (p : Product.t) (s : Store) :
  customer_rows (snd (Product_save p s)) = customer_rows s
  /\ order_rows (snd (Product_save p s)) = order_rows s
  /\ order_products_rows (snd (Product_save p s)) = order_products_rows s
  /\ exists p', fst (Product_save p s) = Return p'.
Proof.
  unfold Product_save. destruct (Product.id p); simpl; repeat split; eexists; reflexivity.
Qed.

Lemma low_stock_loop_other_tables (l acc : list Product.t) (s : Store) :
  customer_rows (snd (UpdateLowStockProducts.loop l acc s)) = customer_rows s
  /\ order_rows (snd (UpdateLowStockProducts.loop l acc s)) = order_rows s
  /\ order_products_rows (snd (UpdateLowStockProducts.loop l acc s))
     = order_products_rows s
  /\ exists updated, fst (UpdateLowStockProducts.loop l acc s) = Return updated.
Proof.
  revert acc s. induction l as [|p l IH]; intros acc s.
  - simpl. repeat split. eexists. reflexivity.
  - simpl UpdateLowStockProducts.loop. unfold bind.
    destruct (product_save_other_tables
                (Product.with_stock p (Product.stock p + 10)) s)
      as [Hc [Ho [Hm [p' Hp]]]].
    destruct (Product_save (Product.with_stock p (Product.stock p + 10)) s)
      as [out s1]. simpl in *. subst out.
    destruct (IH (acc ++ [p']) s1) as [Hc' [Ho' [Hm' Hu]]].
    rewrite Hc', Ho', Hm', Hc, Ho, Hm. repeat split. exact Hu.
Qed.

Lemma update_low_stock_other_tables (s : Store) :
  customer_rows (snd (UpdateLowStockProducts.mutate s)) = customer_rows s
  /\ order_rows (snd (UpdateLowStockProducts.mutate s)) = order_rows s
  /\ order_products_rows (snd (UpdateLowStockProducts.mutate s))
     = order_products_rows s.
Proof.
  unfold UpdateLowStockProducts.mutate, bind, atomic, Product_objects_filter_stock_lt.
  destruct (low_stock_loop_other_tables
              (filter (stock_lt 10) (product_rows s)) [] s) as [Hc [Ho [Hm [u Hu]]]].
  destruct (UpdateLowStockProducts.loop (filter (stock_lt 10) (product_rows s)) [] s)
    as [out s1]. simpl in *. subst out. simpl. repeat split; assumption.
Qed.

Lemma create_product_other_tables (validate : Product.t -> option string)
      (input : ProductInput.t) (s : Store) :
  customer_rows (snd (CreateProduct.mutate validate input s)) = customer_rows s
  /\ order_rows (snd (CreateProduct.mutate validate input s)) = order_rows s
  /\ order_products_rows (snd (CreateProduct.mutate validate input s))
     = order_products_rows s.
Proof.
  destruct (validate (new_product input)) as [msg|] eqn:Hv.
  - rewrite (create_product_invalid validate input s msg Hv). repeat split.
  - rewrite (create_product_valid validate input s Hv). repeat split.
Qed.

Lemma crm_report_same_tables (s s' : Store) :
  customer_rows s' = customer_rows s ->
  order_rows s' = order_rows s ->
  fst (Query.resolve_crm_report s') = fst (Query.resolve_crm_report s).
Proof.
  intros Hc Ho. rewrite !crm_report_run. simpl. rewrite Hc, Ho. reflexivity.
Qed.

(** X9. The report never moves without a creation: crm_report() answers the
    same before and after create_product and update_low_stock_products(), in
    every store, and before and after any create_customer or create_order
    that fails (whatever the model methods of the order do). *)
Theorem crm_report_unchanged (s : Store) :
  (forall validate input,
      fst (Query.resolve_crm_report (snd (CreateProduct.mutate validate input s)))
      = fst (Query.resolve_crm_report s))
  /\ fst (Query.resolve_crm_report (snd (UpdateLowStockProducts.mutate s)))
     = fst (Query.resolve_crm_report s)
  /\ (forall now validate input e s',
         CreateCustomer.mutate now validate input s = (Raise e, s') ->
         fst (Query.resolve_crm_report s') = fst (Query.resolve_crm_report s))
  /\ (forall save products_set input e s',
         CreateOrder.mutate save products_set input s = (Raise e, s') ->
         fst (Query.resolve_crm_report s') = fst (Query.resolve_crm_report s)).
Proof.
  split; [|split; [|split]].
  - intros validate input.
    destruct (create_product_other_tables validate input s) as [Hc [Ho _]].
    apply crm_report_same_tables; assumption.
  - destruct (update_low_stock_other_tables s) as [Hc [Ho _]].
    apply crm_report_same_tables; assumption.
  - intros now validate input e s' H. apply create_customer_raise_inv in H.
    subst s'. reflexivity.
  - intros save products_set input e s' H. apply create_order_raise_store in H.
    subst s'. reflexivity.
Qed.

(** ** Invariants of the stores that the mutations build *)

Lemma keys_ok_insert {R} (id_of : R -> option Z) (rows : list R) (x : R) :
  keys_ok id_of rows ->
  id_of x = Some (next_pk (map id_of rows)) ->
  keys_ok id_of (rows ++ [x]).
Proof.
  intros [Hnd Hkeys] Hx. split.
  - rewrite map_app. simpl. apply NoDup_app; [exact Hnd|repeat constructor; intros []|].
    intros k Hk [<-|[]]. rewrite Hx in Hk. exact (next_pk_fresh _ Hk).
  - intros r Hr. apply in_app_or in Hr. destruct Hr as [Hr|[<-|[]]].
    + apply Hkeys, Hr.
    + rewrite Hx. discriminate.
Qed.

Lemma attached_same_tables (s s' : Store) (i : Z) :
  product_rows s' = product_rows s ->
  order_products_rows s' = order_products_rows s ->
  attached s' i = attached s i.
Proof.
  intros Hp Hm. unfold attached. rewrite Hp, Hm. reflexivity.
Qed.

Lemma customer_exists_more (s s' : Store) (i : Z) :
  incl (customer_rows s) (customer_rows s') ->
  customer_exists s i -> customer_exists s' i.
Proof.
  intros Hincl [c [Hin Hid]]. exists c. split; [apply Hincl, Hin|exact Hid].
Qed.

Lemma product_exists_more (s s' : Store) (i : Z) :
  incl (product_rows s) (product_rows s') ->
  product_exists s i -> product_exists s' i.
Proof.
  intros Hincl [p [Hin Hid]]. exists p. split; [apply Hincl, Hin|exact Hid].
Qed.

Lemma order_exists_more (s s' : Store) (i : Z) :
  incl (order_rows s) (order_rows s') ->
  order_exists s i -> order_exists s' i.
Proof.
  intros Hincl [o [Hin Hid]]. exists o. split; [apply Hincl, Hin|exact Hid].
Qed.

(** *** A customer is inserted *)

Lemma store_ok_insert_customer (now : Z) (item : CustomerInput.t) (s : Store) :
  ~ email_used s (CustomerInput.email item) ->
  store_ok s ->
  store_ok (set_customer_rows s (customer_rows s ++ [inserted_customer now s item])).
Proof.
  intros Hfree [Hck Hce Hpk Hok Hoc Hat Hto Hop].
  constructor; simpl; try assumption.
  - apply keys_ok_insert; [exact Hck|reflexivity].
  - rewrite map_app. simpl. apply NoDup_app; [exact Hce|repeat constructor; intros []|].
    intros e He [<-|[]]. apply Hfree. apply in_map_iff in He.
    destruct He as [c [Hc Hin]]. exists c. split; assumption.
  - intros o Ho. destruct (Hoc o Ho) as [i [Hi Hex]]. exists i. split; [exact Hi|].
    apply (customer_exists_more s); [|exact Hex].
    simpl. intros c Hc. apply in_or_app. left. exact Hc.
Qed.

(** *** A product is inserted *)

Lemma attached_insert_product (s : Store) (x : Product.t) (i : Z) :
  (forall oi pj, In (oi, pj) (order_products_rows s) -> product_exists s pj) ->
  Product.id x = Some (next_pk (map Product.id (product_rows s))) ->
  attached (set_product_rows s (product_rows s ++ [x])) i = attached s i.
Proof.
  intros Hat Hx. unfold attached. simpl. rewrite filter_app. simpl.
  match goal with
  | |- context [if ?b then _ else _] => destruct b eqn:E
  end; [|apply app_nil_r].
  exfalso. apply existsb_exists in E. destruct E as [[oi pj] [Hin Hm]].
  apply andb_true_iff in Hm. destruct Hm as [_ Hm]. simpl in Hm.
  apply pk_eqb_true in Hm. rewrite Hx in Hm. injection Hm as Hm.
  destruct (Hat oi pj Hin) as [p [Hp Hid]].
  apply (next_pk_fresh (map Product.id (product_rows s))).
  rewrite Hm, <- Hid. apply in_map. exact Hp.
Qed.

Lemma store_ok_insert_product (input : ProductInput.t) (s : Store) :
  store_ok s ->
  store_ok (set_product_rows s (product_rows s ++ [inserted_product s input])).
Proof.
  intros [Hck Hce Hpk Hok Hoc Hat Hto Hop].
  assert (Hatt : forall i,
             attached (set_product_rows s (product_rows s ++ [inserted_product s input])) i
             = attached s i).
  { intros i. apply attached_insert_product; [|reflexivity].
    intros oi pj Hin. apply (Hat oi pj Hin). }
  constructor; try assumption.
  - simpl. apply keys_ok_insert; [exact Hpk|reflexivity].
  - intros oi pj Hin. destruct (Hat oi pj Hin) as [Ho Hp]. split; [exact Ho|].
    apply (product_exists_more s); [|exact Hp].
    simpl. intros p Hq. apply in_or_app. left. exact Hq.
  - intros o i Ho Hi. rewrite Hatt. apply (Hto o i Ho Hi).
  - intros o i Ho Hi. rewrite Hatt. apply (Hop o i Ho Hi).
Qed.

(** *** The low stocks are topped up *)

Lemma attached_top_up (s : Store) (i : Z) :
  attached (set_product_rows s (map top_up (product_rows s))) i
  = map top_up (attached s i).
Proof.
  unfold attached. simpl. rewrite filter_map_swap. f_equal.
  apply filter_ext. intros p. rewrite top_up_id. reflexivity.
Qed.

Lemma sum_prices_top_up (l : list Product.t) :
  sum_prices (map top_up l) = sum_prices l.
Proof.
  unfold sum_prices. rewrite map_map. f_equal. apply map_ext.
  intros p. apply top_up_keeps.
Qed.

Lemma store_ok_top_up (s : Store) :
  store_ok s -> store_ok (set_product_rows s (map top_up (product_rows s))).
Proof.
  intros [Hck Hce Hpk Hok Hoc Hat Hto Hop].
  constructor; try assumption.
  - destruct Hpk as [Hnd Hkeys]. split; simpl.
    + rewrite map_top_up_ids. exact Hnd.
    + intros p Hp. apply in_map_iff in Hp. destruct Hp as [q [<- Hq]].
      rewrite top_up_id. apply Hkeys, Hq.
  - intros oi pj Hin. destruct (Hat oi pj Hin) as [Ho [p [Hp Hid]]].
    split; [exact Ho|]. exists (top_up p). split.
    + simpl. apply in_map. exact Hp.
    + rewrite top_up_id. exact Hid.
  - intros o i Ho Hi. rewrite attached_top_up, sum_prices_top_up. apply (Hto o i Ho Hi).
  - intros o i Ho Hi. rewrite attached_top_up. intros E.
    apply map_eq_nil in E. apply (Hop o i Ho Hi E).
Qed.

(** *** An order is created *)

Lemma in_links (i k j : Z) (ps : list Product.t) :
  In (k, j) (links i ps) <-> k = i /\ exists p, In p ps /\ Product.id p = Some j.
Proof.
  unfold links. rewrite in_flat_map. split.
  - intros [p [Hp Hin]]. destruct (Product.id p) as [j'|] eqn:E; [|destruct Hin].
    destruct Hin as [[= <- <-]|[]]. split; [reflexivity|]. exists p. split; assumption.
  - intros [-> [p [Hp Hid]]]. exists p. split; [exact Hp|]. rewrite Hid. left. reflexivity.
Qed.

Lemma attached_other_order (s : Store) (i oi : Z) (ps : list Product.t)
      (orows : list Order.t) :
  oi <> i ->
  attached
    (mkStore (customer_rows s) (product_rows s) orows
             (filter (fun r => negb (fst r =? i)) (order_products_rows s) ++ links i ps))
    oi
  = attached s oi.
Proof.
  intros Hne. unfold attached. simpl. apply filter_ext. intros p.
  rewrite existsb_app.
  assert (Hl : existsb (fun r => (fst r =? oi) && pk_eqb (Product.id p) (snd r))
                       (links i ps) = false).
  { destruct (existsb _ (links i ps)) eqn:E; [|reflexivity].
    apply existsb_exists in E. destruct E as [[k j] [Hin Hm]].
    apply in_links in Hin. destruct Hin as [-> _].
    apply andb_true_iff in Hm. destruct Hm as [Hm _]. simpl in Hm.
    apply Z.eqb_eq in Hm. congruence. }
  rewrite Hl, orb_false_r.
  induction (order_products_rows s) as [|r rows IH]; simpl; [reflexivity|].
  destruct (fst r =? i) eqn:Er; simpl.
  - apply Z.eqb_eq in Er.
    assert (Ho : (fst r =? oi) = false) by (apply Z.eqb_neq; congruence).
    rewrite Ho. simpl. exact IH.
  - rewrite IH. reflexivity.
Qed.

Lemma store_ok_create_order (now : Z) (input : OrderInput.t) (c : Customer.t) (s : Store) :
  In c (customer_rows s) ->
  Customer.id c = Some (OrderInput.customer_id input) ->
  OrderInput.product_ids input <> [] ->
  List.length (resolved s (OrderInput.product_ids input))
    = List.length (OrderInput.product_ids input) ->
  store_ok s ->
  store_ok (store_with_order now s c input).
Proof.
  intros Hc Hcid Hne Hlen [Hck Hce Hpk Hok Hoc Hat Hto Hop].
  pose proof (next_pk_fresh (map Order.id (order_rows s))) as Hfresh.
  set (i := next_pk (map Order.id (order_rows s))) in *.
  assert (Hold : forall o oi, In o (order_rows s) -> Order.id o = Some oi -> oi <> i).
  { intros o oi Ho Hi ->. apply Hfresh. rewrite <- Hi. apply in_map. exact Ho. }
  assert (Hnew : order_exists (store_with_order now s c input) i).
  { exists (created_order now s c input). split; [|reflexivity].
    simpl. apply in_or_app. right. left. reflexivity. }
  constructor; try assumption.
  - simpl. apply keys_ok_insert; [exact Hok|reflexivity].
  - simpl. intros o Ho. apply in_app_or in Ho. destruct Ho as [Ho|[<-|[]]].
    + apply (Hoc o Ho).
    + exists (OrderInput.customer_id input). split; [exact Hcid|].
      exists c. split; assumption.
  - simpl order_products_rows. intros oi pj Hin. apply in_app_or in Hin.
    destruct Hin as [Hin|Hin].
    + apply filter_In in Hin. destruct Hin as [Hin _].
      destruct (Hat oi pj Hin) as [Ho Hp]. split; [|exact Hp].
      apply (order_exists_more s); [|exact Ho].
      simpl. intros o Hq. apply in_or_app. left. exact Hq.
    + apply in_links in Hin. destruct Hin as [-> [p [Hp Hid]]]. split; [exact Hnew|].
      apply filter_In in Hp. exists p. split; [apply Hp|exact Hid].
  - simpl order_rows. intros o oi Ho Hi. apply in_app_or in Ho.
    destruct Ho as [Ho|[<-|[]]].
    + unfold store_with_order. rewrite attached_other_order by exact (Hold o oi Ho Hi).
      apply (Hto o oi Ho Hi).
    + simpl in Hi. injection Hi as <-.
      unfold store_with_order. rewrite attached_after_set. reflexivity.
  - simpl order_rows. intros o oi Ho Hi. apply in_app_or in Ho.
    destruct Ho as [Ho|[<-|[]]].
    + unfold store_with_order. rewrite attached_other_order by exact (Hold o oi Ho Hi).
      apply (Hop o oi Ho Hi).
    + simpl in Hi. injection Hi as <-.
      unfold store_with_order. rewrite attached_after_set. intros E.
      rewrite E in Hlen. simpl in Hlen.
      destruct (OrderInput.product_ids input); [congruence|discriminate Hlen].
Qed.

(** *** Every mutation keeps the invariants *)

Lemma store_ok_create_customer (now : Z) (validate : Customer.t -> option string)
      (input : CustomerInput.t) (s : Store) :
  store_ok s -> store_ok (snd (CreateCustomer.mutate now validate input s)).
Proof.
  intros Hok. destruct (validate (new_customer input)) as [msg|] eqn:Hv.
  - rewrite (create_customer_invalid now validate input s msg Hv). exact Hok.
  - destruct (email_used_dec s (CustomerInput.email input)) as [Hu|Hu].
    + rewrite (create_customer_duplicate now validate input s Hv Hu). exact Hok.
    + rewrite (create_customer_fresh now validate input s Hv Hu).
      apply store_ok_insert_customer; assumption.
Qed.

Lemma store_ok_bulk_create_customers (now : Z) (validate : Customer.t -> option string)
      (input : list CustomerInput.t) (s : Store) :
  store_ok s -> store_ok (snd (BulkCreateCustomers.mutate now validate input s)).
Proof.
  apply (bulk_invariant now validate store_ok).
  intros s0 item _ Hfree Hok. apply store_ok_insert_customer; assumption.
Qed.

Lemma store_ok_create_product (validate : Product.t -> option string)
      (input : ProductInput.t) (s : Store) :
  store_ok s -> store_ok (snd (CreateProduct.mutate validate input s)).
Proof.
  intros Hok. destruct (validate (new_product input)) as [msg|] eqn:Hv.
  - rewrite (create_product_invalid validate input s msg Hv). exact Hok.
  - rewrite (create_product_valid validate input s Hv).
    apply store_ok_insert_product. exact Hok.
Qed.

Lemma store_ok_update_low_stock (s : Store) :
  store_ok s -> store_ok (snd (UpdateLowStockProducts.mutate s)).
Proof.
  intros Hok. rewrite (update_low_stock_run s (product_keys s Hok)).
  apply store_ok_top_up. exact Hok.
Qed.

Lemma store_ok_create_order_mutation (now : Z) (input : OrderInput.t) (s : Store) :
  store_ok s ->
  store_ok (snd (CreateOrder.mutate (Order_save now) Order_products_set input s)).
Proof.
  intros Hok.
  destruct (CreateOrder.mutate (Order_save now) Order_products_set input s)
    as [[r|e] s'] eqn:E.
  - apply create_order_return_inv in E.
    destruct E as [c [Hc [Hid [Hne [Hlen [_ ->]]]]]].
    apply store_ok_create_order; assumption.
  - apply create_order_raise_store in E. subst s'. exact Hok.
Qed.

Lemma store_ok_empty : store_ok empty_store.
Proof.
  constructor; simpl; try (split; [constructor|intros r []]); try constructor;
    intros; contradiction.
Qed.

Lemma reachable_store_ok (cv : Customer.t -> option string)
      (pv : Product.t -> option string) (s : Store) :
  reachable cv pv s -> store_ok s.
Proof.
  induction 1 as [|s s' _ IH Hm]; [exact store_ok_empty|].
  destruct Hm.
  - apply store_ok_create_customer, IH.
  - apply store_ok_bulk_create_customers, IH.
  - apply store_ok_create_product, IH.
  - apply store_ok_create_order_mutation, IH.
  - apply store_ok_update_low_stock, IH.
Qed.

Lemma store_after_order_reachable :
  reachable (fun _ => None) (fun _ => None) store_after_order.
Proof.
  apply (reachable_step _ _ store_after_product); [|apply mutation_create_order].
  apply (reachable_step _ _ store_after_customer); [|apply mutation_create_product].
  apply (reachable_step _ _ empty_store); [|apply mutation_create_customer].
  apply reachable_empty.
Defined.

(** X10. In every store that the five mutations build from the empty
    database, customer, product and order keys are present and pairwise
    distinct, customer emails are pairwise distinct, every order refers to
    an existing customer, and every attachment refers to an existing order
    and an existing product. *)
Theorem reachable_constraints (cv : Customer.t -> option string)
        (pv : Product.t -> option string) (s : Store) :
  reachable cv pv s ->
  keys_ok Customer.id (customer_rows s)
  /\ NoDup (map Customer.email (customer_rows s))
  /\ keys_ok Product.id (product_rows s)
  /\ keys_ok Order.id (order_rows s)
  /\ (forall o, In o (order_rows s) ->
                exists i, Order.customer o = Some i /\ customer_exists s i)
  /\ (forall oi pj, In (oi, pj) (order_products_rows s) ->
                    order_exists s oi /\ product_exists s pj).
Proof.
  intros H. destruct (reachable_store_ok cv pv s H) as [H1 H2 H3 H4 H5 H6 _ _].
  exact (conj H1 (conj H2 (conj H3 (conj H4 (conj H5 H6))))).
Qed.

Lemma reachable_constraints_witness :
  order_rows store_after_order = [Order.mk (Some 1) (Some 1) 1000 (Some 2)]
  /\ order_products_rows store_after_order = [(1, 1)]
  /\ keys_ok Customer.id (customer_rows store_after_order)
  /\ NoDup (map Customer.email (customer_rows store_after_order))
  /\ keys_ok Product.id (product_rows store_after_order)
  /\ keys_ok Order.id (order_rows store_after_order)
  /\ (forall o, In o (order_rows store_after_order) ->
                exists i, Order.customer o = Some i
                          /\ customer_exists store_after_order i)
  /\ (forall oi pj, In (oi, pj) (order_products_rows store_after_order) ->
                    order_exists store_after_order oi
                    /\ product_exists store_after_order pj).
Proof.
  split; [reflexivity|]. split; [reflexivity|].
  exact (reachable_constraints (fun _ => None) (fun _ => None) store_after_order
                               store_after_order_reachable).
Defined.

(** X11. In every store that the five mutations build from the empty
    database, the total_amount of each order is the sum of the prices of the
    products attached to it, and each order has at least one product
    attached: no later mutation lets the stored total drift. *)
Theorem reachable_order_totals (cv : Customer.t -> option string)
        (pv : Product.t -> option string) (s : Store) :
  reachable cv pv s ->
  forall o i,
    In o (order_rows s) -> Order.id o = Some i ->
    Order.total_amount o = sum_prices (attached s i) /\ attached s i <> [].
Proof.
  intros H o i Ho Hi. destruct (reachable_store_ok cv pv s H) as [_ _ _ _ _ _ H7 H8].
  split; [apply (H7 o i Ho Hi)|apply (H8 o i Ho Hi)].
Qed.

Lemma reachable_order_totals_witness :
  In (Order.mk (Some 1) (Some 1) 1000 (Some 2)) (order_rows store_after_order)
  /\ Order.total_amount (Order.mk (Some 1) (Some 1) 1000 (Some 2))
     = sum_prices (attached store_after_order 1)
  /\ attached store_after_order 1 <> [].
Proof.
  assert (Hin : In (Order.mk (Some 1) (Some 1) 1000 (Some 2))
                   (order_rows store_after_order)) by (left; reflexivity).
  split; [exact Hin|].
  exact (reachable_order_totals (fun _ => None) (fun _ => None) store_after_order
                                store_after_order_reachable
                                (Order.mk (Some 1) (Some 1) 1000 (Some 2)) 1 Hin eq_refl).
Defined.

(** ** Customers: a used email in a store that the mutations built *)









(** * The scheduled jobs *)

Lemma append_assoc (a b c : string) : ((a ++ b) ++ c = a ++ b ++ c)%string.
Proof.
  induction a as [|x a IH]; simpl; [reflexivity|]. rewrite IH. reflexivity.
Qed.

Lemma append_empty_r (a : string) : (a ++ "" = a)%string.
Proof.
  induction a as [|x a IH]; simpl; [reflexivity|]. rewrite IH. reflexivity.
Qed.

(** ** generate_crm_report *)

Section ReportTask.
Variable repr_container : json -> string.

Let report_text (a b c : json) : string :=
  ("Report: " ++ py_str repr_container a ++ " customers, "
   ++ py_str repr_container b ++ " orders, "
   ++ py_str repr_container c ++ " revenue")%string.

Lemma report_line_dict (fields report : list (string * json)) (now_text : string) :
  lookup "crmReport" fields = Some (JDict report) ->
  report_line repr_container (Return (JDict fields)) now_text
  = Return (now_text ++ " - "
            ++ report_text (report_field report "totalCustomers")
                           (report_field report "totalOrders")
                           (report_field report "totalRevenue")
            ++ newline)%string.
Proof.
  intros H. unfold report_line, and_then, py_get. rewrite H.
  unfold report_text, report_field. rewrite ?append_assoc. reflexivity.
Qed.

Lemma report_line_absent (fields : list (string * json)) (now_text : string) :
  lookup "crmReport" fields = None ->
  report_line repr_container (Return (JDict fields)) now_text
  = Return (now_text ++ " - " ++ report_text (JInt 0) (JInt 0) (JInt 0) ++ newline)%string.
Proof.
  intros H. unfold report_line, and_then, py_get. rewrite H. reflexivity.
Qed.

Lemma report_line_not_dict (fields : list (string * json)) (v : json) (now_text : string) :
  lookup "crmReport" fields = Some v ->
  (forall report, v <> JDict report) ->
  report_line repr_container (Return (JDict fields)) now_text
  = Raise (Exception ("'" ++ type_name v ++ "' object has no attribute 'get'")%string).
Proof.
  intros H Hv. unfold report_line, and_then. unfold py_get at 1. rewrite H.
  destruct v; try reflexivity. exfalso. apply (Hv fields0). reflexivity.
Qed.



(** X13. What generate_crm_report logs: the text of the exception when the
    client raises; zeros when the response has no crmReport; for a crmReport
    object each of the three values, or 0 for a value that is missing; and,
    when crmReport is bound to anything but an object (null included), not a
    report but the error of calling get on that value. *)
Theorem generate_crm_report_record (now_text log : string) :
  (forall e,
      generate_crm_report repr_container (Raise e) now_text log
      = (log ++ now_text ++ " - Error: " ++ str e ++ newline)%string)
  /\ (forall fields,
         lookup "crmReport" fields = None ->
         generate_crm_report repr_container (Return (JDict fields)) now_text log
         = (log ++ now_text ++ " - Report: 0 customers, 0 orders, 0 revenue"
            ++ newline)%string)
  /\ (forall fields report,
         lookup "crmReport" fields = Some (JDict report) ->
         generate_crm_report repr_container (Return (JDict fields)) now_text log
         = (log ++ now_text ++ " - Report: "
            ++ py_str repr_container (report_field report "totalCustomers")
            ++ " customers, "
            ++ py_str repr_container (report_field report "totalOrders")
            ++ " orders, "
            ++ py_str repr_container (report_field report "totalRevenue")
            ++ " revenue" ++ newline)%string)
  /\ (forall fields v,
         lookup "crmReport" fields = Some v ->
         (forall report, v <> JDict report) ->
         generate_crm_report repr_container (Return (JDict fields)) now_text log
         = (log ++ now_text ++ " - Error: '" ++ type_name v
            ++ "' object has no attribute 'get'" ++ newline)%string).
Proof.
  unfold generate_crm_report. split; [|split; [|split]].
  - intros e. reflexivity.
  - intros fields H. rewrite (report_line_absent _ _ H). reflexivity.
  - intros fields report H. rewrite (report_line_dict _ _ _ H).
    unfold report_text. rewrite ?append_assoc. reflexivity.
  - intros fields v H Hv. rewrite (report_line_not_dict _ _ _ H Hv).
    assert (E : forall x y, (String "'" (x ++ y) ++ newline
                             = "'" ++ x ++ y ++ newline)%string)
      by (intros x y; simpl; rewrite append_assoc; reflexivity).
    simpl str. rewrite E. reflexivity.
Qed.
End ReportTask.

Lemma generate_crm_report_record_witness :
  generate_crm_report (fun _ => "")
    (Return (JDict [("crmReport", JDict [("totalCustomers", JInt 3);
                                         ("totalRevenue", JStr "25.00")])]))
    "2025-01-01 10:00:00" ""
  = ("2025-01-01 10:00:00 - Report: 3 customers, 0 orders, 25.00 revenue"
     ++ newline)%string
  /\ generate_crm_report (fun _ => "")
       (Return (JDict [("crmReport", JNull)])) "2025-01-01 10:00:00" ""
     = ("2025-01-01 10:00:00 - Error: 'NoneType' object has no attribute 'get'"
        ++ newline)%string.
Proof.
  split.
  - apply (proj1 (proj2 (proj2 (generate_crm_report_record
                                  (fun _ => "") "2025-01-01 10:00:00" "")))
                 _ [("totalCustomers", JInt 3); ("totalRevenue", JStr "25.00")]).
    reflexivity.
  - apply (proj2 (proj2 (proj2 (generate_crm_report_record
                                  (fun _ => "") "2025-01-01 10:00:00" "")))
                 _ JNull).
    + reflexivity.
    + intros report. discriminate.
Defined.

(** ** send_order_reminders *)

Section ReminderJob.
Variable repr_container : json -> string.
Variable str_index_msg : string.

Lemma write_reminders_log (timestamp : string) (edges : list json) (log_file : string) :
  snd (write_reminders repr_container str_index_msg timestamp edges log_file)
  = (log_file ++ join (written repr_container str_index_msg timestamp edges))%string.
Proof.
  revert log_file. induction edges as [|edge rest IH]; intros log_file.
  - simpl. rewrite append_empty_r. reflexivity.
  - simpl. destruct (reminder_line repr_container str_index_msg timestamp edge).
    + rewrite IH. simpl. rewrite append_assoc. reflexivity.
    + simpl. rewrite append_empty_r. reflexivity.
Qed.

Lemma written_length (timestamp : string) (edges : list json) :
  (List.length (written repr_container str_index_msg timestamp edges)
   <= List.length edges)%nat.
Proof.
  induction edges as [|edge rest IH]; simpl; [lia|].
  destruct (reminder_line repr_container str_index_msg timestamp edge); simpl; lia.
Qed.

Lemma write_reminders_outcome (timestamp : string) (edges : list json)
      (log_file : string) :
  (List.length (written repr_container str_index_msg timestamp edges)
   = List.length edges
   /\ fst (write_reminders repr_container str_index_msg timestamp edges log_file)
      = Return tt)
  \/ ((List.length (written repr_container str_index_msg timestamp edges)
       < List.length edges)%nat
      /\ exists e,
          fst (write_reminders repr_container str_index_msg timestamp edges log_file)
          = Raise e).
Proof.
  revert log_file. induction edges as [|edge rest IH]; intros log_file.
  - left. split; reflexivity.
  - simpl. destruct (reminder_line repr_container str_index_msg timestamp edge) as [l|e].
    + destruct (IH (log_file ++ l)%string) as [[Hl Hr]|[Hl Hr]].
      * left. simpl. split; [lia|exact Hr].
      * right. simpl. split; [lia|exact Hr].
    + right. simpl. split; [lia|]. exists e. reflexivity.
Qed.

Lemma send_order_reminders_edges (result : json) (edges : list json)
      (timestamp log_file stdout : string) :
  edges_of str_index_msg result = Return edges ->
  send_order_reminders repr_container str_index_msg (Return result) timestamp
                       log_file stdout
  = match write_reminders repr_container str_index_msg timestamp edges log_file with
    | (Return _, log_file') =>
        (log_file', (stdout ++ "Order reminders processed!" ++ newline)%string)
    | (Raise e, log_file') =>
        (log_file', (stdout ++ "Error processing reminders: " ++ str e ++ newline)%string)
    end.
Proof.
  intros H. unfold send_order_reminders. unfold edges_of in H. rewrite H. reflexivity.
Qed.

(** X14. send_order_reminders never raises and prints exactly one line. When
    the client raises, or the response has no iterable orders.edges, the log
    file keeps its content and the error is printed. Otherwise the log
    receives, after its content, the lines of the edges before the first one
    that lacks a field: all of them, and then the success message is printed,
    or a strict prefix that stays in the file while the error is printed. *)
Theorem send_order_reminders_outcome (timestamp log_file stdout : string) :
  (forall e,
      send_order_reminders repr_container str_index_msg (Raise e) timestamp
                           log_file stdout
      = (log_file, (stdout ++ "Error processing reminders: " ++ str e ++ newline)%string))
  /\ (forall result e,
         edges_of str_index_msg result = Raise e ->
         send_order_reminders repr_container str_index_msg (Return result) timestamp
                              log_file stdout
         = (log_file,
            (stdout ++ "Error processing reminders: " ++ str e ++ newline)%string))
  /\ (forall result edges,
         edges_of str_index_msg result = Return edges ->
         fst (send_order_reminders repr_container str_index_msg (Return result)
                                   timestamp log_file stdout)
         = (log_file ++ join (written repr_container str_index_msg timestamp edges))%string
         /\ (List.length (written repr_container str_index_msg timestamp edges)
             = List.length edges ->
             snd (send_order_reminders repr_container str_index_msg (Return result)
                                       timestamp log_file stdout)
             = (stdout ++ "Order reminders processed!" ++ newline)%string)
         /\ ((List.length (written repr_container str_index_msg timestamp edges)
              < List.length edges)%nat ->
             exists e,
               snd (send_order_reminders repr_container str_index_msg (Return result)
                                         timestamp log_file stdout)
               = (stdout ++ "Error processing reminders: " ++ str e ++ newline)%string)).
Proof.
  split; [|split].
  - intros e. reflexivity.
  - intros result e H. unfold send_order_reminders. unfold edges_of in H.
    rewrite H. reflexivity.
  - intros result edges H. rewrite (send_order_reminders_edges _ _ _ _ _ H).
    pose proof (write_reminders_log timestamp edges log_file) as Hlog.
    destruct (write_reminders_outcome timestamp edges log_file) as [[Hl Hr]|[Hl [e Hr]]];
      destruct (write_reminders repr_container str_index_msg timestamp edges log_file)
        as [out log_file']; simpl in Hlog, Hr; subst out log_file'; simpl.
    + split; [reflexivity|]. split; [reflexivity|]. intros Hlt. lia.
    + split; [reflexivity|]. split; [intros Heq; lia|]. exists e. reflexivity.
Qed.

Lemma written_response (timestamp : string) (orders : list (json * json)) :
  written repr_container str_index_msg timestamp (map reminder_edge orders)
  = map (reminder_record repr_container timestamp) orders.
Proof.
  induction orders as [|order rest IH]; [reflexivity|].
  simpl. rewrite IH. reflexivity.
Qed.

Lemma send_order_reminders_response (orders : list (json * json))
      (timestamp log_file stdout : string) :
  send_order_reminders repr_container str_index_msg
                       (Return (reminders_response orders)) timestamp log_file stdout
  = ((log_file ++ join (map (reminder_record repr_container timestamp) orders))%string,
     (stdout ++ "Order reminders processed!" ++ newline)%string).
Proof.
  assert (He : edges_of str_index_msg (reminders_response orders)
               = Return (map reminder_edge orders)) by reflexivity.
  rewrite (send_order_reminders_edges _ _ _ _ _ He).
  pose proof (write_reminders_log timestamp (map reminder_edge orders) log_file) as Hlog.
  destruct (write_reminders_outcome timestamp (map reminder_edge orders) log_file)
    as [[Hl Hr]|[Hl _]].
  - destruct (write_reminders repr_container str_index_msg timestamp
                              (map reminder_edge orders) log_file) as [out log_file'].
    simpl in Hlog, Hr. subst out log_file'. rewrite written_response. reflexivity.
  - rewrite written_response, !length_map in Hl. lia.
Qed.

(** X15. For a response that lists n orders, each with its id and the email
    of its customer, send_order_reminders appends one line per order, in the
    order of the response and all under the one timestamp of the run, and
    prints the success message; a second run on the same response appends
    the same orders again: nothing is remembered between runs. *)
Theorem send_order_reminders_logs_every_order
        (orders : list (json * json)) (timestamp later log_file stdout : string) :
  send_order_reminders repr_container str_index_msg
                       (Return (reminders_response orders)) timestamp log_file stdout
  = ((log_file ++ join (map (reminder_record repr_container timestamp) orders))%string,
     (stdout ++ "Order reminders processed!" ++ newline)%string)
  /\ List.length (map (reminder_record repr_container timestamp) orders)
     = List.length orders
  /\ fst (send_order_reminders
            repr_container str_index_msg (Return (reminders_response orders)) later
            (fst (send_order_reminders repr_container str_index_msg
                                       (Return (reminders_response orders))
                                       timestamp log_file stdout))
            (snd (send_order_reminders repr_container str_index_msg
                                       (Return (reminders_response orders))
                                       timestamp log_file stdout)))
     = ((log_file ++ join (map (reminder_record repr_container timestamp) orders))
        ++ join (map (reminder_record repr_container later) orders))%string.
Proof.
  split; [apply send_order_reminders_response|]. split; [apply length_map|].
  rewrite !send_order_reminders_response. reflexivity.
Qed.
End ReminderJob.

Lemma send_order_reminders_outcome_witness :
  send_order_reminders (fun _ => "") "" (Return response_with_gap)
                       "2025-01-01 10:00:00" "" ""
  = (("[2025-01-01 10:00:00] Order ID: 7, Customer Email: ada@example.com"
      ++ newline)%string,
     ("Error processing reminders: 'customer'" ++ newline)%string)
  /\ fst (send_order_reminders (fun _ => "") "" (Return response_with_gap)
                               "2025-01-01 10:00:00" "" "")
     = ("" ++ join (written (fun _ => "") "" "2025-01-01 10:00:00"
                            [reminder_edge (JStr "7", JStr "ada@example.com");
                             JDict [("node", JDict [("id", JStr "8")])];
                             reminder_edge (JStr "9", JStr "bob@example.com")]))%string.
Proof.
  split; [reflexivity|].
  apply (proj2 (proj2 (send_order_reminders_outcome
                         (fun _ => "") "" "2025-01-01 10:00:00" "" ""))
               response_with_gap).
  reflexivity.
Defined.

(** * Relations between the mutations *)

(** ** create_order and the order of product_ids *)





(** ** create_customer and a batch of one *)

(** X17. bulk_create_customers on a batch of one item creates a customer
    exactly when create_customer succeeds on that item, and then it is the
    same customer; when create_customer raises, the batch returns one error
    string and no customer. Either way both leave the same store. *)
Theorem bulk_of_one_is_create_customer
        (now : Z) (validate : Customer.t -> option string)
        (item : CustomerInput.t) (s : Store) :
  (exists c s1,
      CreateCustomer.mutate now validate item s
      = (Return (CreateCustomer.mk c "Customer created successfully"), s1)
      /\ BulkCreateCustomers.mutate now validate [item] s
         = (Return (BulkCreateCustomers.mk [c] []), s1))
  \/ (exists e err,
         CreateCustomer.mutate now validate item s = (Raise e, s)
         /\ BulkCreateCustomers.mutate now validate [item] s
            = (Return (BulkCreateCustomers.mk [] [err]), s)).
Proof.
  rewrite bulk_run_items. simpl run_items.
  destruct (validate (new_customer item)) as [msg|] eqn:Hv.
  - right. eexists. eexists.
    split; [apply (create_customer_invalid now validate item s msg Hv)|].
    rewrite (item_result_invalid now validate item _ msg Hv). reflexivity.
  - destruct (email_used_dec s (CustomerInput.email item)) as [Hu|Hu].
    + right. eexists. eexists.
      split; [apply (create_customer_duplicate now validate item s Hv Hu)|].
      rewrite (item_result_duplicate now validate item s Hv Hu). reflexivity.
    + left. eexists. eexists.
      split; [apply (create_customer_fresh now validate item s Hv Hu)|].
      rewrite (item_result_success now validate item s Hv Hu). reflexivity.
Qed.
